(** * Action Lifecycle Orchestrator: a shallow embedding

    The development embeds the trigger route ([routes/pilot.js]), the
    post-patch watcher ([services/postpatchWatcher.js]), the helpers of
    [utils/http.js] and [utils/query.js] and the in-memory store
    ([state/store.js]) of the BigFix patch orchestrator backend, and states
    the properties of its specification over that embedding.

    Modelling conventions.
    - A JavaScript string is a [string]: a sequence of 8-bit code units, read
      as the Latin-1 range of UTF-16.
    - A JavaScript number is a [number]: NaN, the two infinities, or a finite
      integer.  Double arithmetic on integers is exact up to 2^53 - 1 in
      magnitude ([safeInteger]); the properties that compute with numbers are
      stated within that range.  Beyond it, and for fractional values, the
      source computes with binary64 doubles: module [Double] embeds the same
      functions over them, and is what a fractional or a larger input is run
      through.
    - A JSON value is a [value]; an object keeps its keys in enumeration
      order.
    - A record of the action store is a finite map from property names to
      values, as the source reads and writes it by property name.
    - External collaborators (HTTP endpoints, SQL server, SMTP, clock) answer
      through an oracle record; every call is logged in a trace of [event]s.
    - One handler invocation and one cleanup run are one step each.  A
      watcher tick is embedded twice: run to completion ([tick]), and cut at
      its [await]s ([startTick], [resumeTick]) so that ticks overlap with
      one another and with requests ([perform]); [restart] ends the process
      and starts it again on the same tables. *)

From Stdlib Require Import ZArith List Ascii String Bool Lia.
From Stdlib Require Import DecimalString DecimalPos DecimalN.
From Stdlib Require Floats.
From stdpp Require Import base option list gmap strings.

#[local] Set Warnings "-register-all".
#[local] Arguments String.append !_ _ : simpl nomatch.
Local Open Scope Z_scope.

(** ** JavaScript strings *)

Module JsString.

Definition code (c : ascii) : N := N_of_ascii c.

(** Upper-case letters of the Latin-1 range: A-Z, and U+00C0-U+00DE
    without the multiplication sign U+00D7. *)
Definition is_upper (c : ascii) : bool :=
  let n := code c in
  ((65 <=? n) && (n <=? 90) ||
   (192 <=? n) && (n <=? 222) && negb (n =? 215))%N.

Definition lower_char (c : ascii) : ascii :=
  if is_upper c then ascii_of_N (code c + 32) else c.

(** [String.prototype.toLowerCase] *)
Fixpoint toLowerCase (s : string) : string :=
  match s with
  | EmptyString => EmptyString
  | String c r => String (lower_char c) (toLowerCase r)
  end.

(** White space removed by [String.prototype.trim]: TAB, LF, VT, FF, CR,
    SP and NBSP. *)
Definition is_space (c : ascii) : bool :=
  let n := code c in
  ((9 <=? n) && (n <=? 13) || (n =? 32) || (n =? 160))%N.

Fixpoint trimStart (s : string) : string :=
  match s with
  | String c r => if is_space c then trimStart r else s
  | EmptyString => EmptyString
  end.

Fixpoint trimEnd (s : string) : string :=
  match s with
  | EmptyString => EmptyString
  | String c r =>
      match trimEnd r with
      | EmptyString => if is_space c then EmptyString else String c EmptyString
      | r' => String c r'
      end
  end.

Definition trim (s : string) : string := trimEnd (trimStart s).

(** [s.startsWith(p)] *)
Fixpoint startsWith (p s : string) : bool :=
  match p, s with
  | EmptyString, _ => true
  | String a p', String b s' => Ascii.eqb a b && startsWith p' s'
  | String _ _, EmptyString => false
  end.

(** [s.includes(p)] *)
Fixpoint includes (p s : string) : bool :=
  startsWith p s ||
  match s with
  | EmptyString => false
  | String _ s' => includes p s'
  end.

(** [s.replace(/c/g, r)] for a one-character pattern [c]. *)
Fixpoint replaceAll (c : ascii) (r : string) (s : string) : string :=
  match s with
  | EmptyString => EmptyString
  | String a s' =>
      if Ascii.eqb a c then r +:+ replaceAll c r s'
      else String a (replaceAll c r s')
  end.

(** Truthiness of a string: only the empty string is falsy. *)
Definition nonempty (s : string) : bool :=
  match s with EmptyString => false | _ => true end.

(** Decimal numeral of a natural number, as [String(n)] prints an
    integer. *)
Definition of_N (n : N) : string := NilEmpty.string_of_uint (N.to_uint n).

Definition of_Z (z : Z) : string :=
  match z with
  | Zneg p => "-" +:+ of_N (Npos p)
  | _ => of_N (Z.to_N z)
  end.

End JsString.

(** ** JavaScript numbers *)

(** The numbers that are whole, and the three that are not finite. A whole
    number stands for the double of the runtime as long as it is within
    [safeInteger]; a number with a fraction has no counterpart here and is
    run through [Double]. *)
Inductive number : Type :=
| NaN
| PInf
| NInf
| Fin (z : Z).

Module Num.

Definition isFinite (x : number) : bool :=
  match x with Fin _ => true | _ => false end.

(** [x > 0] *)
Definition gt0 (x : number) : bool :=
  match x with
  | Fin z => 0 <? z
  | PInf => true
  | _ => false
  end.

(** [x <= 0] *)
Definition le0 (x : number) : bool :=
  match x with
  | Fin z => z <=? 0
  | NInf => true
  | _ => false
  end.

(** Truthiness of a number: 0 and NaN are falsy. *)
Definition truthy (x : number) : bool :=
  match x with
  | NaN => false
  | Fin z => negb (z =? 0)
  | _ => true
  end.

Definition neg (x : number) : number :=
  match x with
  | NaN => NaN
  | PInf => NInf
  | NInf => PInf
  | Fin z => Fin (- z)
  end.

Definition add (x y : number) : number :=
  match x, y with
  | NaN, _ | _, NaN => NaN
  | PInf, NInf | NInf, PInf => NaN
  | PInf, _ | _, PInf => PInf
  | NInf, _ | _, NInf => NInf
  | Fin a, Fin b => Fin (a + b)
  end.

Definition sub (x y : number) : number := add x (neg y).

Definition inf_of_sign (positive : bool) : number :=
  if positive then PInf else NInf.

Definition mul (x y : number) : number :=
  match x, y with
  | NaN, _ | _, NaN => NaN
  | Fin a, Fin b => Fin (a * b)
  | Fin a, PInf | PInf, Fin a =>
      if a =? 0 then NaN else inf_of_sign (0 <? a)
  | Fin a, NInf | NInf, Fin a =>
      if a =? 0 then NaN else inf_of_sign (a <? 0)
  | PInf, PInf | NInf, NInf => PInf
  | PInf, NInf | NInf, PInf => NInf
  end.

(** [x || 0] *)
Definition or0 (x : number) : number :=
  if truthy x then x else Fin 0.

(** [String(x)] *)
Definition toString (x : number) : string :=
  match x with
  | NaN => "NaN"
  | PInf => "Infinity"
  | NInf => "-Infinity"
  | Fin z => JsString.of_Z z
  end.

End Num.

(** ** JSON values *)

Inductive value : Type :=
| VUndefined
| VNull
| VBool (b : bool)
| VNum (n : number)
| VStr (s : string)
| VArr (items : list value)
| VObj (fields : list (string * value)).

Module Js.

(** Truthiness ([!!v]). *)
Definition truthy (v : value) : bool :=
  match v with
  | VUndefined | VNull => false
  | VBool b => b
  | VNum n => Num.truthy n
  | VStr s => JsString.nonempty s
  | VArr _ | VObj _ => true
  end.

(** [a || b] *)
Definition or (a b : value) : value := if truthy a then a else b.

(** [typeof v === "object"] *)
Definition typeof_object (v : value) : bool :=
  match v with
  | VNull | VArr _ | VObj _ => true
  | _ => false
  end.

(** [typeof v === "boolean"] *)
Definition typeof_boolean (v : value) : bool :=
  match v with VBool _ => true | _ => false end.

(** Property lookup in a key/value list; on duplicate keys the last
    definition wins, as in an object literal. *)
Fixpoint assoc (k : string) (fields : list (string * value)) : option value :=
  match fields with
  | [] => None
  | (k', v) :: rest =>
      match assoc k rest with
      | Some v' => Some v'
      | None => if String.eqb k k' then Some v else None
      end
  end.

(** [v.k] for a JSON value [v] that is neither null nor undefined; a
    missing property reads [undefined]. *)
Definition get (v : value) (k : string) : value :=
  match v with
  | VObj fields => default VUndefined (assoc k fields)
  | _ => VUndefined
  end.

(** [String(v)]. An array prints its elements separated by commas, with
    null and undefined printed as nothing. *)
Fixpoint toString (v : value) : string :=
  match v with
  | VUndefined => "undefined"
  | VNull => "null"
  | VBool true => "true"
  | VBool false => "false"
  | VNum n => Num.toString n
  | VStr s => s
  | VArr items =>
      String.concat ","
        (map (fun x => match x with
                       | VUndefined | VNull => ""
                       | _ => toString x
                       end) items)
  | VObj _ => "[object Object]"
  end.

End Js.

(** ** Time helpers of the trigger route ([routes/pilot.js]) *)

Section TimeHelpers.

(** [Number(s)] on a string is the runtime's numeric-literal reader; the
    embedding takes it as given. *)
Variable StringToNumber : string -> number.

(** [Number(v)] *)
Definition ToNumber (v : value) : number :=
  match v with
  | VUndefined => NaN
  | VNull => Fin 0
  | VBool b => Fin (if b then 1 else 0)
  | VNum n => n
  | VStr s => StringToNumber s
  | VArr _ | VObj _ => StringToNumber (Js.toString v)
  end.

Definition getPatchWindowMs (patchWindow : value) : number :=
  if Js.truthy patchWindow && Js.typeof_object patchWindow then
    let d := Num.or0 (ToNumber (Js.get patchWindow "days")) in
    let h := Num.or0 (ToNumber (Js.get patchWindow "hours")) in
    let m := Num.or0 (ToNumber (Js.get patchWindow "minutes")) in
    Num.add (Num.add (Num.mul d (Fin 86400000)) (Num.mul h (Fin 3600000)))
            (Num.mul m (Fin 60000))
  else
    let legacyHours := ToNumber patchWindow in
    if Num.isFinite legacyHours && Num.gt0 legacyHours then
      Num.mul legacyHours (Fin 3600000)
    else Fin 0.

End TimeHelpers.

(** A component of the duration string: the numeral followed by its
    designator, or nothing when the component is zero. *)
Definition durationPart (n : Z) (designator : string) : list string :=
  if n =? 0 then [] else [JsString.of_Z n +:+ designator].

(** [msToXSDuration] on whole numbers of milliseconds. Within
    [safeInteger] the divisions, floors and remainders of the source are
    exact and this is what it computes; [Double.msToXSDuration] is the same
    function on doubles. *)
Definition msToXSDuration (ms : number) : string :=
  match ms with
  | Fin z =>
      if z =? 0 then "PT0S"
      else
        let neg := z <? 0 in
        let t := Z.abs z in
        let totalSeconds := t / 1000 in
        let days := totalSeconds / 86400 in
        let rem := totalSeconds mod 86400 in
        let hours := rem / 3600 in
        let rem := rem mod 3600 in
        let minutes := rem / 60 in
        let seconds := rem mod 60 in
        let out := String.concat "" (durationPart days "D") in
        let timeParts :=
          durationPart hours "H" ++ durationPart minutes "M"
            ++ durationPart seconds "S" in
        let out :=
          match timeParts with
          | _ :: _ => out +:+ "T" +:+ String.concat "" timeParts
          | [] => if days =? 0 then "T0S" else out
          end in
        (if neg then "-" else "") +:+ "P" +:+ out
  | _ => "PT0S"
  end.

(** [localUtcOffsetMs], from the minutes that [getTimezoneOffset] reports. *)
Definition localUtcOffsetMs (offsetMin : Z) : Z := - offsetMin * 60000.

(** ** Helpers of [utils/http.js] and [utils/query.js] *)

Definition dquote : string := String "034"%char EmptyString.
Definition squote : string := String "039"%char EmptyString.

(** [toLowerSafe]: [String(x || "").toLowerCase()] *)
Definition toLowerSafe (x : value) : string :=
  JsString.toLowerCase (Js.toString (Js.or x (VStr ""))).

(** [xmlEscape] of the trigger route: the five reserved markup characters,
    replaced in the order of the source. *)
Definition xmlEscape (str : value) : string :=
  match str with
  | VUndefined | VNull => ""
  | _ =>
      JsString.replaceAll "039"%char "&apos;"
        (JsString.replaceAll "034"%char "&quot;"
           (JsString.replaceAll ">"%char "&gt;"
              (JsString.replaceAll "<"%char "&lt;"
                 (JsString.replaceAll "&"%char "&amp;" (Js.toString str)))))
  end.

(** [collectStrings] of [utils/query.js]: the scalar leaves of a response, in
    traversal order; the wrapper keys Answer, TupleResult and result are
    visited before the other keys. *)
Definition isWrapperKey (k : string) : bool :=
  String.eqb k "Answer" || String.eqb k "TupleResult" || String.eqb k "result".

Fixpoint collectStrings (node : value) : list string :=
  match node with
  | VUndefined | VNull => []
  | VStr _ | VNum _ | VBool _ => [Js.toString node]
  | VArr items => flat_map collectStrings items
  | VObj fields =>
      let visit (sel : string -> bool) :=
        flat_map (fun kv => if sel (fst kv) then collectStrings (snd kv) else [])
                 fields in
      visit (String.eqb "Answer") ++ visit (String.eqb "TupleResult")
        ++ visit (String.eqb "result")
        ++ visit (fun k => negb (isWrapperKey k))
  end.

(** [Array.isArray(data?.result) ? data.result : []] *)
Definition resultRows (data : value) : list value :=
  match Js.get data "result" with
  | VArr rows => rows
  | _ => []
  end.

(** ** Tag extraction of the watcher *)

(** First occurrence of [pat] in [s], letters compared without case: the text
    before the occurrence and the text after it. *)
Fixpoint splitAtCI (pat s : string) : option (string * string) :=
  if JsString.startsWith (JsString.toLowerCase pat) (JsString.toLowerCase s)
  then Some (EmptyString, String.substring (String.length pat) (String.length s) s)
  else
    match s with
    | EmptyString => None
    | String c s' =>
        match splitAtCI pat s' with
        | Some (before, after) => Some (String c before, after)
        | None => None
        end
    end.

(** [pickTag]: the regular expression [<tag>([\s\S]*?)</tag>] with flag [i];
    the leftmost opening tag that has a closing tag after it, the capture
    ending at the first such closing tag, trimmed. The source builds the
    expression from the tag as it is given, so this is [pickTag] for the
    names the expression takes literally ([plainName]), which the names the
    watcher passes are. *)
Definition pickTag (text tag : string) : option string :=
  match splitAtCI ("<" +:+ tag +:+ ">") text with
  | None => None
  | Some (_, rest) =>
      match splitAtCI ("</" +:+ tag +:+ ">") rest with
      | None => None
      | Some (inner, _) => Some (JsString.trim inner)
      end
  end.

Definition pickStatusTop (xml : string) : option string := pickTag xml "Status".

(** ** The stores and the collaborators *)

(** A row of [dbo.ActionHistory]. [Metadata] and [PostMailSent] are nullable
    columns; [CreatedAt] counts 100 ns units from the start of the
    [DATETIME2] range. *)
Record HistoryRow : Type := mkHistoryRow {
  ActionID : Z;
  Metadata : option string;
  PostMailSent : option bool;
  CreatedAt : Z
}.

(** A row of [dbo.AssetOwnership]. *)
Record OwnershipRow : Type := mkOwnershipRow {
  BigFixID : string;
  AssetName : string;
  AssetType : string;
  CreatedByRole : string
}.

(** What a run does to its collaborators, in order. A query is logged by its
    relevance expression and a submission by its document; the URL around
    them ([joinUrl], [encodeURIComponent]) and the content of the mails are
    not part of the trace. *)
Inductive event : Type :=
| EvChangeTicket (number : string)          (* validateChangeNumber *)
| EvQuery (relevance : string)              (* GET /api/query *)
| EvSubmit (document : string)              (* POST /api/actions *)
| EvOwnershipSelect (name : string)         (* SELECT on dbo.AssetOwnership *)
| EvOwnershipDelete (name : string)         (* DELETE on dbo.AssetOwnership *)
| EvHistoryInsert (id : number)             (* INSERT INTO dbo.ActionHistory *)
| EvPreMail (actionId : option string)      (* sendTriggerMail *)
| EvStatus (id : string)                    (* GET /api/action/id/status *)
| EvResults (id : string)                   (* fetchActionResults *)
| EvPostMail (id : string) (delivered : bool)   (* sendPostPatchMail *)
| EvMarkMemory (id : string)                (* postMailSent = true *)
| EvHistoryMark (id : number) (done : bool) (* UPDATE dbo.ActionHistory *)
| EvHistoryLoad (done : bool)               (* SELECT on dbo.ActionHistory *)
| EvHistoryCleanup (retentionDays : number) (done : bool). (* DELETE *)

(** A record of [actionStore.actions]: property name to value. *)
Abbreviation entry := (gmap string value).

(** The process state: [actionStore], the two tables, and the trace. *)
Record Machine : Type := mkMachine {
  actions : gmap string entry;
  lastActionId : option string;
  ActionHistory : list HistoryRow;
  AssetOwnership : list OwnershipRow;
  trace : list event
}.

Definition emptyMachine : Machine := mkMachine ∅ None [] [] [].

Definition setActions (f : gmap string entry -> gmap string entry) (m : Machine) : Machine :=
  mkMachine (f (actions m)) (lastActionId m) (ActionHistory m) (AssetOwnership m) (trace m).

Definition setLastActionId (id : option string) (m : Machine) : Machine :=
  mkMachine (actions m) id (ActionHistory m) (AssetOwnership m) (trace m).

Definition setActionHistory (f : list HistoryRow -> list HistoryRow) (m : Machine) : Machine :=
  mkMachine (actions m) (lastActionId m) (f (ActionHistory m)) (AssetOwnership m) (trace m).

Definition setAssetOwnership (f : list OwnershipRow -> list OwnershipRow) (m : Machine) : Machine :=
  mkMachine (actions m) (lastActionId m) (ActionHistory m) (f (AssetOwnership m)) (trace m).

Definition emit (e : event) (m : Machine) : Machine :=
  mkMachine (actions m) (lastActionId m) (ActionHistory m) (AssetOwnership m) (trace m ++ [e]).

(** The answer of an HTTP call made with [validateStatus: () => true]:
    either the transport throws, or a status and a body come back. *)
Inductive http (A : Type) : Type :=
| HttpThrow (message : string)
| HttpResp (status : Z) (data : A).
Arguments HttpThrow {A} message.
Arguments HttpResp {A} status data.

Definition is2xx (status : Z) : bool := (200 <=? status) && (status <? 300).

(** The verdict of [validateChangeNumber], the change-ticket collaborator:
    it throws, or it answers with [ok] and, when not ok, a code and a
    message. *)
Inductive chgOutcome : Type :=
| ChgThrow (message : string)
| ChgVerdict (ok : bool) (code message : value).

(** A fault of a SQL call: [None] when the call succeeds, the error message
    when it throws. *)
Abbreviation fault := (option string).

(** [sql.Int]: the parameter is rejected unless it is an integer of 32 bits. *)
Definition sqlInt (n : number) : option Z :=
  match n with
  | Fin z => if (-2147483648 <=? z) && (z <=? 2147483647) then Some z else None
  | _ => None
  end.

(** The value a BIT column reads as. *)
Definition bitValue (b : option bool) : value :=
  match b with
  | Some x => VBool x
  | None => VNull
  end.

(** Computations that may throw, over the process state. *)
Inductive outcome (A : Type) : Type :=
| Return (a : A)
| Throw (message : string).
Arguments Return {A} a.
Arguments Throw {A} message.

Definition M (A : Type) : Type := Machine -> outcome A * Machine.

Definition ret {A} (a : A) : M A := fun m => (Return a, m).
Definition throw {A} (message : string) : M A := fun m => (Throw message, m).
Definition bind {A B} (c : M A) (k : A -> M B) : M B :=
  fun m =>
    match c m with
    | (Return a, m') => k a m'
    | (Throw e, m') => (Throw e, m')
    end.
Definition tryCatch {A} (c : M A) (handler : string -> M A) : M A :=
  fun m =>
    match c m with
    | (Return a, m') => (Return a, m')
    | (Throw e, m') => handler e m'
    end.
Definition modify (f : Machine -> Machine) : M unit := fun m => (Return tt, f m).
Definition gets {A} (f : Machine -> A) : M A := fun m => (Return (f m), m).
Definition log (e : event) : M unit := modify (emit e).

(** A call that throws when a fault is injected. *)
Definition guard (f : fault) : M unit :=
  match f with
  | Some message => throw message
  | None => ret tt
  end.

(** An HTTP call: log the request, then answer from the oracle. *)
Definition call {A} (e : event) (answer : http A) : M (Z * A) :=
  bind (log e) (fun _ =>
    match answer with
    | HttpThrow message => throw message
    | HttpResp status data => ret (status, data)
    end).

Declare Scope orch_scope.
Delimit Scope orch_scope with orch.
Notation "'do' x <- c ; k" := (bind c (fun x => k))
  (at level 10, x name, c at level 100, k at level 200) : orch_scope.
Notation "'do' ' p <- c ; k" := (bind c (fun x => match x with p => k end))
  (at level 10, p pattern, c at level 100, k at level 200) : orch_scope.
Notation "c ;; k" := (bind c (fun _ => k))
  (at level 100, k at level 200, right associativity) : orch_scope.

(** ** The target expression and the action document *)

Definition siteTokenForAutomatic (gSite : string) : string :=
  if String.eqb gSite "ActionSite"
  then "site " +:+ dquote +:+ "actionsite" +:+ dquote
  else "site " +:+ dquote +:+ "CustomSite_" +:+ gSite +:+ dquote.

Definition customRelevance (gName gId gSite gType : string) : string :=
  let type := toLowerSafe (VStr gType) in
  if JsString.includes "automatic" type then
    "exists true whose ( if true then ( member of group " +:+ gId +:+ " of "
      +:+ siteTokenForAutomatic gSite +:+ " ) else false)"
  else if JsString.includes "manual" type then
    "exists true whose ( if true then ( member of manual group " +:+ dquote
      +:+ gName +:+ dquote +:+ " of client ) else false)"
  else
    "exists true whose ( if true then ( member of server based group " +:+ dquote
      +:+ gName +:+ dquote +:+ " of client ) else false)".

Definition xmlProlog : string :=
  "<?xml version=" +:+ dquote +:+ "1.0" +:+ dquote +:+ " encoding=" +:+ dquote
    +:+ "UTF-8" +:+ dquote +:+ "?><BES xmlns:xsi=" +:+ dquote
    +:+ "http://www.w3.org/2001/XMLSchema-instance" +:+ dquote
    +:+ " xsi:noNamespaceSchemaLocation=" +:+ dquote +:+ "BES.xsd" +:+ dquote
    +:+ ">".

Definition actionXml (siteName fixletId relevance : string) (xmlOffset : value)
    (actionTitle : string) : string :=
  xmlProlog +:+ "<SourcedFixletAction><SourceFixlet><Sitename>"
    +:+ xmlEscape (VStr siteName) +:+ "</Sitename><FixletID>"
    +:+ xmlEscape (VStr fixletId)
    +:+ "</FixletID><Action>Action1</Action></SourceFixlet><Target><CustomRelevance>"
    +:+ xmlEscape (VStr relevance)
    +:+ "</CustomRelevance></Target><Settings><HasEndTime>true</HasEndTime><EndDateTimeLocalOffset>"
    +:+ xmlEscape xmlOffset
    +:+ "</EndDateTimeLocalOffset><UseUTCTime>true</UseUTCTime></Settings><Title>"
    +:+ xmlEscape (VStr actionTitle) +:+ "</Title></SourcedFixletAction></BES>".

(** [name.replace(/"/g, '\\"')], the quoting of a name inside a relevance
    query. *)
Definition quoteName (name : string) : string :=
  JsString.replaceAll "034"%char ("\" +:+ dquote) name.

Definition baselineQuery (baselineName : string) : string :=
  "(name of site of it, id of it) of bes baseline whose (name of it is "
    +:+ dquote +:+ quoteName baselineName +:+ dquote +:+ ")".

Definition groupQuery (groupName : string) : string :=
  "(name of it, id of it, name of site of it, (if automatic flag of it then "
    +:+ dquote +:+ "Automatic" +:+ dquote +:+ " else if manual flag of it then "
    +:+ dquote +:+ "manual" +:+ dquote +:+ " else " +:+ dquote +:+ "server based"
    +:+ dquote +:+ ")) of bes computer group whose (name of it is "
    +:+ dquote +:+ quoteName groupName +:+ dquote +:+ ")".

Definition membersQuery (gId : string) : string :=
  "names of members of bes computer group whose (id of it = " +:+ gId +:+ ")".

Definition ghostMessage (groupName : string) : string :=
  "Group " +:+ squote +:+ groupName +:+ squote
    +:+ " has been deleted from the BigFix Console. It was removed from your list. Please create it again.".

Definition notFoundMessage (groupName : string) : string :=
  "Group " +:+ squote +:+ groupName +:+ squote +:+ " does not exist in BigFix.".

Definition durationMessage : string :=
  "Patch Window duration must be greater than zero.".

(** The collaborators of one trigger request. *)
Record TriggerWorld : Type := mkTriggerWorld {
  changeVerdict : chgOutcome;
  baselineAnswer : http value;
  groupAnswer : http value;
  membersAnswer : http value;
  submitAnswer : http string;
  timezoneOffset : Z;
  isoNow : string;
  isoLater : string;
  sqlNow : Z;
  poolFault : fault;
  selectFault : fault;
  deleteFault : fault;
  insertFault : fault;
  preMailFault : fault;
  smtp : value
}.

(** The arguments [handleStageTrigger] hands to [triggerBaselineAction]. *)
Record TriggerArgs : Type := mkTriggerArgs {
  argBaselineName : value;
  argGroupName : value;
  argAutoMail : value;
  argEnvironment : string;
  argEndOffset : value;
  argTriggeredBy : value
}.

(** The reply of a route: HTTP status and JSON body. *)
Record Response : Type := mkResponse {
  status : Z;
  body : value
}.

(** ** The trigger route *)

Section Orchestrator.

Local Open Scope orch_scope.

(** Runtime and library functions the source calls: the numeric-literal
    reader behind [Number], [JSON.stringify], the identifier extraction of
    [utils/query.js], and the equality of the SQL collation. *)
Variable StringToNumber : string -> number.
Variable JSONstringify : value -> string.
Variable extractActionIdFromXml : string -> option string.
Variable sqlEq : string -> string -> bool.

(** A method call [x.replace(...)] on a value that is not a string throws. *)
Definition receiver (x : value) (name : string) : M string :=
  match x with
  | VStr s => ret s
  | _ => throw (name +:+ ".replace is not a function")
  end.

(** The rows [WHERE AssetName = @Name AND AssetType = 'Group'] selects. *)
Definition ownsGroup (name : string) (r : OwnershipRow) : bool :=
  sqlEq (AssetName r) name && sqlEq (AssetType r) "Group".

(** The self-healing branch: the upstream lookup returned no row. *)
Definition selfHeal (w : TriggerWorld) (groupName : string) : M value :=
  guard (poolFault w) ;;
  log (EvOwnershipSelect groupName) ;;
  guard (selectFault w) ;;
  do owned <- gets (fun m => List.filter (ownsGroup groupName) (AssetOwnership m)) ;
  match owned with
  | _ :: _ =>
      log (EvOwnershipDelete groupName) ;;
      guard (deleteFault w) ;;
      modify (setAssetOwnership
                (List.filter (fun r => negb (ownsGroup groupName r)))) ;;
      throw (ghostMessage groupName)
  | [] => throw (notFoundMessage groupName)
  end.

(** The object literal [metadata]. *)
Definition metadataFields (w : TriggerWorld) (a : TriggerArgs)
    (actionId stageName xml siteName fixletId gName gId gSite gType : string)
    (xmlOffset : value) (smtpReady : bool) : list (string * value) :=
  [ ("id", VStr actionId);
    ("createdAt", VStr (isoNow w));
    ("stage", VStr stageName);
    ("xml", VStr xml);
    ("baselineName", argBaselineName a);
    ("baselineSite", VStr siteName);
    ("baselineFixletId", VStr fixletId);
    ("groupName", VStr gName);
    ("groupId", VStr gId);
    ("groupSite", VStr gSite);
    ("groupType", VStr gType);
    ("endOffset", xmlOffset);
    ("preMail", VBool (Js.truthy (argAutoMail a)));
    ("smtpEnabled", VBool smtpReady);
    ("postMailSent", VBool false);
    ("triggeredBy", Js.or (argTriggeredBy a) (VStr "Unknown")) ].

(** The object an object literal denotes: later keys overwrite. *)
Definition objectOf (fields : list (string * value)) : entry :=
  foldl (fun o kv => <[fst kv := snd kv]> o) ∅ fields.

(** The durable insert of a new record. *)
Definition historyInsert (w : TriggerWorld) (actionId : string)
    (metadata : list (string * value)) : M unit :=
  guard (poolFault w) ;;
  log (EvHistoryInsert (StringToNumber actionId)) ;;
  match sqlInt (StringToNumber actionId) with
  | None => throw "Validation failed for parameter ActionID."
  | Some k =>
      guard (insertFault w) ;;
      do rows <- gets ActionHistory ;
      if existsb (fun r => ActionID r =? k) rows
      then throw "Violation of PRIMARY KEY constraint."
      else modify (setActionHistory (fun rs =>
             rs ++ [mkHistoryRow k (Some (JSONstringify (VObj metadata)))
                                 (Some false) (sqlNow w)]))
  end.

Definition nth_str (i : nat) (parts : list string) : string :=
  nth i parts EmptyString.

Definition triggerBaselineAction (w : TriggerWorld) (a : TriggerArgs) : M value :=
  (* 1) Baseline lookup *)
  do baselineName <- receiver (argBaselineName a) "baselineName" ;
  do '(bStatus, bData) <- call (EvQuery (baselineQuery baselineName)) (baselineAnswer w) ;
  if negb (is2xx bStatus)
  then throw ("Baseline lookup failed: HTTP " +:+ JsString.of_Z bStatus)
  else
  match resultRows bData with
  | [] => throw ("Baseline not found: " +:+ baselineName)
  | bRow :: _ =>
  let partsB := collectStrings bRow in
  if (length partsB <? 2)%nat then throw "Unexpected baseline query shape"
  else
  let siteName := nth_str 0 partsB in
  let fixletId := nth_str 1 partsB in
  (* 2) Group lookup, with self-healing *)
  do groupName <- receiver (argGroupName a) "groupName" ;
  do '(_, gData) <- call (EvQuery (groupQuery groupName)) (groupAnswer w) ;
  match resultRows gData with
  | [] => selfHeal w groupName
  | gRow :: _ =>
  let partsG := collectStrings gRow in
  if (length partsG <? 4)%nat then throw "Unexpected group query shape"
  else
  let gName := nth_str 0 partsG in
  let gId := nth_str 1 partsG in
  let gSite := nth_str 2 partsG in
  let gType := nth_str 3 partsG in
  (* 3) Member list for the attachment; failures are swallowed *)
  (if Js.truthy (argAutoMail a)
   then tryCatch
          (do '(mStatus, _) <- call (EvQuery (membersQuery gId)) (membersAnswer w) ;
           if is2xx mStatus then ret tt
           else throw "Request failed")
          (fun _ => ret tt)
   else ret tt) ;;
  (* 4) Relevance, 5) XML body *)
  let relevance := customRelevance gName gId gSite gType in
  let stageName := Js.toString (Js.or (VStr (argEnvironment a)) (VStr "Pilot")) in
  let actionTitle := "BPS_" +:+ baselineName +:+ "_" +:+ stageName in
  let xmlOffset := Js.or (argEndOffset a) (VStr "P2D") in
  let xml := actionXml siteName fixletId relevance xmlOffset actionTitle in
  (* 6) Post to BigFix *)
  do '(pStatus, pData) <- call (EvSubmit xml) (submitAnswer w) ;
  if negb (is2xx pStatus)
  then throw ("BigFix POST failed: HTTP " +:+ JsString.of_Z pStatus +:+ " "
                +:+ String.substring 0 200 pData)
  else
  let actionId := extractActionIdFromXml pData in
  let smtpReady :=
    Js.truthy (smtp w) && Js.truthy (Js.get (smtp w) "SMTP_HOST")
      && Js.truthy (Js.get (smtp w) "SMTP_FROM") in
  (* Save to both cache and DB *)
  match actionId with
  | Some id =>
      let metadata :=
        metadataFields w a id stageName xml siteName fixletId
                       gName gId gSite gType xmlOffset smtpReady in
      modify (setLastActionId (Some id)) ;;
      modify (setActions (fun acts => <[id := objectOf metadata]> acts)) ;;
      tryCatch (historyInsert w id metadata) (fun _ => ret tt)
  | None => ret tt
  end ;;
  (* 7) Email (pre-patch) *)
  (if Js.truthy (argAutoMail a) && smtpReady
   then tryCatch (log (EvPreMail actionId) ;; guard (preMailFault w))
                 (fun _ => ret tt)
   else ret tt) ;;
  ret (VObj [ ("actionId", match actionId with Some id => VStr id | None => VNull end);
              ("siteName", VStr siteName);
              ("fixletId", VStr fixletId);
              ("group", VStr gName);
              ("title", VStr actionTitle);
              ("stage", VStr stageName);
              ("endOffset", xmlOffset);
              ("createdAt", VStr (isoLater w)) ])
  end
  end.

Definition reply (status : Z) (fields : list (string * value)) : Response :=
  mkResponse status (VObj fields).

(** The change-ticket gate; [Some r] when the gate answers the request. *)
Definition changeGate (w : TriggerWorld) (isForced : bool) (b : value)
    : M (option Response) :=
  let chgNumber := Js.get b "chgNumber" in
  let requireChg :=
    match Js.get b "requireChg" with
    | VUndefined => VBool true
    | v => v
    end in
  if Js.truthy requireChg && negb isForced then
    if negb (Js.truthy chgNumber)
       || negb (JsString.startsWith "chg"
                  (JsString.toLowerCase (Js.toString chgNumber)))
    then ret (Some (reply 400
           [("ok", VBool false);
            ("error", VStr "Valid chgNumber required when requireChg=true and not forcing")]))
    else
      log (EvChangeTicket (Js.toString chgNumber)) ;;
      match changeVerdict w with
      | ChgThrow message => throw message
      | ChgVerdict true _ _ => ret None
      | ChgVerdict false code message =>
          ret (Some (reply 400
            [("ok", VBool false); ("chgOk", VBool false);
             ("code", Js.or code (VStr "CHG_INVALID"));
             ("message", Js.or message (VStr "CHG validation failed"))]))
      end
  else ret None.

(** The completion offset the handler settles on; [None] is the duration
    validation error. *)
Definition chooseOffset (w : TriggerWorld) (patchWindow endOffset : value)
    : option value :=
  let timeInput := Js.or patchWindow endOffset in
  let pwMs := getPatchWindowMs StringToNumber timeInput in
  if Num.gt0 pwMs then
    let tzMs := localUtcOffsetMs (timezoneOffset w) in
    let deltaMs := Num.sub pwMs (Fin tzMs) in
    Some (VStr (msToXSDuration deltaMs))
  else if negb (Js.truthy endOffset) then None
  else Some endOffset.

Definition outFields (out : value) : list (string * value) :=
  match out with
  | VObj fields => fields
  | _ => []
  end.

(** [handleStageTrigger] from its [try] on, with the [catch] that answers
    500: what the route replies once every call it awaits has settled, with
    an answer or with an error. The log line before the [try], which prints
    [triggeredBy], is not part of it. *)
Definition handleStageTrigger (w : TriggerWorld) (isForced : bool)
    (environment : string) (reqBody : value) : M Response :=
  let b := Js.or reqBody (VObj []) in
  tryCatch
    (let baselineName := Js.get b "baselineName" in
     let groupName := Js.get b "groupName" in
     if negb (Js.truthy baselineName) || negb (Js.truthy groupName)
     then ret (reply 400
            [("ok", VBool false);
             ("error", VStr "baselineName and groupName are required")])
     else
       do gate <- changeGate w isForced b ;
       match gate with
       | Some r => ret r
       | None =>
           match chooseOffset w (Js.get b "patchWindow") (Js.get b "endOffset") with
           | None =>
               ret (reply 400 [("ok", VBool false); ("error", VStr durationMessage)])
           | Some chosenOffset =>
               do out <- triggerBaselineAction w
                           (mkTriggerArgs baselineName groupName
                              (Js.get b "autoMail") environment chosenOffset
                              (Js.get b "triggeredBy")) ;
               ret (reply 200
                      ([("ok", VBool true); ("chgOk", VBool true);
                        ("forced", VBool isForced)] ++ outFields out))
           end
       end)
    (fun message =>
       ret (reply 500
              [("ok", VBool false);
               ("error", VStr (if JsString.nonempty message then message
                               else "Error"))])).

End Orchestrator.

(** ** The post-patch watcher *)

(** The switches of [CONFIG] the watcher reads. *)
Record Config : Type := mkConfig {
  postPatchMail : value;
  postpatchRetentionDays : value
}.

(** The collaborators of one tick, per action identifier. *)
Record TickWorld : Type := mkTickWorld {
  statusAnswer : string -> http string;
  postMailFault : string -> fault;
  markPoolFault : string -> fault;
  markFault : string -> fault
}.

(** The SQL server as one load or one cleanup run meets it. *)
Record SqlWorld : Type := mkSqlWorld {
  sqlPoolFault : fault;
  sqlQueryFault : fault;
  sqlClock : Z
}.

(** [entry.k]; a missing property reads [undefined]. *)
Definition prop (e : entry) (k : string) : value := default VUndefined (e !! k).

(** The single-send guard. *)
Definition shouldSend (cfg : Config) (e : option entry) : bool :=
  if negb (Js.truthy (postPatchMail cfg)) then false
  else
    match e with
    | None => false
    | Some entry =>
        if Js.truthy (prop entry "postMailSent") then false
        else if Js.typeof_boolean (prop entry "preMail")
                && negb (Js.truthy (prop entry "preMail")) then false
        else if Js.typeof_boolean (prop entry "smtpEnabled")
                && negb (Js.truthy (prop entry "smtpEnabled")) then false
        else true
    end.

(** The rows [DELETE ... WHERE PostMailSent = 1 AND CreatedAt < cutoff]
    removes. *)
Definition expiredRow (cutoff : Z) (r : HistoryRow) : bool :=
  match PostMailSent r with
  | Some true => CreatedAt r <? cutoff
  | _ => false
  end.

(** The rows [WHERE PostMailSent = 0] selects. *)
Definition pendingRow (r : HistoryRow) : bool :=
  match PostMailSent r with
  | Some false => true
  | _ => false
  end.

Definition dayUnits : Z := 864000000000.

Section Watcher.

(** [JSON.parse] answers [None] when it throws; [ownKeys] is the enumeration
    order of [Object.keys] over the store. *)
Variable StringToNumber : string -> number.
Variable JSONparse : string -> option value.
Variable ownKeys : gmap string entry -> list string.

(** [UPDATE dbo.ActionHistory SET PostMailSent = 1 WHERE ActionID = @ActionID] *)
Definition markRow (k : Z) (r : HistoryRow) : HistoryRow :=
  if ActionID r =? k
  then mkHistoryRow (ActionID r) (Metadata r) (Some true) (CreatedAt r)
  else r.

Definition markSent (w : TickWorld) (id : string) (m : Machine) : Machine :=
  let m1 :=
    match actions m !! id with
    | Some e =>
        emit (EvMarkMemory id)
             (setActions (fun acts => <[id := <["postMailSent" := VBool true]> e]> acts) m)
    | None => m
    end in
  match markPoolFault w id, sqlInt (StringToNumber id), markFault w id with
  | None, Some k, None =>
      emit (EvHistoryMark (StringToNumber id) true)
           (setActionHistory (map (markRow k)) m1)
  | _, _, _ => emit (EvHistoryMark (StringToNumber id) false) m1
  end.

(** [{...metadata}]: the own enumerable properties of a parsed value. *)
Definition indexed (items : list value) : entry :=
  objectOf (imap (fun i v => (JsString.of_N (N.of_nat i), v)) items).

Definition spread (metadata : value) : entry :=
  match metadata with
  | VObj fields => objectOf fields
  | VArr items => indexed items
  | VStr s =>
      indexed (map (fun c => VStr (String c EmptyString)) (list_ascii_of_string s))
  | _ => ∅
  end.

(** One row of the recovery load. *)
Definition loadRow (m : Machine) (row : HistoryRow) : Machine :=
  match JSONparse (default "null" (Metadata row)) with
  | Some metadata =>
      setActions (fun acts =>
        <[JsString.of_Z (ActionID row) :=
            <["postMailSent" := bitValue (PostMailSent row)]> (spread metadata)]> acts) m
  | None => m
  end.

Definition loadCacheFromDb (w : SqlWorld) (m : Machine) : Machine :=
  match sqlPoolFault w, sqlQueryFault w with
  | None, None =>
      foldl loadRow (emit (EvHistoryLoad true) m)
            (List.filter pendingRow (ActionHistory m))
  | _, _ => emit (EvHistoryLoad false) m
  end.

Definition cleanupOldActions (cfg : Config) (w : SqlWorld) (m : Machine) : Machine :=
  let retentionDays :=
    ToNumber StringToNumber (Js.or (postpatchRetentionDays cfg) (VNum (Fin 30))) in
  if Num.le0 retentionDays then m
  else
    match sqlPoolFault w, sqlInt retentionDays, sqlQueryFault w with
    | None, Some days, None =>
        let cutoff := sqlClock w - days * dayUnits in
        if cutoff <? 0 then emit (EvHistoryCleanup retentionDays false) m
        else
          emit (EvHistoryCleanup retentionDays true)
               (setActionHistory (List.filter (fun r => negb (expiredRow cutoff r))) m)
    | _, _, _ => emit (EvHistoryCleanup retentionDays false) m
    end.

(** [(pickStatusTop(text) || "").toLowerCase() === "expired"] on an
    answer that is [ok] and not empty. *)
Definition terminal (answer : http string) : bool :=
  match answer with
  | HttpThrow _ => false
  | HttpResp st text =>
      is2xx st && JsString.nonempty text
        && String.eqb (JsString.toLowerCase (default "" (pickStatusTop text)))
                      "expired"
  end.

Definition delivered (w : TickWorld) (id : string) : bool :=
  match postMailFault w id with
  | None => true
  | Some _ => false
  end.

(** The body of the watcher loop for one identifier. The flag is [false]
    when the status call throws: the handler around the whole loop catches
    the error, so the remaining identifiers are not visited in this tick. *)
Definition tickBody (cfg : Config) (w : TickWorld) (id : string)
    (m : Machine) : Machine * bool :=
  if negb (shouldSend cfg (actions m !! id)) then (m, true)
  else
    let m1 := emit (EvStatus id) m in
    match statusAnswer w id with
    | HttpThrow _ => (m1, false)
    | HttpResp st text =>
        if negb (is2xx st) || negb (JsString.nonempty text) then (m1, true)
        else
          let overall := JsString.toLowerCase (default "" (pickStatusTop text)) in
          if negb (String.eqb overall "expired") then (m1, true)
          else
            (* the action is done: results, mail, then the mark *)
            let m2 := emit (EvResults id) m1 in
            let m3 := emit (EvPostMail id (delivered w id)) m2 in
            (markSent w id m3, true)
    end.

Fixpoint tickLoop (cfg : Config) (w : TickWorld) (ids : list string)
    (m : Machine) : Machine :=
  match ids with
  | [] => m
  | id :: rest =>
      match tickBody cfg w id m with
      | (m', true) => tickLoop cfg w rest m'
      | (m', false) => m'
      end
  end.

Definition tick (cfg : Config) (w : TickWorld) (m : Machine) : Machine :=
  tickLoop cfg w (ownKeys (actions m)) m.

End Watcher.

(** ** The process: recovery load, then the scheduled work *)

(** What runs after start-up: watcher ticks, cleanup runs and trigger
    requests, each a single step. [move] and [perform] have the steps of a
    tick between its [await]s, the second trigger route and the restart of
    the process. *)
Inductive job : Type :=
| JobTick (cfg : Config) (w : TickWorld)
| JobCleanup (cfg : Config) (w : SqlWorld)
| JobTrigger (w : TriggerWorld) (isForced : bool) (environment : string)
             (reqBody : value).

Section Process.

Variable StringToNumber : string -> number.
Variable JSONstringify : value -> string.
Variable JSONparse : string -> option value.
Variable extractActionIdFromXml : string -> option string.
Variable sqlEq : string -> string -> bool.
Variable ownKeys : gmap string entry -> list string.

Definition runJob (m : Machine) (j : job) : Machine :=
  match j with
  | JobTick cfg w => tick StringToNumber ownKeys cfg w m
  | JobCleanup cfg w => cleanupOldActions StringToNumber cfg w m
  | JobTrigger w isForced environment reqBody =>
      snd (handleStageTrigger StringToNumber JSONstringify
             extractActionIdFromXml sqlEq w isForced environment reqBody m)
  end.

Definition runJobs (js : list job) (m : Machine) : Machine := foldl runJob m js.

(** [startPostPatchWatcher]: the timers are armed in the [finally] of the
    recovery load, and the first cleanup runs at once. *)
Definition startPostPatchWatcher (loadWorld : SqlWorld) (cfg : Config)
    (cleanupWorld : SqlWorld) (js : list job) (m : Machine) : Machine :=
  runJobs js
    (cleanupOldActions StringToNumber cfg cleanupWorld
       (loadCacheFromDb JSONparse loadWorld m)).

End Process.

(** ** Duration strings, read back *)

Definition isDigit (c : ascii) : bool :=
  ((48 <=? JsString.code c) && (JsString.code c <=? 57))%N.

(** The longest prefix of digits, and what follows it. *)
Fixpoint spanDigits (s : string) : string * string :=
  match s with
  | String c r =>
      if isDigit c
      then let (digits, rest) := spanDigits r in (String c digits, rest)
      else (EmptyString, s)
  | EmptyString => (EmptyString, EmptyString)
  end.

(** One optional component: digits followed by the designator. Without that
    shape the component is absent and nothing is consumed. *)
Definition readPart (designator : ascii) (s : string) : Z * string :=
  match spanDigits s with
  | (String _ _ as digits, String c rest) =>
      if Ascii.eqb c designator then
        match NilEmpty.uint_of_string digits with
        | Some u => (Z.of_N (N.of_uint u), rest)
        | None => (0, s)
        end
      else (0, s)
  | _ => (0, s)
  end.

Definition stripMinus (s : string) : bool * string :=
  match s with
  | String "-"%char r => (true, r)
  | _ => (false, s)
  end.

Definition signed (neg : bool) (z : Z) : Z := if neg then - z else z.

(** Modelled from the spec: the decoder of a duration string back into
    milliseconds. The source has an encoder only ([msToXSDuration]); the
    decoder reads the standard duration strings that section 4.2 names: an
    optional minus, P, a days component and a time section introduced by T,
    each component worth its usual number of seconds. As in the standard
    format, the time section is missing when all its components are. *)
Definition decodeDuration (s : string) : option Z :=
  let (neg, s1) := stripMinus s in
  match s1 with
  | String "P"%char r0 =>
      let (days, r1) := readPart "D"%char r0 in
      match r1 with
      | EmptyString => Some (signed neg (days * 86400 * 1000))
      | String "T"%char r2 =>
          let (hours, r3) := readPart "H"%char r2 in
          let (minutes, r4) := readPart "M"%char r3 in
          let (seconds, r5) := readPart "S"%char r4 in
          match r5 with
          | EmptyString =>
              Some (signed neg
                      ((days * 86400 + hours * 3600 + minutes * 60 + seconds) * 1000))
          | _ => None
          end
      | _ => None
      end
  | _ => None
  end.

(** The grammar as the specification words it: an optional minus, P, an
    optional days component, then T followed by up to three components. *)
Definition statedGrammar (s : string) : bool :=
  match snd (stripMinus s) with
  | String "P"%char r0 =>
      match snd (readPart "D"%char r0) with
      | String "T"%char r2 =>
          match snd (readPart "S"%char
                       (snd (readPart "M"%char (snd (readPart "H"%char r2))))) with
          | EmptyString => true
          | _ => false
          end
      | _ => false
      end
  | _ => false
  end.

(** ** Concrete instances for evaluation *)

(** The numeric-literal reader on the strings the samples use: the empty
    string, and an optional minus sign followed by decimal digits. The other
    strings, which the samples do not use, read as NaN here. *)
Definition readDecimal (s : string) : number :=
  match s with
  | EmptyString => Fin 0
  | String "-"%char r =>
      match NilEmpty.uint_of_string r with
      | Some u => match r with EmptyString => NaN | _ => Fin (- Z.of_N (N.of_uint u)) end
      | None => NaN
      end
  | _ =>
      match NilEmpty.uint_of_string s with
      | Some u => Fin (Z.of_N (N.of_uint u))
      | None => NaN
      end
  end.

(** The identifier extraction on the acknowledgments the samples use, of
    the first shape, [<ID>digits</ID>]. *)
Definition readActionId (xmlText : string) : option string :=
  match pickTag xmlText "ID" with
  | Some digits =>
      match NilEmpty.uint_of_string digits with
      | Some _ => if JsString.nonempty digits then Some digits else None
      | None => None
      end
  | None => None
  end.

(** A writer and a reader of JSON text for the fragment the samples use:
    null, booleans, integers, strings, arrays and objects, without white
    space between tokens; the reader knows the two-character escapes. *)
Definition isUndefined (v : value) : bool :=
  match v with VUndefined => true | _ => false end.

Definition hexDigit (n : N) : ascii :=
  ascii_of_N (if (n <? 10)%N then 48 + n else 87 + n)%N.

Definition writeChar (c : ascii) : string :=
  let n := JsString.code c in
  if (n =? 34)%N then "\" +:+ dquote
  else if (n =? 92)%N then "\\"
  else if (n =? 8)%N then "\b"
  else if (n =? 9)%N then "\t"
  else if (n =? 10)%N then "\n"
  else if (n =? 12)%N then "\f"
  else if (n =? 13)%N then "\r"
  else if (n <? 32)%N
       then "\u00" +:+ String (hexDigit (n / 16)) (String (hexDigit (n mod 16)) "")
  else String c "".

Fixpoint writeChars (s : string) : string :=
  match s with
  | EmptyString => EmptyString
  | String c r => writeChar c +:+ writeChars r
  end.

Definition writeString (s : string) : string := dquote +:+ writeChars s +:+ dquote.

Fixpoint writeJson (v : value) : string :=
  match v with
  | VUndefined | VNull => "null"
  | VBool true => "true"
  | VBool false => "false"
  | VNum (Fin z) => JsString.of_Z z
  | VNum _ => "null"
  | VStr s => writeString s
  | VArr items => "[" +:+ String.concat "," (map writeJson items) +:+ "]"
  | VObj fields =>
      "{" +:+ String.concat ","
                (flat_map (fun kv =>
                             if isUndefined (snd kv) then []
                             else [writeString (fst kv) +:+ ":"
                                     +:+ writeJson (snd kv)]) fields)
          +:+ "}"
  end.

(** The characters of a string literal up to its closing quote. *)
Fixpoint readChars (s : string) : option (string * string) :=
  match s with
  | EmptyString => None
  | String c r =>
      if (JsString.code c =? 34)%N then Some (EmptyString, r)
      else if (JsString.code c =? 92)%N then
        match r with
        | String e r' =>
            let unescaped :=
              match e with
              | "b"%char => Some "008"%char
              | "t"%char => Some "009"%char
              | "n"%char => Some "010"%char
              | "f"%char => Some "012"%char
              | "r"%char => Some "013"%char
              | "/"%char => Some "/"%char
              | _ => if (JsString.code e =? 34)%N || (JsString.code e =? 92)%N
                     then Some e else None
              end in
            match unescaped, readChars r' with
            | Some x, Some (body, rest) => Some (String x body, rest)
            | _, _ => None
            end
        | EmptyString => None
        end
      else if (JsString.code c <? 32)%N then None
      else
        match readChars r with
        | Some (body, rest) => Some (String c body, rest)
        | None => None
        end
  end.

Definition readNumber (s : string) : option (value * string) :=
  let (neg, s1) := stripMinus s in
  match spanDigits s1 with
  | (String _ _ as digits, rest) =>
      match NilEmpty.uint_of_string digits with
      | Some u => Some (VNum (Fin (signed neg (Z.of_N (N.of_uint u)))), rest)
      | None => None
      end
  | _ => None
  end.

Fixpoint readValue (fuel : nat) (s : string) : option (value * string) :=
  match fuel with
  | O => None
  | S fuel' =>
      let fix readItems (n : nat) (s : string) : option (list value * string) :=
        match n with
        | O => None
        | S n' =>
            match readValue fuel' s with
            | Some (v, String ","%char r) =>
                match readItems n' r with
                | Some (vs, rest) => Some (v :: vs, rest)
                | None => None
                end
            | Some (v, String "]"%char r) => Some ([v], r)
            | _ => None
            end
        end in
      let fix readFields (n : nat) (s : string)
          : option (list (string * value) * string) :=
        match n with
        | O => None
        | S n' =>
            match s with
            | String q r =>
                if (JsString.code q =? 34)%N then
                  match readChars r with
                  | Some (k, String ":"%char r1) =>
                      match readValue fuel' r1 with
                      | Some (v, String ","%char r2) =>
                          match readFields n' r2 with
                          | Some (kvs, rest) => Some ((k, v) :: kvs, rest)
                          | None => None
                          end
                      | Some (v, String "}"%char r2) => Some ([(k, v)], r2)
                      | _ => None
                      end
                  | _ => None
                  end
                else None
            | EmptyString => None
            end
        end in
      if JsString.startsWith "null" s
      then Some (VNull, String.substring 4 (String.length s) s)
      else if JsString.startsWith "true" s
      then Some (VBool true, String.substring 4 (String.length s) s)
      else if JsString.startsWith "false" s
      then Some (VBool false, String.substring 5 (String.length s) s)
      else
        match s with
        | String "["%char (String "]"%char r) => Some (VArr [], r)
        | String "["%char r =>
            match readItems (String.length s) r with
            | Some (vs, rest) => Some (VArr vs, rest)
            | None => None
            end
        | String "{"%char (String "}"%char r) => Some (VObj [], r)
        | String "{"%char r =>
            match readFields (String.length s) r with
            | Some (kvs, rest) => Some (VObj kvs, rest)
            | None => None
            end
        | String c r =>
            if (JsString.code c =? 34)%N then
              match readChars r with
              | Some (body, rest) => Some (VStr body, rest)
              | None => None
              end
            else readNumber s
        | EmptyString => None
        end
  end.

Definition readJson (s : string) : option value :=
  match readValue (S (String.length s)) s with
  | Some (v, EmptyString) => Some v
  | _ => None
  end.

Definition keysOf (acts : gmap string entry) : list string :=
  map fst (map_to_list acts).

Definition demoWorld : TriggerWorld :=
  {| changeVerdict := ChgVerdict true VUndefined VUndefined;
     baselineAnswer :=
       HttpResp 200 (VObj [("result", VArr [VArr [VStr "Enterprise"; VNum (Fin 1234)]])]);
     groupAnswer :=
       HttpResp 200 (VObj [("result",
         VArr [VArr [VStr "SRV-GRP"; VNum (Fin 42); VStr "ActionSite"; VStr "Automatic"]])]);
     membersAnswer := HttpResp 200 (VObj [("result", VArr [VStr "srv1"])]);
     submitAnswer := HttpResp 200 "<BESAPI><Action><ID>77</ID></Action></BESAPI>";
     timezoneOffset := 0;
     isoNow := "2025-01-01T00:00:00.000Z";
     isoLater := "2025-01-01T00:00:00.012Z";
     sqlNow := 638712000000000000;
     poolFault := None;
     selectFault := None;
     deleteFault := None;
     insertFault := None;
     preMailFault := None;
     smtp := VObj [("SMTP_HOST", VStr "mail"); ("SMTP_FROM", VStr "bps@example.org")] |}.

Definition demoRequest (patchWindow endOffset : value) : value :=
  VObj [("baselineName", VStr "Patch_A"); ("groupName", VStr "SRV-GRP");
        ("requireChg", VBool false); ("autoMail", VBool true);
        ("patchWindow", patchWindow); ("endOffset", endOffset)].

Definition demoRun (w : TriggerWorld) (reqBody : value) : outcome Response * Machine :=
  handleStageTrigger readDecimal writeJson readActionId String.eqb
    w false "Pilot" reqBody emptyMachine.

(** ** Notions the properties are stated with *)

(** The retention window a cleanup run works with. *)
Definition retentionOf (StringToNumber : string -> number) (cfg : Config) : number :=
  ToNumber StringToNumber (Js.or (postpatchRetentionDays cfg) (VNum (Fin 30))).

(** The watcher events that concern one record. *)
Definition concerns (id : string) (e : event) : bool :=
  match e with
  | EvStatus i | EvResults i | EvPostMail i _ | EvMarkMemory i => String.eqb i id
  | _ => false
  end.

(** From [m] to [m'] the trace grew by events that all satisfy [P]. *)
Definition emits (P : event -> Prop) (m m' : Machine) : Prop :=
  exists t, trace m' = trace m ++ t /\ Forall P t.

(** [m'] is [m] with record [id] as it was and no watcher event about it. *)
Definition untouched (id : string) (m m' : Machine) : Prop :=
  actions m' !! id = actions m !! id /\
  emits (fun e => concerns id e = false) m m'.

(** Every run of [c] relates the state before to the state after. *)
Definition stable (R : Machine -> Machine -> Prop) {A : Type} (c : M A) : Prop :=
  forall m, R m (snd (c m)).

(** Every value [c] returns satisfies [Q]. *)
Definition returns {A : Type} (c : M A) (Q : A -> Prop) : Prop :=
  forall m a m', c m = (Return a, m') -> Q a.

(** The unfinalized rows of action [k] are still there, as they were. *)
Definition rowsKept (k : Z) (m m' : Machine) : Prop :=
  forall r, In r (ActionHistory m) -> ActionID r = k ->
            PostMailSent r <> Some true -> In r (ActionHistory m').

(** The store has the same identifiers. *)
Definition sameKeys (m m' : Machine) : Prop :=
  forall id, is_Some (actions m' !! id) <-> is_Some (actions m !! id).

(** A trigger request that is not answered with identifier [id]. *)
Definition issuesOther (extractActionIdFromXml : string -> option string)
    (id : string) (j : job) : Prop :=
  match j with
  | JobTrigger w _ _ _ =>
      match submitAnswer w with
      | HttpResp _ data => extractActionIdFromXml data <> Some id
      | HttpThrow _ => True
      end
  | _ => True
  end.

(** A tick or a cleanup run at which record [e] is muted: the global switch
    is off, or the record was created with preMail false, or with
    smtpEnabled false. *)
Definition mutedAt (e : entry) (j : job) : Prop :=
  match j with
  | JobTick cfg _ =>
      Js.truthy (postPatchMail cfg) = false \/
      prop e "preMail" = VBool false \/
      prop e "smtpEnabled" = VBool false
  | JobCleanup _ _ => True
  | JobTrigger _ _ _ _ => False
  end.

(** Whether the durable mark of [markSent] goes through. *)
Definition durablyMarked (StringToNumber : string -> number) (w : TickWorld)
    (id : string) : bool :=
  match markPoolFault w id, sqlInt (StringToNumber id), markFault w id with
  | None, Some _, None => true
  | _, _, _ => false
  end.

(** What the watcher does for a record whose action has expired, in
    order: status poll, result fetch, notification attempt, mark in memory,
    mark in the durable store. *)
Definition finalization (StringToNumber : string -> number) (w : TickWorld)
    (id : string) : list event :=
  [EvStatus id; EvResults id; EvPostMail id (delivered w id);
   EvMarkMemory id;
   EvHistoryMark (StringToNumber id) (durablyMarked StringToNumber w id)].

(** The shape of what one tick adds to the trace: for each record polled,
    either the poll alone, when the answer is not the terminal status, or the
    whole finalization. *)
Inductive tickTrace (StringToNumber : string -> number) (w : TickWorld)
    : list event -> Prop :=
| tickTrace_nil : tickTrace StringToNumber w []
| tickTrace_poll (id : string) (rest : list event) :
    terminal (statusAnswer w id) = false ->
    tickTrace StringToNumber w rest ->
    tickTrace StringToNumber w (EvStatus id :: rest)
| tickTrace_final (id : string) (rest : list event) :
    terminal (statusAnswer w id) = true ->
    tickTrace StringToNumber w rest ->
    tickTrace StringToNumber w (finalization StringToNumber w id ++ rest).

(** The record is finalized in memory. *)
Definition flagged (id : string) (m : Machine) : Prop :=
  exists e, actions m !! id = Some e /\ prop e "postMailSent" = VBool true.

(** The rows of an action are finalized in the durable store. *)
Definition rowsMarked (n : number) (m : Machine) : Prop :=
  forall k r, sqlInt n = Some k -> In r (ActionHistory m) -> ActionID r = k ->
              PostMailSent r = Some true.

(** [needle] occurs in [hay], letters compared without case. *)
Definition occursCI (needle hay : string) : Prop :=
  exists pre mid post,
    hay = pre +:+ mid +:+ post /\
    JsString.toLowerCase mid = JsString.toLowerCase needle.

(** The three templates of the target expression. *)
Definition automaticTemplate (gId siteToken : string) : string :=
  "exists true whose ( if true then ( member of group " +:+ gId +:+ " of "
    +:+ siteToken +:+ " ) else false)".

Definition manualTemplate (gName : string) : string :=
  "exists true whose ( if true then ( member of manual group " +:+ dquote
    +:+ gName +:+ dquote +:+ " of client ) else false)".

Definition serverBasedTemplate (gName : string) : string :=
  "exists true whose ( if true then ( member of server based group " +:+ dquote
    +:+ gName +:+ dquote +:+ " of client ) else false)".

(** The reply that rejects a scheduling window. *)
Definition durationRejection : Response :=
  reply 400 [("ok", VBool false); ("error", VStr durationMessage)].

(** The event is not a submission of an action document. *)
Definition notSubmit (e : event) : Prop :=
  match e with
  | EvSubmit _ => False
  | _ => True
  end.

(** A component of a duration string as one string: nothing when zero. *)
Definition part (n : Z) (designator : ascii) : string :=
  if n =? 0 then "" else JsString.of_Z n +:+ String designator "".

(** The grammar the encoder follows. The time section, introduced by T,
    is there when one of its components is not zero; and a duration of no
    whole second at all is written T0S. *)
Definition renderDuration (neg : bool) (days hours minutes seconds : Z) : string :=
  (if neg then "-" else "") +:+ "P" +:+ part days "D"%char
    +:+ (if (hours =? 0) && (minutes =? 0) && (seconds =? 0)
         then (if days =? 0 then "T0S" else "")
         else "T" +:+ part hours "H"%char +:+ part minutes "M"%char
                  +:+ part seconds "S"%char).

(** A character that markup escaping leaves alone. *)
Definition plainChar (c : ascii) : bool :=
  let n := JsString.code c in
  negb ((n =? 38) || (n =? 60) || (n =? 62) || (n =? 34) || (n =? 39))%N.


(** A submission carries the given completion offset, and targets the group
    tuple that the first row of the group lookup resolves to. *)
Definition submitsWith (w : TriggerWorld) (xmlOffset : value) (e : event) : Prop :=
  match e with
  | EvSubmit doc =>
      exists gStatus gData gRow gRest siteName fixletId title,
        groupAnswer w = HttpResp gStatus gData /\
        resultRows gData = gRow :: gRest /\
        doc = actionXml siteName fixletId
                (customRelevance (nth_str 0 (collectStrings gRow))
                                 (nth_str 1 (collectStrings gRow))
                                 (nth_str 2 (collectStrings gRow))
                                 (nth_str 3 (collectStrings gRow)))
                xmlOffset title
  | _ => True
  end.

(** What the recovery load makes of a row: the key and the record, or
    nothing when the metadata cannot be parsed. *)
Definition restored (JSONparse : string -> option value) (row : HistoryRow)
    : option (string * entry) :=
  match JSONparse (default "null" (Metadata row)) with
  | Some metadata =>
      Some (JsString.of_Z (ActionID row),
            <["postMailSent" := bitValue (PostMailSent row)]> (spread metadata))
  | None => None
  end.

(** ** Sample data *)

Definition oldPendingRow : HistoryRow := mkHistoryRow 7 (Some "{}") (Some false) 0.
Definition oldSentRow : HistoryRow := mkHistoryRow 8 (Some "{}") (Some true) 0.

Definition cleanupDemo : Machine :=
  cleanupOldActions readDecimal (mkConfig (VBool true) VUndefined)
    (mkSqlWorld None None 638712000000000000)
    (mkMachine ∅ None [oldPendingRow; oldSentRow] [] []).



(** A request whose window is zero and that carries no endOffset. *)
Definition zeroWindowBareRequest : value :=
  demoRequest (VObj [("days", VNum (Fin 0)); ("hours", VNum (Fin 0));
                     ("minutes", VNum (Fin 0))])
              VUndefined.


(** The state after the sample request for a window of two hours. *)
Definition triggeredMachine : Machine :=
  snd (demoRun demoWorld (demoRequest (VObj [("hours", VNum (Fin 2))]) VUndefined)).

Definition switchOn : Config := mkConfig (VBool true) VUndefined.

(** A tick at which every action has expired and the mail server is down. *)
Definition expiredWorld : TickWorld :=
  {| statusAnswer := fun _ =>
       HttpResp 200 "<BESAPI><ActionResults><Status>Expired</Status></ActionResults></BESAPI>";
     postMailFault := fun _ => Some "connect ECONNREFUSED";
     markPoolFault := fun _ => None;
     markFault := fun _ => None |}.

Definition sqlUp : SqlWorld := mkSqlWorld None None 638712000000000000.

(** The state after that tick: record 77 is finalized. *)
Definition finalizedMachine : Machine :=
  tick readDecimal keysOf switchOn expiredWorld triggeredMachine.

Definition finalizedEntry : entry := default ∅ (actions finalizedMachine !! "77").

(** A later request, answered with another identifier. *)
Definition laterWorld : TriggerWorld :=
  {| changeVerdict := changeVerdict demoWorld;
     baselineAnswer := baselineAnswer demoWorld;
     groupAnswer := groupAnswer demoWorld;
     membersAnswer := membersAnswer demoWorld;
     submitAnswer := HttpResp 200 "<BESAPI><Action><ID>78</ID></Action></BESAPI>";
     timezoneOffset := -330;
     isoNow := "2025-01-02T00:00:00.000Z";
     isoLater := "2025-01-02T00:00:00.020Z";
     sqlNow := 638712864000000000;
     poolFault := None;
     selectFault := None;
     deleteFault := None;
     insertFault := None;
     preMailFault := None;
     smtp := smtp demoWorld |}.

Definition laterJobs : list job :=
  [ JobTick switchOn expiredWorld;
    JobCleanup switchOn sqlUp;
    JobTrigger laterWorld false "Production"
               (demoRequest (VNum (Fin 3)) VUndefined);
    JobTick switchOn expiredWorld ].

(** A request that asks for no mail, and the state after it. *)
Definition silentRequest : value :=
  VObj [("baselineName", VStr "Patch_A"); ("groupName", VStr "SRV-GRP");
        ("requireChg", VBool false); ("autoMail", VBool false);
        ("patchWindow", VObj [("hours", VNum (Fin 2))])].

Definition silentMachine : Machine := snd (demoRun demoWorld silentRequest).

Definition silentEntry : entry := default ∅ (actions silentMachine !! "77").

Definition watcherJobs : list job :=
  [ JobTick switchOn expiredWorld; JobCleanup switchOn sqlUp;
    JobTick switchOn expiredWorld ].

(** The upstream inventory no longer has the group; the ownership table
    still does. *)
Definition ghostWorld : TriggerWorld :=
  {| changeVerdict := changeVerdict demoWorld;
     baselineAnswer := baselineAnswer demoWorld;
     groupAnswer := HttpResp 200 (VObj [("result", VArr [])]);
     membersAnswer := membersAnswer demoWorld;
     submitAnswer := submitAnswer demoWorld;
     timezoneOffset := 0;
     isoNow := isoNow demoWorld;
     isoLater := isoLater demoWorld;
     sqlNow := sqlNow demoWorld;
     poolFault := None;
     selectFault := None;
     deleteFault := None;
     insertFault := None;
     preMailFault := None;
     smtp := smtp demoWorld |}.

Definition ownedRow : OwnershipRow := mkOwnershipRow "42" "SRV-GRP" "Group" "Windows".
Definition otherRow : OwnershipRow := mkOwnershipRow "43" "LAB-GRP" "Group" "Linux".

Definition ownedMachine : Machine := mkMachine ∅ None [] [ownedRow; otherRow] [].

Definition demoArgs : TriggerArgs :=
  mkTriggerArgs (VStr "Patch_A") (VStr "SRV-GRP") (VBool true) "Pilot"
                (VStr "PT2H") VUndefined.

Definition ghostRun : outcome value * Machine :=
  triggerBaselineAction readDecimal writeJson readActionId String.eqb
    ghostWorld demoArgs ownedMachine.

(** A durable store with a pending row whose metadata is not JSON. *)
Definition brokenRow : HistoryRow := mkHistoryRow 7 (Some "not json") (Some false) 0.

Definition brokenStore : Machine := mkMachine ∅ None [brokenRow] [] [].

(** The metadata the sample request stored for action 77. *)
Definition storedFields : list (string * value) :=
  match ActionHistory triggeredMachine with
  | row :: _ =>
      match readJson (default "null" (Metadata row)) with
      | Some (VObj fields) => fields
      | _ => []
      end
  | [] => []
  end.

Definition storedRow : HistoryRow :=
  mkHistoryRow 77 (Some (writeJson (VObj storedFields))) (Some false)
               638712000000000000.

(** * The remaining helpers of the route, the watcher and the mailer *)

(** ** [utils/http.js] *)

(** [s.replace(/^c+/, "")]: the leading run of [c] removed. *)
Fixpoint stripLeading (c : ascii) (s : string) : string :=
  match s with
  | String a r => if Ascii.eqb a c then stripLeading c r else s
  | EmptyString => EmptyString
  end.

(** [s.replace(/c+$/, "")]: the trailing run of [c] removed. *)
Fixpoint stripTrailing (c : ascii) (s : string) : string :=
  match s with
  | EmptyString => EmptyString
  | String a r =>
      match stripTrailing c r with
      | EmptyString => if Ascii.eqb a c then EmptyString else String a EmptyString
      | r' => String a r'
      end
  end.

(** [joinUrl], on strings; the source calls [replace] on both arguments. *)
Definition joinUrl (base path : string) : string :=
  stripTrailing "/"%char base +:+ "/" +:+ stripLeading "/"%char path.

(** [escapeHtml]: [String(s || "")], then the three replacements in the
    order of the source. *)
Definition escapeHtml (s : value) : string :=
  JsString.replaceAll ">"%char "&gt;"
    (JsString.replaceAll "<"%char "&lt;"
       (JsString.replaceAll "&"%char "&amp;" (Js.toString (Js.or s (VStr ""))))).

(** [s.split(sep)] for a separator that is one character of a class: the
    pieces between the separators, empty pieces included; the empty string
    splits into one empty piece. *)
Fixpoint splitOn (sep : ascii -> bool) (s : string) : list string :=
  match s with
  | EmptyString => [EmptyString]
  | String c r =>
      if sep c then EmptyString :: splitOn sep r
      else
        match splitOn sep r with
        | piece :: pieces => String c piece :: pieces
        | [] => [String c EmptyString]
        end
  end.

(** The class [[;,]] of [splitEmails]. *)
Definition isListSeparator (c : ascii) : bool :=
  Ascii.eqb c ";"%char || Ascii.eqb c ","%char.

(** [splitEmails]: [String(s || "").split(/[;,]/).map(v => v.trim()).filter(Boolean)] *)
Definition splitEmails (s : value) : list string :=
  List.filter JsString.nonempty
    (map JsString.trim
       (splitOn isListSeparator (Js.toString (Js.or s (VStr ""))))).

(** ** [utils/query.js] *)

Definition parseTupleRows (json : value) : list (list string) :=
  map collectStrings (resultRows json).

(** ** Details read back from the stored action document *)

Module Parsed.

(** The object [parseActionXml] returns; [None] is [null]. *)
Record details : Type := mkDetails {
  sitename : option string;
  fixletId : option string;
  title : option string
}.

End Parsed.

Definition parseActionXml (xml : string) : Parsed.details :=
  Parsed.mkDetails (pickTag xml "Sitename") (pickTag xml "FixletID")
                   (pickTag xml "Title").

(** [parseComputerTimes]: the start and the end time of the status
    document. *)
Definition parseComputerTimes (xml : string) : option string * option string :=
  (pickTag xml "StartTime", pickTag xml "EndTime").

(** The stage words of the title pattern, in the order of the source. *)
Definition stageWords : list string := ["Sandbox"; "Pilot"; "Production"].

(** [s] ends with [w], letters compared without case: the text before the
    ending, and the ending as [s] spells it. *)
Fixpoint splitEndCI (w s : string) : option (string * string) :=
  if String.eqb (JsString.toLowerCase s) (JsString.toLowerCase w)
  then Some (EmptyString, s)
  else
    match s with
    | EmptyString => None
    | String c s' =>
        match splitEndCI w s' with
        | Some (before, ending) => Some (String c before, ending)
        | None => None
        end
    end.

(** The match of [/_(Sandbox|Pilot|Production)$/i] in [s]: the text before
    the match and the captured word. The pattern is anchored at the end, so
    a word matches at one position at most. *)
Fixpoint stageMatchOf (words : list string) (s : string) : option (string * string) :=
  match words with
  | [] => None
  | w :: rest =>
      match splitEndCI ("_" +:+ w) s with
      | Some (before, String _ word) => Some (before, word)
      | _ => stageMatchOf rest s
      end
  end.

Definition stageMatch (s : string) : option (string * string) :=
  stageMatchOf stageWords s.

(** [toUpperCase] on one character, for the letters a stage word can hold:
    a-z go to A-Z, A-Z stay. *)
Definition upper_char (c : ascii) : ascii :=
  let n := JsString.code c in
  if ((97 <=? n) && (n <=? 122))%N then ascii_of_N (n - 32) else c.

(** [inferStageFromTitle]; the title is [null] ([None]) or a string. *)
Definition inferStageFromTitle (title : option string) : string :=
  match title with
  | None | Some EmptyString => "Baseline"
  | Some t =>
      match stageMatch (JsString.trim t) with
      | Some (_, String c rest) =>
          String (upper_char c) (JsString.toLowerCase rest)
      | _ => "Baseline"
      end
  end.

(** [s.replace(/^p/, "")] for a literal [p]. *)
Fixpoint dropPrefix (p s : string) : option string :=
  match p, s with
  | EmptyString, _ => Some s
  | String a p', String b s' => if Ascii.eqb a b then dropPrefix p' s' else None
  | String _ _, EmptyString => None
  end.

Definition inferBaselineFromTitle (title : option string) : string :=
  match title with
  | None | Some EmptyString => "(unknown)"
  | Some t =>
      let t1 := default t (dropPrefix "BPS_" t) in
      match stageMatch t1 with
      | Some (before, _) => before
      | None => t1
      end
  end.

(** The title [triggerBaselineAction] gives an action. *)
Definition actionTitleOf (baselineName stageName : string) : string :=
  "BPS_" +:+ baselineName +:+ "_" +:+ stageName.

(** ** The result list and its attachment *)

Module Result.

(** A row of [fetchActionResults]: the five leading strings of a result
    tuple; a tuple that is shorter leaves [undefined]. *)
Record row : Type := mkRow {
  server : value;
  patch : value;
  status : value;
  start : value;
  finish : value   (* [end] *)
}.

End Result.

Definition partAt (i : nat) (parts : list string) : value :=
  match nth_error parts i with
  | Some s => VStr s
  | None => VUndefined
  end.

Definition resultRowOf (parts : list string) : Result.row :=
  Result.mkRow (partAt 0 parts) (partAt 1 parts) (partAt 2 parts)
               (partAt 3 parts) (partAt 4 parts).

(** [fetchActionResults], from the answer of the query: no rows when the
    call throws or the status is not 2xx. *)
Definition fetchActionResults (answer : http value) : list Result.row :=
  match answer with
  | HttpThrow _ => []
  | HttpResp st data =>
      if negb (is2xx st) then []
      else map resultRowOf (parseTupleRows data)
  end.

Definition crlf : string := String "013"%char (String "010"%char EmptyString).

(** [String(val ?? "N/A")] *)
Definition csvText (val : value) : string :=
  match val with
  | VUndefined | VNull => "N/A"
  | _ => Js.toString val
  end.

(** [escape] of [toResultsCSV]. *)
Definition csvEscape (val : value) : string :=
  let str := csvText val in
  if JsString.includes dquote str || JsString.includes "," str
  then dquote +:+ JsString.replaceAll "034"%char (dquote +:+ dquote) str +:+ dquote
  else str.

Definition csvHeaders : list string :=
  ["Server Name"; "Patch Name"; "Status"; "Start Time"; "End Time"].

Definition rowValues (r : Result.row) : list value :=
  [Result.server r; Result.patch r; Result.status r; Result.start r;
   Result.finish r].

Definition csvRow (r : Result.row) : string :=
  String.concat "," (map csvEscape (rowValues r)).

(** [toResultsCSV] on the rows of [fetchActionResults]; [None] is [null]. *)
Definition toResultsCSV (data : list Result.row) : option string :=
  match data with
  | [] => None
  | _ :: _ =>
      Some (String.concat crlf (String.concat "," csvHeaders :: map csvRow data))
  end.

(** [toCSV] of the trigger route, on the array of member names. *)
Definition quoteCsv (name : value) : string :=
  dquote +:+ JsString.replaceAll "034"%char (dquote +:+ dquote) (Js.toString name)
    +:+ dquote.

Definition toCSV (serverList : list value) : option string :=
  match serverList with
  | [] => None
  | _ :: _ => Some (String.concat crlf ("ServerName" :: map quoteCsv serverList))
  end.

(** ** The change-ticket validation *)

Definition chgNotFound : value :=
  VObj [("ok", VBool false); ("code", VStr "NOT_FOUND_OR_FORBIDDEN");
        ("message",
         VStr "Change Request doesn't exist or user doesn't have required privileges.")].

(** The records of a ServiceNow answer: [resp?.data?.result] when it is an
    array, the one object when it is an object, nothing otherwise. *)
Definition changeRecords (data : value) : list value :=
  match Js.get data "result" with
  | VArr items => items
  | VObj fields => [VObj fields]
  | _ => []
  end.

(** [String(rec.state || "").trim()] *)
Definition stateOf (rec : value) : string :=
  JsString.trim (Js.toString (Js.or (Js.get rec "state") (VStr ""))).

(** [validateChangeNumber], from the ServiceNow settings of the context and
    the answer of the table query. The change number goes into the query
    only. *)
Definition validateChangeNumber (servicenow : value) (answer : http value)
    : outcome value :=
  match servicenow with
  | VUndefined =>
      Throw "Cannot destructure property 'SN_URL' of 'ctx.servicenow' as it is undefined."
  | VNull =>
      Throw "Cannot destructure property 'SN_URL' of 'ctx.servicenow' as it is null."
  | _ =>
  match Js.or (Js.get servicenow "SN_URL") (VStr "") with
  | VStr url =>
      let snBase := stripTrailing "/"%char url in
      let snBase :=
        match splitEndCI "/api/now" snBase with
        | Some (before, _) => before
        | None => snBase
        end in
      if negb (JsString.nonempty snBase)
         || negb (Js.truthy (Js.get servicenow "SN_USER"))
         || negb (Js.truthy (Js.get servicenow "SN_PASSWORD"))
      then Return (VObj [("ok", VBool false); ("code", VStr "CONFIG");
                         ("message", VStr "ServiceNow env not configured")])
      else
        match answer with
        | HttpThrow message => Throw message
        | HttpResp st data =>
            if (st =? 401) || (st =? 403) then Return chgNotFound
            else
              match changeRecords data with
              | [] => Return chgNotFound
              | first :: _ =>
                  let rec := Js.or first (VObj []) in
                  if String.eqb (JsString.toLowerCase (stateOf rec)) "implement"
                  then Return (VObj [("ok", VBool true); ("exists", VBool true);
                                     ("implement", VBool true); ("record", rec)])
                  else Return (VObj [("ok", VBool false);
                                     ("code", VStr "NOT_IMPLEMENT");
                                     ("message",
                                      VStr "Change Request is not at Implement stage.");
                                     ("record", rec)])
              end
        end
  | _ =>
      Throw ("(SN_URL || " +:+ dquote +:+ dquote +:+ ").replace is not a function")
  end
  end.

(** What [handleStageTrigger] reads of the verdict: [chk.ok], [chk.code],
    [chk.message]. *)
Definition verdictOf (o : outcome value) : chgOutcome :=
  match o with
  | Throw message => ChgThrow message
  | Return chk =>
      ChgVerdict (Js.truthy (Js.get chk "ok")) (Js.get chk "code")
                 (Js.get chk "message")
  end.

(** ** Notions for the properties of the helpers *)

(** A run of [n] copies of a character. *)
Fixpoint run (c : ascii) (n : nat) : string :=
  match n with
  | O => EmptyString
  | S n' => String c (run c n')
  end.

(** The last character of the string is [c]. *)
Fixpoint endsWithChar (c : ascii) (s : string) : bool :=
  match s with
  | EmptyString => false
  | String a EmptyString => Ascii.eqb a c
  | String _ r => endsWithChar c r
  end.

(** The string does not start with white space. *)
Definition startTrimmed (s : string) : bool :=
  match s with
  | String c _ => negb (JsString.is_space c)
  | EmptyString => true
  end.

(** The character occurs in the string. *)
Fixpoint occurs (c : ascii) (s : string) : bool :=
  match s with
  | EmptyString => false
  | String a r => Ascii.eqb a c || occurs c r
  end.

(** The entity [xmlEscape] writes for a character. *)
Definition xmlEntity (c : ascii) : string :=
  let n := JsString.code c in
  if (n =? 38)%N then "&amp;"
  else if (n =? 60)%N then "&lt;"
  else if (n =? 62)%N then "&gt;"
  else if (n =? 34)%N then "&quot;"
  else if (n =? 39)%N then "&apos;"
  else String c EmptyString.

(** Each character replaced by a string. *)
Fixpoint substitute (f : ascii -> string) (s : string) : string :=
  match s with
  | EmptyString => EmptyString
  | String c r => f c +:+ substitute f r
  end.

(** [y], lower-cased by the caller, can be the start of an occurrence of
    [p]: one of the two is a prefix of the other. *)
Fixpoint compatible (p y : string) : bool :=
  match p, y with
  | EmptyString, _ => true
  | _, EmptyString => true
  | String a p', String b y' => Ascii.eqb a b && compatible p' y'
  end.

(** No occurrence of [p], letters compared without case, starts inside
    [x], whatever follows [x]. *)
Fixpoint freeOf (p x : string) : bool :=
  match x with
  | EmptyString => true
  | String _ x' =>
      negb (compatible (JsString.toLowerCase p) (JsString.toLowerCase x))
        && freeOf p x'
  end.

(** The states of a reader of comma-separated values: at the start of a
    field, inside a plain field, inside a quoted field, and after a quote
    met inside a quoted field. *)
Inductive csvState : Type :=
| FieldStart
| InPlain
| InQuoted
| QuoteSeen.

(** ** Notions for the properties of the route and of the watcher *)

(** Both lookups of a trigger resolve: the names are strings, the baseline
    lookup answers 2xx with a first row of two strings at least, the group
    lookup answers with a first row of four strings at least. *)
Definition lookupsResolve (w : TriggerWorld) (baselineName groupName : value) : Prop :=
  (exists bn, baselineName = VStr bn) /\
  (exists st data row rest,
     baselineAnswer w = HttpResp st data /\ is2xx st = true /\
     resultRows data = row :: rest /\ (2 <= length (collectStrings row))%nat) /\
  (exists gn, groupName = VStr gn) /\
  (exists st data row rest,
     groupAnswer w = HttpResp st data /\
     resultRows data = row :: rest /\ (4 <= length (collectStrings row))%nat).

(** The submission is answered 2xx, and [extract] reads identifier [id]
    from the answer. *)
Definition acceptedAs (extract : string -> option string) (w : TriggerWorld)
    (id : string) : Prop :=
  exists st data,
    submitAnswer w = HttpResp st data /\ is2xx st = true /\ extract data = Some id.

(** [smtpReady] of the trigger. *)
Definition smtpReadyOf (w : TriggerWorld) : bool :=
  Js.truthy (smtp w) && Js.truthy (Js.get (smtp w) "SMTP_HOST")
    && Js.truthy (Js.get (smtp w) "SMTP_FROM").

(** The action store, the last identifier and the history table are as
    they were. *)
Definition recordsKept (m m' : Machine) : Prop :=
  actions m' = actions m /\ lastActionId m' = lastActionId m /\
  ActionHistory m' = ActionHistory m.

(** [R] relates the two states, unless [A] holds. *)
Definition unless (A : Prop) (R : Machine -> Machine -> Prop)
    : Machine -> Machine -> Prop :=
  fun m m' => A \/ R m m'.

(** The event is not a call of the change-ticket validation. *)
Definition notTicket (e : event) : Prop :=
  match e with
  | EvChangeTicket _ => False
  | _ => True
  end.

(** A trigger mail is sent only under condition [A]. *)
Definition preMailOnlyIf (A : Prop) (e : event) : Prop :=
  match e with
  | EvPreMail _ => A
  | _ => True
  end.

(** A record that differs at most by the flag having been set. *)
Definition flagSet (e e' : entry) : Prop :=
  e' = e \/ e' = <["postMailSent" := VBool true]> e.

(** A row that differs at most by the flag having been set. *)
Definition rowMarked (r r' : HistoryRow) : Prop :=
  r' = r \/
  r' = mkHistoryRow (ActionID r) (Metadata r) (Some true) (CreatedAt r).

(** From [m] to [m'] nothing changed but flags that were set: the same
    identifiers with the same records, the same rows in the same order. *)
Definition flagsOnly (m m' : Machine) : Prop :=
  lastActionId m' = lastActionId m /\
  AssetOwnership m' = AssetOwnership m /\
  (forall id, option_Forall2 flagSet (actions m !! id) (actions m' !! id)) /\
  Forall2 rowMarked (ActionHistory m) (ActionHistory m').

(** The event is not a step of the finalization of record [id]: neither the
    fetch of its results, nor its mail, nor its mark in memory. *)
Definition notFinalizing (id : string) (e : event) : Prop :=
  match e with
  | EvResults i | EvPostMail i _ | EvMarkMemory i => i <> id
  | _ => True
  end.

(** The record is still in the store. *)
Definition retained (id : string) (m m' : Machine) : Prop :=
  is_Some (actions m !! id) -> is_Some (actions m' !! id).

(** ** Settings read as numbers *)

(** [Math.max(a, x)] for an integer [a]. *)
Definition maxWith (a : Z) (x : number) : number :=
  match x with
  | NaN => NaN
  | PInf => PInf
  | NInf => Fin a
  | Fin z => Fin (Z.max a z)
  end.

Section Settings.

Variable StringToNumber : string -> number.

(** [getThresholdMilliseconds] of [routes/health.js]. *)
Definition getThresholdMilliseconds (value unit : value) : number :=
  let v := maxWith 0 (Num.or0 (ToNumber StringToNumber value)) in
  let unit := JsString.toLowerCase (Js.toString unit) in
  if String.eqb unit "minutes" then Num.mul (Num.mul v (Fin 60)) (Fin 1000)
  else if String.eqb unit "hours"
  then Num.mul (Num.mul (Num.mul v (Fin 60)) (Fin 60)) (Fin 1000)
  else Num.mul (Num.mul (Num.mul (Num.mul v (Fin 24)) (Fin 60)) (Fin 60)) (Fin 1000).

(** The delay [startPostPatchWatcher] hands to [setInterval]:
    [Math.max(10_000, Number(intervalMs) || 60_000)], where [intervalMs]
    defaults to 60 000 when it is not given. *)
Definition pollingInterval (intervalMs : value) : number :=
  let given :=
    match intervalMs with
    | VUndefined => VNum (Fin 60000)
    | v => v
    end in
  let n := ToNumber StringToNumber given in
  maxWith 10000 (if Num.truthy n then n else Fin 60000).

End Settings.

(** ** Further sample data *)



(** A request under the change gate, with a change number in lower case. *)
Definition changeRequest : value :=
  VObj [("baselineName", VStr "Patch_A"); ("groupName", VStr "SRV-GRP");
        ("chgNumber", VStr "chg0031337");
        ("patchWindow", VObj [("hours", VNum (Fin 2))])].

(** A tick at which every action is still open. *)
Definition openWorld : TickWorld :=
  {| statusAnswer := fun _ =>
       HttpResp 200 "<BESAPI><ActionResults><Status>Open</Status></ActionResults></BESAPI>";
     postMailFault := fun _ => None;
     markPoolFault := fun _ => None;
     markFault := fun _ => None |}.

(** A tick at which the inventory server does not answer. *)
Definition unreachableWorld : TickWorld :=
  {| statusAnswer := fun _ => HttpThrow "connect ETIMEDOUT";
     postMailFault := fun _ => None;
     markPoolFault := fun _ => None;
     markFault := fun _ => None |}.

(** * Ranges, readers and a finer watcher *)

(** ** The range of exact arithmetic *)

(** [Number.MAX_SAFE_INTEGER]. Up to it every integer is a double, and a
    sum, a difference or a product of such integers that stays within it,
    and the floor of their quotient, are computed exactly by the runtime.
    Beyond it the doubles of the runtime and the integers of this embedding
    part ways; the statements about numbers say where they need the range. *)
Definition maxSafeInteger : Z := 9007199254740991.

Definition safeInteger (z : Z) : Prop := Z.abs z <= maxSafeInteger.

(** ** Windows that are zero or negative *)

Section Windows.

Variable StringToNumber : string -> number.



End Windows.

(** ** Tag names *)

(** A letter or a digit: a character that stands for itself in the source
    of a regular expression. *)
Definition isNameChar (c : ascii) : bool :=
  let n := JsString.code c in
  ((48 <=? n) && (n <=? 57) || (65 <=? n) && (n <=? 90)
   || (97 <=? n) && (n <=? 122))%N.

(** A tag name of letters and digits, which [new RegExp] takes literally. *)
Fixpoint plainName (tag : string) : bool :=
  match tag with
  | EmptyString => true
  | String c r => isNameChar c && plainName r
  end.

(** ** The timer of the watcher *)

(** [TIMEOUT_MAX] of the runtime's timers, 2^31 - 1. *)
Definition timeoutMax : Z := 2147483647.

(** The period [setInterval] runs with for a delay argument: a delay that
    is not a number from 1 to [timeoutMax] is replaced by 1. *)
Definition timerDelay (delay : number) : Z :=
  match delay with
  | Fin z => if (1 <=? z) && (z <=? timeoutMax) then z else 1
  | _ => 1
  end.

(** ** Further sample data *)

(** The SQL server does not answer the query of the recovery load. *)
Definition sqlDown : SqlWorld :=
  mkSqlWorld None (Some "RequestError: Timeout") 638712000000000000.

(** ** The time helpers on doubles *)

(** The numbers of the runtime are binary64 doubles. [Double] has the time
    helpers of the trigger route on them, operation by operation as the
    source computes, so that they can be run on any input: on a window with
    a fraction, which [number] cannot hold, and beyond the exact range. *)
Module Double.

Abbreviation float := PrimFloat.float.

(** The double nearest to an integer, ties to even. *)
Definition ofZ (z : Z) : float :=
  FloatOps.SF2Prim
    (SpecFloat.binary_normalize FloatOps.prec FloatOps.emax z 0 false).

Definition ofNumber (n : number) : float :=
  match n with
  | NaN => PrimFloat.nan
  | PInf => PrimFloat.infinity
  | NInf => PrimFloat.neg_infinity
  | Fin z => ofZ z
  end.

(** Truthiness of a number: NaN and the two zeros are falsy. *)
Definition truthy (x : float) : bool :=
  negb (PrimFloat.is_nan x || PrimFloat.is_zero x).

(** [x || 0] *)
Definition or0 (x : float) : float := if truthy x then x else PrimFloat.zero.

(** [Math.floor]: a finite double is [m * 2^e] up to its sign; with [e]
    below zero the whole part is [m] shifted right. *)
Definition floor (x : float) : float :=
  match FloatOps.Prim2SF x with
  | SpecFloat.S754_finite s m e =>
      if 0 <=? e then x
      else
        let q := Z.shiftr (Zpos m) (- e) in
        if s then
          if Zpos m =? Z.shiftl q (- e) then x else ofZ (- (q + 1))
        else ofZ q
  | _ => x
  end.

(** [a % b]: the remainder of the truncating division, exact, with the sign
    of the dividend. *)
Definition rem (a b : float) : float :=
  match FloatOps.Prim2SF a, FloatOps.Prim2SF b with
  | SpecFloat.S754_nan, _ | _, SpecFloat.S754_nan => PrimFloat.nan
  | SpecFloat.S754_infinity _, _ => PrimFloat.nan
  | _, SpecFloat.S754_zero _ => PrimFloat.nan
  | _, SpecFloat.S754_infinity _ => a
  | SpecFloat.S754_zero _, _ => a
  | SpecFloat.S754_finite sa ma ea, SpecFloat.S754_finite _ mb eb =>
      let e := Z.min ea eb in
      let r := Z.shiftl (Zpos ma) (ea - e) mod Z.shiftl (Zpos mb) (eb - e) in
      if r =? 0 then (if sa then PrimFloat.neg_zero else PrimFloat.zero)
      else FloatOps.SF2Prim
             (SpecFloat.binary_normalize FloatOps.prec FloatOps.emax
                (if sa then - r else r) e false)
  end.

Section Helpers.

(** [Number(s)] on a string and [String(x)] on a number are the runtime's;
    the embedding takes them as given. *)
Variable StringToNumber : string -> float.
Variable NumberToString : float -> string.

(** [Number(v)] *)
Definition ToNumber (v : value) : float :=
  match v with
  | VUndefined => PrimFloat.nan
  | VNull => PrimFloat.zero
  | VBool b => if b then PrimFloat.one else PrimFloat.zero
  | VNum n => ofNumber n
  | VStr s => StringToNumber s
  | VArr _ | VObj _ => StringToNumber (Js.toString v)
  end.

Definition getPatchWindowMs (patchWindow : value) : float :=
  if Js.truthy patchWindow && Js.typeof_object patchWindow then
    let d := or0 (ToNumber (Js.get patchWindow "days")) in
    let h := or0 (ToNumber (Js.get patchWindow "hours")) in
    let m := or0 (ToNumber (Js.get patchWindow "minutes")) in
    PrimFloat.add
      (PrimFloat.add (PrimFloat.mul d (ofZ 86400000))
                     (PrimFloat.mul h (ofZ 3600000)))
      (PrimFloat.mul m (ofZ 60000))
  else
    let legacyHours := ToNumber patchWindow in
    if PrimFloat.is_finite legacyHours && PrimFloat.ltb PrimFloat.zero legacyHours
    then PrimFloat.mul legacyHours (ofZ 3600000)
    else PrimFloat.zero.

(** A component of the duration string: nothing when it is zero. *)
Definition durationPart (n : float) (designator : string) : list string :=
  if truthy n then [NumberToString n +:+ designator] else [].

Definition msToXSDuration (ms : float) : string :=
  if negb (PrimFloat.is_finite ms) || PrimFloat.eqb ms PrimFloat.zero then "PT0S"
  else
    let neg := PrimFloat.ltb ms PrimFloat.zero in
    let t := PrimFloat.abs ms in
    let totalSeconds := floor (PrimFloat.div t (ofZ 1000)) in
    let days := floor (PrimFloat.div totalSeconds (ofZ 86400)) in
    let rem1 := rem totalSeconds (ofZ 86400) in
    let hours := floor (PrimFloat.div rem1 (ofZ 3600)) in
    let rem2 := rem rem1 (ofZ 3600) in
    let minutes := floor (PrimFloat.div rem2 (ofZ 60)) in
    let seconds := rem rem2 (ofZ 60) in
    let out := String.concat "" (durationPart days "D") in
    let timeParts :=
      durationPart hours "H" ++ durationPart minutes "M"
        ++ durationPart seconds "S" in
    let out :=
      match timeParts with
      | _ :: _ => out +:+ "T" +:+ String.concat "" timeParts
      | [] => if negb (truthy days) then "T0S" else out
      end in
    (if neg then "-" else "") +:+ "P" +:+ out.

(** [localUtcOffsetMs], from the minutes that [getTimezoneOffset] reports. *)
Definition localUtcOffsetMs (offsetMin : Z) : float :=
  PrimFloat.mul (PrimFloat.opp (ofZ offsetMin)) (ofZ 60000).

(** The completion offset [handleStageTrigger] settles on; [None] is the
    duration validation error. *)
Definition chooseOffset (w : TriggerWorld) (patchWindow endOffset : value)
    : option value :=
  let timeInput := Js.or patchWindow endOffset in
  let pwMs := getPatchWindowMs timeInput in
  if PrimFloat.ltb PrimFloat.zero pwMs then
    let tzMs := localUtcOffsetMs (timezoneOffset w) in
    let deltaMs := PrimFloat.sub pwMs tzMs in
    Some (VStr (msToXSDuration deltaMs))
  else if negb (Js.truthy endOffset) then None
  else Some endOffset.

End Helpers.

(** The integer a finite double stands for, when it is a whole number. *)
Definition whole (x : float) : option Z :=
  match FloatOps.Prim2SF x with
  | SpecFloat.S754_zero _ => Some 0
  | SpecFloat.S754_finite s m e =>
      let magnitude :=
        if 0 <=? e then Some (Z.shiftl (Zpos m) e)
        else
          let q := Z.shiftr (Zpos m) (- e) in
          if Zpos m =? Z.shiftl q (- e) then Some q else None in
      match magnitude with
      | Some z => Some (if s then - z else z)
      | None => None
      end
  | _ => None
  end.

(** The printer on the numbers the samples print: a whole number up to
    2^53 prints as its decimal numeral. Beyond that the runtime prints the
    shortest digits that read back as the same double, and a number with a
    fraction prints with a point; the samples print neither, and get the
    empty string here. *)
Definition printWhole (x : float) : string :=
  match whole x with
  | Some z => if Z.abs z <=? maxSafeInteger + 1 then JsString.of_Z z else ""
  | None => ""
  end.


End Double.


(** ** A reader of a file of comma-separated values *)

(** Records end with CR LF and fields are separated by commas. A field that
    opens with a quote runs to the next quote that is not doubled; a doubled
    quote inside it stands for one quote, and commas and line breaks inside
    it belong to the field. The result lists the records, the one read first
    at the head. *)
Definition addChar (c : ascii) (records : option (list (list string)))
    : option (list (list string)) :=
  match records with
  | Some ((f :: fs) :: rs) => Some ((String c f :: fs) :: rs)
  | _ => None
  end.

Definition newField (records : option (list (list string)))
    : option (list (list string)) :=
  match records with
  | Some (fs :: rs) => Some ((EmptyString :: fs) :: rs)
  | _ => None
  end.

Definition newRecord (records : option (list (list string)))
    : option (list (list string)) :=
  match records with
  | Some rs => Some ([EmptyString] :: rs)
  | None => None
  end.

Fixpoint csvRecordsFrom (st : csvState) (s : string)
    : option (list (list string)) :=
  match s with
  | EmptyString =>
      match st with
      | InQuoted => None
      | _ => Some [[EmptyString]]
      end
  | String c r =>
      let isQuote := (JsString.code c =? 34)%N in
      let isComma := (JsString.code c =? 44)%N in
      match st with
      | FieldStart =>
          if isQuote then csvRecordsFrom InQuoted r
          else if isComma then newField (csvRecordsFrom FieldStart r)
          else
            match r with
            | String l r' =>
                if (JsString.code c =? 13)%N && (JsString.code l =? 10)%N
                then newRecord (csvRecordsFrom FieldStart r')
                else addChar c (csvRecordsFrom InPlain r)
            | EmptyString => addChar c (csvRecordsFrom InPlain r)
            end
      | InPlain =>
          if isComma then newField (csvRecordsFrom FieldStart r)
          else
            match r with
            | String l r' =>
                if (JsString.code c =? 13)%N && (JsString.code l =? 10)%N
                then newRecord (csvRecordsFrom FieldStart r')
                else addChar c (csvRecordsFrom InPlain r)
            | EmptyString => addChar c (csvRecordsFrom InPlain r)
            end
      | InQuoted =>
          if isQuote then csvRecordsFrom QuoteSeen r
          else addChar c (csvRecordsFrom InQuoted r)
      | QuoteSeen =>
          if isQuote then addChar c (csvRecordsFrom InQuoted r)
          else if isComma then newField (csvRecordsFrom FieldStart r)
          else
            match r with
            | String l r' =>
                if (JsString.code c =? 13)%N && (JsString.code l =? 10)%N
                then newRecord (csvRecordsFrom FieldStart r')
                else None
            | EmptyString => None
            end
      end
  end.

Definition csvRecords (text : string) : option (list (list string)) :=
  csvRecordsFrom FieldStart text.

(** What may follow a field: the end of the text, a comma, or CR LF. *)
Definition delimiter (T : string) : Prop :=
  T = "" \/ (exists L, T = String "," L) \/ (exists L, T = crlf +:+ L).

(** [content] put in front of the field that is being read. *)
Definition prefixField (content : string) (records : option (list (list string)))
    : option (list (list string)) :=
  match records with
  | Some ((f :: fs) :: rs) => Some (((content +:+ f) :: fs) :: rs)
  | _ => None
  end.

(** The written [cell] is read as the field [content], whatever field
    or record follows. *)
Definition readsAs (cell content : string) : Prop :=
  forall T, delimiter T ->
    csvRecordsFrom FieldStart (cell +:+ T)
    = prefixField content (csvRecordsFrom FieldStart T).

(** The text of the value holds no carriage return and no line feed. *)
Definition oneLine (val : value) : Prop :=
  occurs "013"%char (csvText val) = false /\
  occurs "010"%char (csvText val) = false.

(** Two result rows: a patch list with a comma, a status with quotes, and
    times that are missing. *)
Definition sampleResults : list Result.row :=
  [ Result.mkRow (VStr "SRV-01") (VStr "KB5031364, KB5031365") (VStr "Fixed")
                 VUndefined VNull;
    Result.mkRow (VStr "SRV-02") (VStr "KB5031364")
                 (VStr ("Failed: " +:+ dquote +:+ "locked" +:+ dquote))
                 (VStr "Mon, 06 Jan") (VStr "Tue, 07 Jan") ].

(** ** The watcher between its awaits *)

(** A tick is an asynchronous function: it gives way at each [await], and
    before it goes on the timer may start the next tick and a route may
    serve a request. What a tick that has given way is waiting for: *)
Inductive awaited : Type :=
| AwaitStatus    (* the answer of [getActionStatusXml] *)
| AwaitResults   (* the rows of [fetchActionResults] *)
| AwaitMail      (* the end of [sendPostPatchMail] *)
| AwaitMark.     (* the end of the UPDATE of [markSent] *)

(** A tick in flight: the record it is at, what it waits for, and the
    identifiers it has still to visit, from the keys it took at its start. *)
Record flight : Type := mkFlight {
  current : string;
  waitsFor : awaited;
  later : list string
}.

(** What happens to the process, one step at a time: the timer fires and a
    tick starts; the tick in flight at position [k] gets what it waits for
    and runs to its next [await]; a cleanup run or a request to a pilot
    trigger route is served as a whole; a trigger request of either route
    ([routes/pilot.js], [routes/actions.js]) that has its submission
    answered stores its record; such a request has its row inserted; the
    process ends and is started again. A trigger request reads neither the
    action store nor the history table, and writes them in these two steps
    only, one [await] apart, so that ticks and other requests may come in
    between. *)
Inductive move : Type :=
| Fire (cfg : Config)
| Settle (k : nat) (cfg : Config) (w : TickWorld)
| Run (j : job)
| Store (w : TriggerWorld) (metadata : list (string * value))
| Insert (w : TriggerWorld) (metadata : list (string * value))
| Restart (loadWorld : SqlWorld).

Section Interleaving.

Local Open Scope orch_scope.

Variable StringToNumber : string -> number.
Variable JSONstringify : value -> string.
Variable JSONparse : string -> option value.
Variable extractActionIdFromXml : string -> option string.
Variable sqlEq : string -> string -> bool.
Variable ownKeys : gmap string entry -> list string.

(** [markSent] up to its first [await]: the flag of the record in memory. *)
Definition markMemory (id : string) (m : Machine) : Machine :=
  match actions m !! id with
  | Some e =>
      emit (EvMarkMemory id)
           (setActions (fun acts => <[id := <["postMailSent" := VBool true]> e]> acts) m)
  | None => m
  end.

(** [markSent] after it: the UPDATE, whose failure is swallowed. *)
Definition markDurable (w : TickWorld) (id : string) (m : Machine) : Machine :=
  match markPoolFault w id, sqlInt (StringToNumber id), markFault w id with
  | None, Some k, None =>
      emit (EvHistoryMark (StringToNumber id) true)
           (setActionHistory (map (markRow k)) m)
  | _, _, _ => emit (EvHistoryMark (StringToNumber id) false) m
  end.

(** The loop of the tick from the head of [ids] up to its next [await]:
    the records that are not to be sent are passed over; for the first that
    is, the status is asked for and the tick gives way. *)
Fixpoint advance (cfg : Config) (ids : list string) (m : Machine)
    : Machine * option flight :=
  match ids with
  | [] => (m, None)
  | id :: rest =>
      if shouldSend cfg (actions m !! id)
      then (emit (EvStatus id) m, Some (mkFlight id AwaitStatus rest))
      else advance cfg rest m
  end.

Definition startTick (cfg : Config) (m : Machine) : Machine * option flight :=
  advance cfg (ownKeys (actions m)) m.

(** What a tick in flight does when what it waits for has come, up to its
    next [await]. A status call that throws ends the tick. *)
Definition resumeTick (cfg : Config) (w : TickWorld) (f : flight) (m : Machine)
    : Machine * option flight :=
  let id := current f in
  match waitsFor f with
  | AwaitStatus =>
      match statusAnswer w id with
      | HttpThrow _ => (m, None)
      | HttpResp st text =>
          if negb (is2xx st) || negb (JsString.nonempty text)
          then advance cfg (later f) m
          else
            let overall := JsString.toLowerCase (default "" (pickStatusTop text)) in
            if negb (String.eqb overall "expired") then advance cfg (later f) m
            else (emit (EvResults id) m, Some (mkFlight id AwaitResults (later f)))
      end
  | AwaitResults =>
      (emit (EvPostMail id (delivered w id)) m,
       Some (mkFlight id AwaitMail (later f)))
  | AwaitMail => (markMemory id m, Some (mkFlight id AwaitMark (later f)))
  | AwaitMark => advance cfg (later f) (markDurable w id m)
  end.

(** A tick in flight run on, with nothing in between, for at most [fuel]
    steps. *)
Fixpoint finish (fuel : nat) (cfg : Config) (w : TickWorld)
    (s : Machine * option flight) : Machine * option flight :=
  match fuel, snd s with
  | S n, Some f => finish n cfg w (resumeTick cfg w f (fst s))
  | _, _ => s
  end.

(** A trigger request from the answer of its submission on
    ([routes/pilot.js], [triggerBaselineAction]; [routes/actions.js],
    [triggerAction]): the identifier is read from a 2xx answer, and when
    there is one the record is stored under it, without an [await] in
    between. [metadata] stands for the object literal the route stores,
    which has [postMailSent] false. *)
Definition answeredId (w : TriggerWorld) : option string :=
  match submitAnswer w with
  | HttpResp st data =>
      if is2xx st then extractActionIdFromXml data else None
  | HttpThrow _ => None
  end.

Definition storeRecord (w : TriggerWorld) (metadata : list (string * value))
    : M unit :=
  match answeredId w with
  | Some actionId =>
      modify (setLastActionId (Some actionId)) ;;
      modify (setActions (fun acts => <[actionId := objectOf metadata]> acts))
  | None => ret tt
  end.

(** The INSERT that follows, whose failure is swallowed. *)
Definition storeRow (w : TriggerWorld) (metadata : list (string * value))
    : M unit :=
  match answeredId w with
  | Some actionId =>
      tryCatch (historyInsert StringToNumber JSONstringify w actionId metadata)
               (fun _ => ret tt)
  | None => ret tt
  end.

(** The process ends and starts again: the store of [state/store.js] is
    new, the tables are as they were, and [startPostPatchWatcher] runs the
    recovery load before any timer is set. *)
Definition restart (loadWorld : SqlWorld) (m : Machine) : Machine :=
  loadCacheFromDb JSONparse loadWorld
    (mkMachine ∅ None (ActionHistory m) (AssetOwnership m) (trace m)).

(** The process: the machine and the ticks in flight. The ticks in flight
    end with the process. *)
Definition perform (s : Machine * list flight) (mv : move) : Machine * list flight :=
  match mv with
  | Fire cfg =>
      let (m', f) := startTick cfg (fst s) in
      (m', snd s ++ option_list f)
  | Settle k cfg w =>
      match snd s !! k with
      | Some f =>
          let (m', f') := resumeTick cfg w f (fst s) in
          (m', take k (snd s) ++ option_list f' ++ drop (S k) (snd s))
      | None => s
      end
  | Run j =>
      (runJob StringToNumber JSONstringify extractActionIdFromXml sqlEq ownKeys
              (fst s) j,
       snd s)
  | Store w metadata => (snd (storeRecord w metadata (fst s)), snd s)
  | Insert w metadata => (snd (storeRow w metadata (fst s)), snd s)
  | Restart loadWorld => (restart loadWorld (fst s), [])
  end.

Definition performAll (moves : list move) (s : Machine * list flight)
    : Machine * list flight :=
  foldl perform s moves.

End Interleaving.

(** A move that does not store a record under [id]: a trigger request that
    is not answered with that identifier, or any other move. *)
Definition writesOther (extractActionIdFromXml : string -> option string)
    (id : string) (mv : move) : Prop :=
  match mv with
  | Run j => issuesOther extractActionIdFromXml id j
  | Store w _ | Insert w _ =>
      match submitAnswer w with
      | HttpResp _ data => extractActionIdFromXml data <> Some id
      | HttpThrow _ => True
      end
  | _ => True
  end.

(** No tick in flight is at record [id]. *)
Definition elsewhere (id : string) (flights : list flight) : Prop :=
  Forall (fun f => current f <> id) flights.

(** A move within one run of the process. *)
Definition sameRun (mv : move) : Prop :=
  match mv with
  | Restart _ => False
  | _ => True
  end.

(** The collaborators of the submission a move makes, when it makes one. *)
Definition submission (mv : move) : option TriggerWorld :=
  match mv with
  | Run (JobTrigger w _ _ _) => Some w
  | Store w _ | Insert w _ => Some w
  | _ => None
  end.

(** A move that inserts no row keyed by [id]: the identifier its submission
    is answered with, bound as [sql.Int], does not print as [id]. *)
Definition insertsOther (StringToNumber : string -> number)
    (extractActionIdFromXml : string -> option string) (id : string) (mv : move)
    : Prop :=
  match submission mv with
  | Some w =>
      match submitAnswer w with
      | HttpResp _ data =>
          forall actionId k,
            extractActionIdFromXml data = Some actionId ->
            sqlInt (StringToNumber actionId) = Some k ->
            JsString.of_Z k <> id
      | HttpThrow _ => True
      end
  | None => True
  end.

(** No row the recovery load selects is keyed by [id]: the mark of record
    [id] has reached the table, or the table has no row for it. *)
Definition durablyFinal (id : string) (m : Machine) : Prop :=
  Forall (fun r => pendingRow r = true -> JsString.of_Z (ActionID r) <> id)
         (ActionHistory m).

(** The rows keyed by [id] that were not pending are not pending. *)
Definition rowsStay (id : string) (m m' : Machine) : Prop :=
  durablyFinal id m -> durablyFinal id m'.

(** The flag of record [id] in memory, and the notifications attempted for
    it so far. *)
Definition flagOf (id : string) (m : Machine) : bool :=
  Js.truthy (prop (default ∅ (actions m !! id)) "postMailSent").

Definition mailsFor (id : string) (m : Machine) : nat :=
  length (List.filter (fun ev => match ev with
                                 | EvPostMail i _ => String.eqb i id
                                 | _ => false
                                 end) (trace m)).

(** A tick at which every action has expired and the UPDATE of the mark
    fails. *)
Definition lostMarkWorld : TickWorld :=
  {| statusAnswer := statusAnswer expiredWorld;
     postMailFault := fun _ => None;
     markPoolFault := fun _ => None;
     markFault := fun _ => Some "RequestError: Timeout" |}.

Definition process (moves : list move) (m : Machine) : Machine :=
  fst (performAll readDecimal writeJson readJson readActionId String.eqb keysOf
         moves (m, [])).

(** Record 77 is finalized; a later request is answered with 77 again. *)
Definition reissued : Machine :=
  process [Run (JobTrigger demoWorld false "Pilot"
                  (demoRequest (VObj [("hours", VNum (Fin 2))]) VUndefined))]
          finalizedMachine.

(** Record 77 is finalized in memory, the mark does not reach the table, and
    the process is started again. *)
Definition markedInMemory : Machine :=
  process [Run (JobTick switchOn lostMarkWorld)] triggeredMachine.

Definition restarted : Machine := process [Restart sqlUp] markedInMemory.

(** Two ticks overlap: the second starts while the first waits for the
    status of record 77; the first runs to its end, then the second. *)
Definition firstTickDone : Machine :=
  process [Fire switchOn; Fire switchOn;
           Settle 0 switchOn expiredWorld; Settle 0 switchOn expiredWorld;
           Settle 0 switchOn expiredWorld; Settle 0 switchOn expiredWorld]
          triggeredMachine.

Definition bothTicksDone : Machine :=
  process [Fire switchOn; Fire switchOn;
           Settle 0 switchOn expiredWorld; Settle 0 switchOn expiredWorld;
           Settle 0 switchOn expiredWorld; Settle 0 switchOn expiredWorld;
           Settle 0 switchOn expiredWorld; Settle 0 switchOn expiredWorld;
           Settle 0 switchOn expiredWorld; Settle 0 switchOn expiredWorld]
          triggeredMachine.

(** What follows the finalization of record 77 in one sample life of the
    process: ticks that overlap, a cleanup run, trigger requests answered
    with 78, one of them with a tick between its two writes, a restart. *)
Definition laterMoves : list move :=
  [ Fire switchOn;
    Run (JobCleanup switchOn sqlUp);
    Fire switchOn;
    Settle 0 switchOn expiredWorld;
    Run (JobTrigger laterWorld false "Production"
           (demoRequest (VNum (Fin 3)) VUndefined));
    Settle 1 switchOn expiredWorld;
    Restart sqlUp;
    Store laterWorld storedFields;
    Fire switchOn;
    Settle 0 switchOn expiredWorld;
    Insert laterWorld storedFields;
    Settle 0 switchOn expiredWorld ].
(** * Properties *)

(** ** Sanity checks of the embedding *)

Example msToXSDuration_2h : msToXSDuration (Fin 7200000) = "PT2H".
Proof. reflexivity. Qed.

Example msToXSDuration_mixed :
  msToXSDuration (Fin (- 93784000)) = "-P1DT2H3M4S".
Proof. reflexivity. Qed.

Example msToXSDuration_days_only : msToXSDuration (Fin 172800000) = "P2D".
Proof. reflexivity. Qed.

Example msToXSDuration_subsecond : msToXSDuration (Fin (- 500)) = "-PT0S".
Proof. reflexivity. Qed.

Example collectStrings_tuple :
  collectStrings
    (VObj [("Tuple", VArr [VStr "SRV-GRP"; VNum (Fin 42)]);
           ("result", VArr [VStr "ActionSite"; VStr "Automatic"])])
  = ["ActionSite"; "Automatic"; "SRV-GRP"; "42"].
Proof. reflexivity. Qed.

Example pickStatusTop_expired :
  pickStatusTop "<BESAPI><ActionResults><status> Expired </STATUS><x/></ActionResults>"
  = Some "Expired".
Proof. reflexivity. Qed.

Example pickStatusTop_unclosed : pickStatusTop "<Status>Open" = None.
Proof. reflexivity. Qed.

Example decodeDuration_mixed : decodeDuration "-P1DT2H3M4S" = Some (- 93784000).
Proof. reflexivity. Qed.

Example decodeDuration_days_only : decodeDuration "P2D" = Some 172800000.
Proof. reflexivity. Qed.

Example statedGrammar_time : statedGrammar "P1DT2H" = true.
Proof. reflexivity. Qed.

Example demoRun_two_hours :
  fst (demoRun demoWorld (demoRequest (VObj [("hours", VNum (Fin 2))]) VUndefined))
  = Return (reply 200
      [("ok", VBool true); ("chgOk", VBool true); ("forced", VBool false);
       ("actionId", VStr "77"); ("siteName", VStr "Enterprise");
       ("fixletId", VStr "1234"); ("group", VStr "SRV-GRP");
       ("title", VStr "BPS_Patch_A_Pilot"); ("stage", VStr "Pilot");
       ("endOffset", VStr "PT2H");
       ("createdAt", VStr "2025-01-01T00:00:00.012Z")]).
Proof. vm_compute. reflexivity. Qed.

(** ** Retention cleanup *)

Section CleanupFacts.

Variable StringToNumber : string -> number.

Lemma cleanup_rows (cfg : Config) (w : SqlWorld) (m : Machine) :
  ActionHistory (cleanupOldActions StringToNumber cfg w m) = ActionHistory m \/
  exists days,
    sqlInt (retentionOf StringToNumber cfg) = Some days /\ 0 < days /\
    0 <= sqlClock w - days * dayUnits /\
    ActionHistory (cleanupOldActions StringToNumber cfg w m)
    = List.filter (fun r => negb (expiredRow (sqlClock w - days * dayUnits) r))
                  (ActionHistory m).
Proof.
  unfold cleanupOldActions. fold (retentionOf StringToNumber cfg).
  destruct (Num.le0 (retentionOf StringToNumber cfg)) eqn:Hle; [now left|].
  destruct (sqlPoolFault w); [now left|].
  destruct (sqlInt (retentionOf StringToNumber cfg)) as [days|] eqn:Hint; [|now left].
  destruct (sqlQueryFault w); [now left|].
  destruct (sqlClock w - days * dayUnits <? 0) eqn:Hcut; [now left|].
  right. exists days. repeat split; try reflexivity.
  - unfold sqlInt in Hint. destruct (retentionOf StringToNumber cfg) as [| | |z]; try discriminate.
    destruct (_ && _); [|discriminate]. injection Hint as <-.
    simpl in Hle. lia.
  - lia.
Qed.

Lemma cleanup_actions (cfg : Config) (w : SqlWorld) (m : Machine) :
  actions (cleanupOldActions StringToNumber cfg w m) = actions m.
Proof.
  unfold cleanupOldActions.
  repeat match goal with
         | |- context [match ?x with _ => _ end] => destruct x
         end; reflexivity.
Qed.

Lemma cleanup_keeps_unsent (cfg : Config) (w : SqlWorld) (m : Machine)
    (r : HistoryRow) :
  In r (ActionHistory m) -> PostMailSent r <> Some true ->
  In r (ActionHistory (cleanupOldActions StringToNumber cfg w m)).
Proof.
  intros Hin Hflag.
  destruct (cleanup_rows cfg w m) as [Heq | (days & _ & _ & _ & Heq)];
    rewrite Heq; [assumption|].
  apply filter_In. split; [assumption|].
  unfold expiredRow. destruct (PostMailSent r) as [[|]|]; try reflexivity.
  congruence.
Qed.

(** C9. A cleanup run removes a row of the durable store only when its
    PostMailSent flag is set and it was created before the retention window
    (a positive number of days, 30 when none is configured): a row whose flag
    is not set survives every run, whatever its age. The in-memory store is
    not touched, and no row is added or altered. *)
Theorem cleanup_deletes_only_finalized_expired
    (cfg : Config) (w : SqlWorld) (m : Machine) (r : HistoryRow) :
  In r (ActionHistory m) ->
  let m' := cleanupOldActions StringToNumber cfg w m in
  (~ In r (ActionHistory m') ->
     PostMailSent r = Some true /\
     exists days,
       sqlInt (retentionOf StringToNumber cfg) = Some days /\ 0 < days /\
       CreatedAt r < sqlClock w - days * dayUnits) /\
  (PostMailSent r <> Some true -> In r (ActionHistory m')) /\
  (forall r', In r' (ActionHistory m') -> In r' (ActionHistory m)) /\
  actions m' = actions m.
Proof.
  intros Hin m'. subst m'.
  destruct (cleanup_rows cfg w m) as [Heq | (days & Hint & Hpos & _ & Heq)];
    rewrite Heq.
  - repeat split; try tauto. apply cleanup_actions.
  - split; [|split; [|split]].
    + intros Hout.
      assert (expiredRow (sqlClock w - days * dayUnits) r = true) as Hexp.
      { destruct (expiredRow (sqlClock w - days * dayUnits) r) eqn:E; [reflexivity|].
        exfalso. apply Hout. apply filter_In. now rewrite E. }
      unfold expiredRow in Hexp.
      destruct (PostMailSent r) as [[|]|]; try discriminate.
      split; [reflexivity|]. exists days. repeat split; auto. lia.
    + intros Hflag. rewrite <- Heq. now apply cleanup_keeps_unsent.
    + intros r' Hr'. apply filter_In in Hr'. tauto.
    + apply cleanup_actions.
Qed.

End CleanupFacts.

Lemma cleanup_deletes_only_finalized_expired_witness :
  In oldPendingRow [oldPendingRow; oldSentRow] /\
  In oldPendingRow (ActionHistory cleanupDemo) /\
  ~ In oldSentRow (ActionHistory cleanupDemo).
Proof.
  split; [left; reflexivity|].
  split.
  - apply (cleanup_deletes_only_finalized_expired readDecimal
             (mkConfig (VBool true) VUndefined)
             (mkSqlWorld None None 638712000000000000)
             (mkMachine ∅ None [oldPendingRow; oldSentRow] [] [])
             oldPendingRow).
    + left; reflexivity.
    + discriminate.
  - vm_compute. intros [H|[]]. discriminate H.
Defined.

(** ** Reasoning about computations *)

Lemma emits_refl (P : event -> Prop) (m : Machine) : emits P m m.
Proof. exists []. split; [now rewrite app_nil_r | constructor]. Qed.

Lemma emits_trans (P : event -> Prop) (m1 m2 m3 : Machine) :
  emits P m1 m2 -> emits P m2 m3 -> emits P m1 m3.
Proof.
  intros (t & Ht & Hf) (t' & Ht' & Hf'). exists (t ++ t'). split.
  - rewrite Ht', Ht. now rewrite app_assoc.
  - apply Forall_app; now split.
Qed.

Lemma emits_emit (P : event -> Prop) (e : event) (m : Machine) :
  P e -> emits P m (emit e m).
Proof. intros He. exists [e]. split; [reflexivity | now repeat constructor]. Qed.

Lemma emits_trace (P : event -> Prop) (m m' : Machine) :
  trace m' = trace m -> emits P m m'.
Proof. intros H. exists []. split; [now rewrite app_nil_r | constructor]. Qed.

Lemma emits_weaken (P Q : event -> Prop) (m m' : Machine) :
  (forall e, P e -> Q e) -> emits P m m' -> emits Q m m'.
Proof.
  intros HPQ (t & Ht & Hf). exists t. split; [assumption|].
  eapply Forall_impl; eassumption.
Qed.

#[export] Instance emits_preorder (P : event -> Prop) : PreOrder (emits P).
Proof.
  split; [intros m; apply emits_refl | intros m1 m2 m3; apply emits_trans].
Qed.

Section Stable.

Context (R : relation Machine) `{!PreOrder R}.

Lemma stable_ret {A} (a : A) : stable R (ret a).
Proof. intros m. simpl. reflexivity. Qed.

Lemma stable_throw {A} (e : string) : stable R (@throw A e).
Proof. intros m. simpl. reflexivity. Qed.

Lemma stable_gets {A} (f : Machine -> A) : stable R (gets f).
Proof. intros m. simpl. reflexivity. Qed.

Lemma stable_guard (f : fault) : stable R (guard f).
Proof. intros m. destruct f; simpl; reflexivity. Qed.

Lemma stable_modify (f : Machine -> Machine) :
  (forall m, R m (f m)) -> stable R (modify f).
Proof. intros H m. apply H. Qed.

Lemma stable_log (e : event) : (forall m, R m (emit e m)) -> stable R (log e).
Proof. intros H m. apply H. Qed.

Lemma stable_bind_ret {A B} (c : M A) (k : A -> M B) (Q : A -> Prop) :
  stable R c -> returns c Q -> (forall a, Q a -> stable R (k a)) ->
  stable R (bind c k).
Proof.
  intros Hc Hq Hk m. unfold bind. specialize (Hc m). specialize (Hq m).
  destruct (c m) as [[a | e] m']; simpl in *.
  - etransitivity; [exact Hc|]. apply Hk. eapply Hq. reflexivity.
  - exact Hc.
Qed.

Lemma stable_bind {A B} (c : M A) (k : A -> M B) :
  stable R c -> (forall a, stable R (k a)) -> stable R (bind c k).
Proof.
  intros Hc Hk. apply stable_bind_ret with (Q := fun _ => True); auto.
  now intros m a m' _.
Qed.

Lemma stable_tryCatch {A} (c : M A) (h : string -> M A) :
  stable R c -> (forall e, stable R (h e)) -> stable R (tryCatch c h).
Proof.
  intros Hc Hh m. unfold tryCatch. specialize (Hc m).
  destruct (c m) as [[a | e] m']; simpl in *.
  - exact Hc.
  - etransitivity; [exact Hc|]. apply Hh.
Qed.

Lemma stable_call {A} (e : event) (answer : http A) :
  (forall m, R m (emit e m)) -> stable R (call e answer).
Proof.
  intros H. unfold call. apply stable_bind; [now apply stable_log|].
  intros _. destruct answer; [apply stable_throw | apply stable_ret].
Qed.

End Stable.

Lemma returns_call {A} (e : event) (answer : http A) :
  returns (call e answer) (fun p => answer = HttpResp (fst p) (snd p)).
Proof.
  intros m [st d] m'. unfold call, bind, log, modify, ret, throw.
  destruct answer; [discriminate|]. now intros [= <- <- _].
Qed.

(** One step of a proof that a computation is stable: split a sequence,
    discharge the pure leaves, case on the scrutinee of a branch. *)
Ltac stable_step :=
  lazymatch goal with
  | |- stable _ (bind (call _ _) _) =>
      eapply stable_bind_ret;
      [typeclasses eauto | apply stable_call; [typeclasses eauto | intros ?]
      | apply returns_call | intros [? ?] ?; simpl in * ]
  | |- stable _ (bind _ _) => apply stable_bind; [typeclasses eauto | | intros ?]
  | |- stable _ (ret _) => apply stable_ret; typeclasses eauto
  | |- stable _ (throw _) => apply stable_throw; typeclasses eauto
  | |- stable _ (gets _) => apply stable_gets; typeclasses eauto
  | |- stable _ (guard _) => apply stable_guard; typeclasses eauto
  | |- stable _ (tryCatch _ _) =>
      apply stable_tryCatch; [typeclasses eauto | | intros ?]
  | |- stable _ (log _) => apply stable_log; intros ?
  | |- stable _ (modify _) => apply stable_modify; intros ?
  | |- stable _ (match ?x with _ => _ end) => destruct x eqn:?
  | |- stable _ (let _ := _ in _) => cbv zeta
  end.

(** ** The watcher leaves skipped records alone *)

Lemma untouched_refl (id : string) (m : Machine) : untouched id m m.
Proof. split; [reflexivity | apply emits_refl]. Qed.

Lemma untouched_trans (id : string) (m1 m2 m3 : Machine) :
  untouched id m1 m2 -> untouched id m2 m3 -> untouched id m1 m3.
Proof.
  intros [Ha He] [Ha' He']. split; [congruence|].
  eapply emits_trans; eassumption.
Qed.

Lemma untouched_emit (id : string) (e : event) (m : Machine) :
  concerns id e = false -> untouched id m (emit e m).
Proof. intros He. split; [reflexivity | now apply emits_emit]. Qed.

#[export] Instance untouched_preorder (id : string) : PreOrder (untouched id).
Proof.
  split; [intros m; apply untouched_refl | intros m1 m2 m3; apply untouched_trans].
Qed.

Lemma rowsKept_refl (k : Z) (m : Machine) : rowsKept k m m.
Proof. intros r Hr _ _. exact Hr. Qed.

Lemma rowsKept_trans (k : Z) (m1 m2 m3 : Machine) :
  rowsKept k m1 m2 -> rowsKept k m2 m3 -> rowsKept k m1 m3.
Proof. intros H12 H23 r Hr Hk Hf. apply H23; auto. Qed.

Lemma sameKeys_refl (m : Machine) : sameKeys m m.
Proof. intros id. reflexivity. Qed.

Lemma sameKeys_actions (m m' : Machine) : actions m' = actions m -> sameKeys m m'.
Proof. intros H id. now rewrite H. Qed.

Lemma rowsKept_rows (k : Z) (m m' : Machine) :
  ActionHistory m' = ActionHistory m -> rowsKept k m m'.
Proof. intros H r Hr _ _. now rewrite H. Qed.

Lemma sameKeys_trans (m1 m2 m3 : Machine) :
  sameKeys m1 m2 -> sameKeys m2 m3 -> sameKeys m1 m3.
Proof. intros H12 H23 id. etransitivity; [apply H23 | apply H12]. Qed.

Lemma eqb_neq_str (a b : string) : a <> b -> String.eqb a b = false.
Proof. intros H. now apply String.eqb_neq. Qed.

Lemma sqlInt_Some (n : number) (k : Z) : sqlInt n = Some k -> n = Fin k.
Proof.
  destruct n as [| | |z]; simpl; try discriminate.
  destruct (_ && _); [|discriminate]. now intros [= ->].
Qed.

Section TickFacts.

Variable StringToNumber : string -> number.
Variable ownKeys : gmap string entry -> list string.

Lemma shouldSend_sent (cfg : Config) (e : entry) :
  Js.truthy (prop e "postMailSent") = true -> shouldSend cfg (Some e) = false.
Proof.
  intros H. unfold shouldSend. rewrite H.
  now destruct (negb (Js.truthy (postPatchMail cfg))).
Qed.

Lemma shouldSend_muted (cfg : Config) (e : entry) :
  Js.truthy (postPatchMail cfg) = false \/
  prop e "preMail" = VBool false \/
  prop e "smtpEnabled" = VBool false ->
  shouldSend cfg (Some e) = false.
Proof.
  intros H. unfold shouldSend.
  destruct (Js.truthy (postPatchMail cfg)); simpl; [|reflexivity].
  destruct H as [H | [H | H]]; [discriminate | |]; rewrite H; simpl.
  - now destruct (Js.truthy (prop e "postMailSent")).
  - destruct (Js.truthy (prop e "postMailSent")); [reflexivity|].
    now destruct (Js.typeof_boolean (prop e "preMail") && _).
Qed.

(** What [markSent] does to the store and to the table. *)
Lemma markSent_actions (w : TickWorld) (id : string) (m : Machine) :
  actions (markSent StringToNumber w id m)
  = match actions m !! id with
    | Some e => <[id := <["postMailSent" := VBool true]> e]> (actions m)
    | None => actions m
    end.
Proof.
  unfold markSent.
  destruct (actions m !! id); destruct (markPoolFault w id);
    destruct (sqlInt (StringToNumber id)); destruct (markFault w id); reflexivity.
Qed.

Lemma markSent_trace (w : TickWorld) (id : string) (m : Machine) :
  let done := durablyMarked StringToNumber w id in
  trace (markSent StringToNumber w id m)
  = trace m ++ (match actions m !! id with
                | Some _ => [EvMarkMemory id]
                | None => []
                end) ++ [EvHistoryMark (StringToNumber id) done] /\
  (done = true ->
   exists k, sqlInt (StringToNumber id) = Some k /\
             ActionHistory (markSent StringToNumber w id m)
             = map (markRow k) (ActionHistory m)) /\
  (done = false ->
   ActionHistory (markSent StringToNumber w id m) = ActionHistory m).
Proof.
  unfold markSent, durablyMarked.
  set (m1 := match actions m !! id with
             | Some e => emit (EvMarkMemory id) (setActions _ m)
             | None => m
             end).
  assert (trace m1 = trace m ++ match actions m !! id with
                                | Some _ => [EvMarkMemory id]
                                | None => []
                                end) as Ht.
  { subst m1. destruct (actions m !! id); simpl; [reflexivity | now rewrite app_nil_r]. }
  assert (ActionHistory m1 = ActionHistory m) as Hrows.
  { subst m1. now destruct (actions m !! id). }
  destruct (markPoolFault w id);
    [|destruct (sqlInt (StringToNumber id)) as [k|];
      [destruct (markFault w id)|]];
    simpl; rewrite Ht, <- app_assoc, ?Hrows;
    (split; [reflexivity|]); (split; [|]); intros H; try discriminate H;
    try reflexivity.
  now exists k.
Qed.

Lemma markRow_other (k : Z) (r : HistoryRow) : ActionID r <> k -> markRow k r = r.
Proof.
  intros H. unfold markRow. destruct (ActionID r =? k) eqn:E; [|reflexivity].
  apply Z.eqb_eq in E. contradiction.
Qed.

Lemma markSent_untouched (w : TickWorld) (id id' : string) (m : Machine) :
  id' <> id -> untouched id m (markSent StringToNumber w id' m).
Proof.
  intros Hne. split.
  - rewrite markSent_actions. destruct (actions m !! id'); [|reflexivity].
    now rewrite lookup_insert_ne.
  - destruct (markSent_trace w id' m) as (Ht & _).
    eexists. split; [exact Ht|].
    apply Forall_app. split.
    + destruct (actions m !! id'); constructor; [|constructor].
      simpl. now apply eqb_neq_str.
    + constructor; [reflexivity | constructor].
Qed.

Lemma markSent_sameKeys (w : TickWorld) (id : string) (m : Machine) :
  sameKeys m (markSent StringToNumber w id m).
Proof.
  intros i. rewrite markSent_actions.
  destruct (actions m !! id) as [e|] eqn:He; [|reflexivity].
  destruct (decide (id = i)) as [<-|Hne].
  - rewrite lookup_insert_eq, He. split; eauto.
  - now rewrite lookup_insert_ne.
Qed.

Lemma markSent_rowsKept (w : TickWorld) (id : string) (k : Z) (m : Machine) :
  StringToNumber id <> Fin k -> rowsKept k m (markSent StringToNumber w id m).
Proof.
  intros Hne r Hr Hk Hflag.
  destruct (markSent_trace w id m) as (_ & Hdone & Hnot).
  destruct (durablyMarked StringToNumber w id).
  - destruct (Hdone eq_refl) as (k' & Hk' & ->).
    apply sqlInt_Some in Hk'.
    apply in_map_iff. exists r. split; [|assumption].
    apply markRow_other. congruence.
  - now rewrite (Hnot eq_refl).
Qed.

(** One visit of the loop leaves alone every record it does not process. *)
Lemma tickBody_skipped (cfg : Config) (w : TickWorld) (id : string) (m : Machine) :
  shouldSend cfg (actions m !! id) = false ->
  tickBody StringToNumber cfg w id m = (m, true).
Proof. intros H. unfold tickBody. now rewrite H. Qed.

Lemma tickBody_untouched (cfg : Config) (w : TickWorld) (id id' : string)
    (m : Machine) :
  shouldSend cfg (actions m !! id) = false ->
  untouched id m (fst (tickBody StringToNumber cfg w id' m)).
Proof.
  intros Hskip. destruct (decide (id' = id)) as [->|Hne].
  - rewrite tickBody_skipped by assumption. apply untouched_refl.
  - unfold tickBody.
    destruct (negb (shouldSend cfg (actions m !! id'))); [apply untouched_refl|].
    assert (untouched id m (emit (EvStatus id') m)) as H1.
    { apply untouched_emit. simpl. now apply eqb_neq_str. }
    destruct (statusAnswer w id') as [msg | st text]; [exact H1|].
    destruct (negb (is2xx st) || negb (JsString.nonempty text)); [exact H1|].
    destruct (negb (String.eqb _ _)); [exact H1|].
    simpl. set (m1 := emit (EvStatus id') m) in *.
    set (m2 := emit (EvResults id') m1).
    set (m3 := emit (EvPostMail id' (delivered w id')) m2).
    apply untouched_trans with m1; [exact H1|].
    apply untouched_trans with m2;
      [apply untouched_emit; simpl; now apply eqb_neq_str|].
    apply untouched_trans with m3;
      [apply untouched_emit; simpl; now apply eqb_neq_str|].
    now apply markSent_untouched.
Qed.

Lemma tickLoop_untouched (cfg : Config) (w : TickWorld) (id : string)
    (ids : list string) (m : Machine) :
  shouldSend cfg (actions m !! id) = false ->
  untouched id m (tickLoop StringToNumber cfg w ids m).
Proof.
  revert m. induction ids as [|id' rest IH]; intros m Hskip; simpl.
  - apply untouched_refl.
  - pose proof (tickBody_untouched cfg w id id' m Hskip) as Hb.
    destruct (tickBody StringToNumber cfg w id' m) as [m' [|]]; simpl in Hb.
    + eapply untouched_trans; [exact Hb|]. apply IH.
      destruct Hb as [-> _]. exact Hskip.
    + exact Hb.
Qed.

Lemma tickBody_sameKeys (cfg : Config) (w : TickWorld) (id : string) (m : Machine) :
  sameKeys m (fst (tickBody StringToNumber cfg w id m)).
Proof.
  unfold tickBody.
  destruct (negb (shouldSend cfg (actions m !! id))); [apply sameKeys_refl|].
  destruct (statusAnswer w id) as [msg | st text]; [now apply sameKeys_actions|].
  destruct (negb (is2xx st) || negb (JsString.nonempty text));
    [now apply sameKeys_actions|].
  destruct (negb (String.eqb _ _)); [now apply sameKeys_actions|].
  simpl. intros i. rewrite (markSent_sameKeys w id _ i). reflexivity.
Qed.

Lemma tickLoop_sameKeys (cfg : Config) (w : TickWorld) (ids : list string)
    (m : Machine) :
  sameKeys m (tickLoop StringToNumber cfg w ids m).
Proof.
  revert m. induction ids as [|id rest IH]; intros m; simpl.
  - apply sameKeys_refl.
  - pose proof (tickBody_sameKeys cfg w id m) as Hb.
    destruct (tickBody StringToNumber cfg w id m) as [m' [|]]; simpl in Hb.
    + eapply sameKeys_trans; [exact Hb | apply IH].
    + exact Hb.
Qed.

Lemma shouldSend_present (cfg : Config) (o : option entry) :
  shouldSend cfg o = true -> is_Some o.
Proof.
  unfold shouldSend. destruct (negb _); [discriminate|].
  destruct o; [eauto | discriminate].
Qed.

Lemma tickBody_rowsKept (cfg : Config) (w : TickWorld) (id id' : string) (k : Z)
    (m : Machine) :
  shouldSend cfg (actions m !! id) = false ->
  (forall i, is_Some (actions m !! i) ->
             StringToNumber i = StringToNumber id -> i = id) ->
  StringToNumber id = Fin k ->
  rowsKept k m (fst (tickBody StringToNumber cfg w id' m)).
Proof.
  intros Hskip Hinj Hk. destruct (decide (id' = id)) as [->|Hne].
  - rewrite tickBody_skipped by assumption. apply rowsKept_refl.
  - unfold tickBody.
    destruct (shouldSend cfg (actions m !! id')) eqn:Hs; simpl;
      [|apply rowsKept_refl].
    destruct (statusAnswer w id') as [msg | st text]; [now apply rowsKept_rows|].
    destruct (negb (is2xx st) || negb (JsString.nonempty text));
      [now apply rowsKept_rows|].
    destruct (negb (String.eqb _ _)); [now apply rowsKept_rows|].
    simpl. intros r Hr. apply markSent_rowsKept; [|exact Hr].
    intros Heq. apply Hne. apply Hinj.
    + now apply shouldSend_present in Hs.
    + congruence.
Qed.

Lemma tickLoop_rowsKept (cfg : Config) (w : TickWorld) (id : string) (k : Z)
    (ids : list string) (m : Machine) :
  shouldSend cfg (actions m !! id) = false ->
  (forall i, is_Some (actions m !! i) ->
             StringToNumber i = StringToNumber id -> i = id) ->
  StringToNumber id = Fin k ->
  rowsKept k m (tickLoop StringToNumber cfg w ids m).
Proof.
  revert m. induction ids as [|id' rest IH]; intros m Hskip Hinj Hk; simpl.
  - apply rowsKept_refl.
  - pose proof (tickBody_rowsKept cfg w id id' k m Hskip Hinj Hk) as Hb.
    pose proof (tickBody_untouched cfg w id id' m Hskip) as Hu.
    pose proof (tickBody_sameKeys cfg w id' m) as Hd.
    destruct (tickBody StringToNumber cfg w id' m) as [m' [|]];
      simpl in Hb, Hu, Hd; [|exact Hb].
    eapply rowsKept_trans; [exact Hb|]. apply IH; [| |exact Hk].
    + destruct Hu as [-> _]. exact Hskip.
    + intros i Hi. apply Hinj. now apply Hd.
Qed.

End TickFacts.

(** ** Trigger requests and the records of other actions *)

Section TriggerFacts.

Variable StringToNumber : string -> number.
Variable JSONstringify : value -> string.
Variable extractActionIdFromXml : string -> option string.
Variable sqlEq : string -> string -> bool.

Lemma trigger_untouched (w : TriggerWorld) (a : TriggerArgs) (id : string) :
  issuesOther extractActionIdFromXml id (JobTrigger w false "" VUndefined) ->
  stable (untouched id)
    (triggerBaselineAction StringToNumber JSONstringify extractActionIdFromXml
       sqlEq w a).
Proof.
  simpl. intros Hother. unfold triggerBaselineAction, receiver, selfHeal, historyInsert.
  repeat stable_step.
  all: try (apply untouched_emit; reflexivity).
  all: try (split; [reflexivity | now apply emits_trace]).
  split; [|now apply emits_trace].
  simpl. apply lookup_insert_ne.
  match goal with
  | H : submitAnswer w = HttpResp _ _ |- _ => rewrite H in Hother
  end.
  congruence.
Qed.

(** The route emits no watcher event, and writes the store only at the
    identifier the submission was answered with. *)
Lemma handler_untouched (w : TriggerWorld) (isForced : bool) (environment : string)
    (reqBody : value) (id : string) :
  issuesOther extractActionIdFromXml id (JobTrigger w isForced environment reqBody) ->
  stable (untouched id)
    (handleStageTrigger StringToNumber JSONstringify extractActionIdFromXml
       sqlEq w isForced environment reqBody).
Proof.
  intros Hother. unfold handleStageTrigger, changeGate.
  repeat stable_step.
  all: try (apply untouched_emit; reflexivity).
  now apply trigger_untouched.
Qed.

End TriggerFacts.

(** ** Records over the life of the process *)

Section ProcessFacts.

Variable StringToNumber : string -> number.
Variable JSONstringify : value -> string.
Variable JSONparse : string -> option value.
Variable extractActionIdFromXml : string -> option string.
Variable sqlEq : string -> string -> bool.
Variable ownKeys : gmap string entry -> list string.

Lemma cleanup_trace (cfg : Config) (w : SqlWorld) (m : Machine) :
  trace (cleanupOldActions StringToNumber cfg w m) = trace m \/
  exists n done,
    trace (cleanupOldActions StringToNumber cfg w m)
    = trace m ++ [EvHistoryCleanup n done].
Proof.
  unfold cleanupOldActions.
  repeat match goal with
         | |- context [match ?x with _ => _ end] => destruct x
         end; simpl; eauto.
Qed.

Lemma cleanup_untouched (cfg : Config) (w : SqlWorld) (id : string) (m : Machine) :
  untouched id m (cleanupOldActions StringToNumber cfg w m).
Proof.
  split.
  - now rewrite cleanup_actions.
  - destruct (cleanup_trace cfg w m) as [H | (n & done & H)].
    + now apply emits_trace.
    + exists [EvHistoryCleanup n done]. split; [exact H|].
      now repeat constructor.
Qed.

Lemma cleanup_rowsKept (cfg : Config) (w : SqlWorld) (k : Z) (m : Machine) :
  rowsKept k m (cleanupOldActions StringToNumber cfg w m).
Proof.
  intros r Hr _ Hflag. now apply cleanup_keeps_unsent.
Qed.

Lemma step_untouched (j : job) (id : string) (m : Machine) :
  (forall cfg, shouldSend cfg (actions m !! id) = false) ->
  issuesOther extractActionIdFromXml id j ->
  untouched id m (runJob StringToNumber JSONstringify extractActionIdFromXml
             sqlEq ownKeys m j).
Proof.
  intros Hskip Hother. destruct j as [cfg w | cfg w | w f env b]; simpl.
  - apply tickLoop_untouched. apply Hskip.
  - apply cleanup_untouched.
  - now apply handler_untouched.
Qed.

(** C10. A record is muted at a tick when the global postPatchMail switch is
    off at that tick, or the record carries preMail false or smtpEnabled
    false. Over any sequence of ticks at which the record is muted, and of
    cleanup runs, the watcher never polls its status, never fetches results,
    never attempts its notification and never sets its flag; and when the
    identifier names one action only, its unfinalized rows of the durable
    store are neither marked nor deleted. *)
Theorem muted_record_is_never_processed
    (js : list job) (m : Machine) (id : string) (e : entry) :
  actions m !! id = Some e ->
  Forall (mutedAt e) js ->
  let m' := runJobs StringToNumber JSONstringify extractActionIdFromXml sqlEq
                    ownKeys js m in
  actions m' !! id = Some e /\
  (exists t, trace m' = trace m ++ t /\
             Forall (fun ev => concerns id ev = false) t) /\
  (forall k,
     StringToNumber id = Fin k ->
     (forall i, is_Some (actions m !! i) ->
                StringToNumber i = StringToNumber id -> i = id) ->
     forall r, In r (ActionHistory m) -> ActionID r = k ->
               PostMailSent r <> Some true -> In r (ActionHistory m')).
Proof.
  intros He Hjs m'. subst m'.
  enough (untouched id m (runJobs StringToNumber JSONstringify extractActionIdFromXml
             sqlEq ownKeys js m) /\
          (forall k, StringToNumber id = Fin k ->
             (forall i, is_Some (actions m !! i) ->
                        StringToNumber i = StringToNumber id -> i = id) ->
             rowsKept k m (runJobs StringToNumber JSONstringify extractActionIdFromXml
             sqlEq ownKeys js m))) as [[Ha Ht] Hrows].
  { split; [now rewrite Ha | split; [exact Ht | exact Hrows]]. }
  revert m He. induction Hjs as [|j js Hj _ IH]; intros m He; simpl.
  - split; [apply untouched_refl | intros; apply rowsKept_refl].
  - assert (untouched id m (runJob StringToNumber JSONstringify extractActionIdFromXml
             sqlEq ownKeys m j) /\ sameKeys m (runJob StringToNumber JSONstringify extractActionIdFromXml
             sqlEq ownKeys m j) /\
            (forall k, StringToNumber id = Fin k ->
               (forall i, is_Some (actions m !! i) ->
                          StringToNumber i = StringToNumber id -> i = id) ->
               rowsKept k m (runJob StringToNumber JSONstringify extractActionIdFromXml
             sqlEq ownKeys m j))) as (Hu & Hd & Hr).
    { destruct j as [cfg w | cfg w | w f env b]; simpl in *; [| |contradiction].
      - assert (shouldSend cfg (actions m !! id) = false) as Hskip.
        { rewrite He. now apply shouldSend_muted. }
        split; [now apply tickLoop_untouched|].
        split; [apply tickLoop_sameKeys|].
        intros k Hk Hinj. now apply tickLoop_rowsKept with (id := id).
      - split; [apply cleanup_untouched|].
        split; [apply sameKeys_actions, cleanup_actions|].
        intros k _ _. apply cleanup_rowsKept. }
    assert (actions (runJob StringToNumber JSONstringify extractActionIdFromXml
             sqlEq ownKeys m j) !! id = Some e) as He'.
    { destruct Hu as [-> _]. exact He. }
    destruct (IH _ He') as [Hu' Hr'].
    split; [eapply untouched_trans; eassumption|].
    intros k Hk Hinj. eapply rowsKept_trans; [now apply Hr|].
    apply Hr'; [exact Hk|]. intros i Hi. apply Hinj. now apply Hd.
Qed.

End ProcessFacts.

Lemma lookup_default (acts : gmap string entry) (id : string) :
  from_option (fun _ => true) false (acts !! id) = true ->
  acts !! id = Some (default ∅ (acts !! id)).
Proof. destruct (acts !! id); [reflexivity | discriminate]. Qed.

Lemma finalizedEntry_lookup : actions finalizedMachine !! "77" = Some finalizedEntry.
Proof. apply lookup_default. vm_compute. reflexivity. Qed.

Lemma silentEntry_lookup : actions silentMachine !! "77" = Some silentEntry.
Proof. apply lookup_default. vm_compute. reflexivity. Qed.

Lemma muted_record_is_never_processed_witness :
  actions (runJobs readDecimal writeJson readActionId String.eqb keysOf
             watcherJobs silentMachine) !! "77" = Some silentEntry.
Proof.
  assert (prop silentEntry "preMail" = VBool false) as Hpre.
  { vm_compute. reflexivity. }
  assert (Forall (mutedAt silentEntry) watcherJobs) as Hjobs.
  { repeat constructor; right; left; exact Hpre. }
  exact (proj1 (muted_record_is_never_processed readDecimal writeJson
                  readActionId String.eqb keysOf watcherJobs silentMachine
                  "77" silentEntry silentEntry_lookup Hjobs)).
Defined.

(** ** Finalization within a tick *)

Section FinalizationFacts.

Variable StringToNumber : string -> number.
Variable ownKeys : gmap string entry -> list string.

Lemma flagged_shouldSend (cfg : Config) (id : string) (m : Machine) :
  flagged id m -> shouldSend cfg (actions m !! id) = false.
Proof.
  intros (e & -> & Hflag). apply shouldSend_sent. now rewrite Hflag.
Qed.

Lemma flagged_tickBody (cfg : Config) (w : TickWorld) (id id' : string)
    (m : Machine) :
  flagged id m -> flagged id (fst (tickBody StringToNumber cfg w id' m)).
Proof.
  intros Hf.
  destruct (tickBody_untouched StringToNumber cfg w id id' m
              (flagged_shouldSend cfg id m Hf)) as [Ha _].
  destruct Hf as (e & He & Hflag). exists e. split; [congruence | exact Hflag].
Qed.

Lemma rowsMarked_map (n : number) (k' : Z) (m m' : Machine) :
  ActionHistory m' = map (markRow k') (ActionHistory m) ->
  rowsMarked n m -> rowsMarked n m'.
Proof.
  intros Hrows Hm k r Hk Hr Hid. rewrite Hrows in Hr.
  apply in_map_iff in Hr as (r0 & <- & Hr0).
  unfold markRow in *. destruct (ActionID r0 =? k'); [reflexivity|].
  now apply (Hm k).
Qed.

Lemma rowsMarked_same (n : number) (m m' : Machine) :
  ActionHistory m' = ActionHistory m -> rowsMarked n m -> rowsMarked n m'.
Proof. intros Hrows Hm k r Hk Hr. rewrite Hrows in Hr. now apply Hm. Qed.

Lemma markSent_rows (w : TickWorld) (id : string) (m : Machine) :
  ActionHistory (markSent StringToNumber w id m) = ActionHistory m \/
  exists k, ActionHistory (markSent StringToNumber w id m)
            = map (markRow k) (ActionHistory m).
Proof.
  destruct (markSent_trace StringToNumber w id m) as (_ & Hdone & Hnot).
  destruct (durablyMarked StringToNumber w id).
  - right. destruct (Hdone eq_refl) as (k & _ & H). eauto.
  - left. now apply Hnot.
Qed.

Lemma tickBody_rows (cfg : Config) (w : TickWorld) (id : string) (m : Machine) :
  ActionHistory (fst (tickBody StringToNumber cfg w id m)) = ActionHistory m \/
  exists k, ActionHistory (fst (tickBody StringToNumber cfg w id m))
            = map (markRow k) (ActionHistory m).
Proof.
  unfold tickBody.
  destruct (negb (shouldSend cfg (actions m !! id))); [now left|].
  destruct (statusAnswer w id) as [msg | st text]; [now left|].
  destruct (negb (is2xx st) || negb (JsString.nonempty text)); [now left|].
  destruct (negb (String.eqb _ _)); [now left|].
  simpl. apply (markSent_rows w id (emit _ (emit _ (emit _ m)))).
Qed.

Lemma rowsMarked_tickBody (cfg : Config) (w : TickWorld) (id : string) (n : number)
    (m : Machine) :
  rowsMarked n m -> rowsMarked n (fst (tickBody StringToNumber cfg w id m)).
Proof.
  intros Hm. destruct (tickBody_rows cfg w id m) as [H | (k & H)].
  - now apply rowsMarked_same with m.
  - now apply rowsMarked_map with k m.
Qed.

Lemma markSent_rowsMarked (w : TickWorld) (id : string) (m : Machine) (k : Z) :
  ActionHistory (markSent StringToNumber w id m) = map (markRow k) (ActionHistory m) ->
  sqlInt (StringToNumber id) = Some k ->
  rowsMarked (StringToNumber id) (markSent StringToNumber w id m).
Proof.
  intros Hrows Hk k' r Hk' Hr Hid. rewrite Hrows in Hr.
  apply in_map_iff in Hr as (r0 & <- & Hr0).
  assert (k' = k) as -> by congruence.
  unfold markRow in *. destruct (ActionID r0 =? k) eqn:E; [reflexivity|].
  apply Z.eqb_neq in E. contradiction.
Qed.

(** One visit of the loop, case by case. *)
Lemma tickBody_cases (cfg : Config) (w : TickWorld) (id : string) (m : Machine) :
  let m' := fst (tickBody StringToNumber cfg w id m) in
  trace m' = trace m \/
  (terminal (statusAnswer w id) = false /\ trace m' = trace m ++ [EvStatus id]) \/
  (terminal (statusAnswer w id) = true /\
   trace m' = trace m ++ finalization StringToNumber w id /\
   flagged id m' /\
   (durablyMarked StringToNumber w id = true ->
    rowsMarked (StringToNumber id) m')).
Proof.
  unfold tickBody.
  destruct (shouldSend cfg (actions m !! id)) eqn:Hs; simpl; [|now left].
  unfold terminal.
  destruct (statusAnswer w id) as [msg | st text]; simpl; [right; left; now split|].
  destruct (is2xx st); simpl; [|right; left; now split].
  destruct (JsString.nonempty text); simpl; [|right; left; now split].
  destruct (String.eqb _ _); simpl; [|right; left; now split].
  right; right. split; [reflexivity|].
  set (m3 := emit _ (emit _ (emit _ m))).
  apply shouldSend_present in Hs as [e He].
  assert (actions m3 !! id = Some e) as He3 by exact He.
  destruct (markSent_trace StringToNumber w id m3) as (Ht & Hdone & _).
  rewrite He3 in Ht. split; [|split].
  - rewrite Ht. subst m3. simpl. now rewrite <- !app_assoc.
  - exists (<["postMailSent" := VBool true]> e). split.
    + rewrite markSent_actions, He3. apply lookup_insert_eq.
    + unfold prop. now rewrite lookup_insert_eq.
  - intros Hd. destruct (Hdone Hd) as (k & Hk & Hrows).
    now apply markSent_rowsMarked with k.
Qed.

Lemma flagged_tickLoop (cfg : Config) (w : TickWorld) (id : string)
    (ids : list string) (m : Machine) :
  flagged id m -> flagged id (tickLoop StringToNumber cfg w ids m).
Proof.
  revert m. induction ids as [|id' rest IH]; intros m Hf; simpl; [exact Hf|].
  pose proof (flagged_tickBody cfg w id id' m Hf) as Hb.
  destruct (tickBody StringToNumber cfg w id' m) as [m2 [|]]; simpl in Hb;
    [now apply IH | exact Hb].
Qed.

Lemma rowsMarked_tickLoop (cfg : Config) (w : TickWorld) (n : number)
    (ids : list string) (m : Machine) :
  rowsMarked n m -> rowsMarked n (tickLoop StringToNumber cfg w ids m).
Proof.
  revert m. induction ids as [|id' rest IH]; intros m Hn; simpl; [exact Hn|].
  pose proof (rowsMarked_tickBody cfg w id' n m Hn) as Hb.
  destruct (tickBody StringToNumber cfg w id' m) as [m2 [|]]; simpl in Hb;
    [now apply IH | exact Hb].
Qed.

(** What a tick adds to the trace, and what it leaves in the stores. *)
Lemma tickLoop_trace (cfg : Config) (w : TickWorld) (ids : list string)
    (m : Machine) :
  exists t,
    trace (tickLoop StringToNumber cfg w ids m) = trace m ++ t /\
    tickTrace StringToNumber w t /\
    (forall id, In (EvMarkMemory id) t ->
                flagged id (tickLoop StringToNumber cfg w ids m)) /\
    (forall id, In (EvMarkMemory id) t ->
                durablyMarked StringToNumber w id = true ->
                rowsMarked (StringToNumber id)
                           (tickLoop StringToNumber cfg w ids m)).
Proof.
  revert m. induction ids as [|id rest IH]; intros m; simpl.
  - exists []. rewrite app_nil_r. repeat split; try constructor; intros ? [].
  - pose proof (tickBody_cases cfg w id m) as Hcases. simpl in Hcases.
    destruct (tickBody StringToNumber cfg w id m) as [m1 continue] eqn:Hbody.
    simpl in Hcases.
    set (m' := if continue then tickLoop StringToNumber cfg w rest m1 else m1).
    assert (exists t', trace m' = trace m1 ++ t' /\
                       tickTrace StringToNumber w t' /\
                       (forall i, In (EvMarkMemory i) t' -> flagged i m') /\
                       (forall i, In (EvMarkMemory i) t' ->
                                  durablyMarked StringToNumber w i = true ->
                                  rowsMarked (StringToNumber i) m'))
      as (t' & Ht' & Htt & Hmem & Hdb).
    { subst m'. destruct continue; [apply IH|].
      exists []. rewrite app_nil_r. repeat split; try constructor; intros ? []. }
    assert (forall i, flagged i m1 -> flagged i m') as Hfl.
    { intros i Hi. subst m'. destruct continue; [now apply flagged_tickLoop | exact Hi]. }
    assert (forall n, rowsMarked n m1 -> rowsMarked n m') as Hrm.
    { intros n Hn. subst m'. destruct continue; [now apply rowsMarked_tickLoop | exact Hn]. }
    assert ((let (m2, continue2) := (m1, continue) in
             if continue2 then tickLoop StringToNumber cfg w rest m2 else m2) = m')
      as Hm' by reflexivity.
    replace (match continue with
             | true => tickLoop StringToNumber cfg w rest m1
             | false => m1
             end) with m' by (subst m'; now destruct continue).
    destruct Hcases as [H | [[Hterm H] | (Hterm & H & Hflag & Hrows)]];
      rewrite H in Ht'.
    + exists t'. auto.
    + exists (EvStatus id :: t'). rewrite <- app_assoc in Ht'.
      split; [exact Ht'|]. split; [now constructor|].
      split; intros x [Hx | Hx]; try discriminate Hx; auto.
    + exists (finalization StringToNumber w id ++ t').
      rewrite <- app_assoc in Ht'.
      split; [exact Ht'|]. split; [now constructor|].
      split.
      * intros i Hi. apply in_app_or in Hi as [Hi | Hi]; [|now apply Hmem].
        simpl in Hi.
        destruct Hi as [Hi|[Hi|[Hi|[Hi|[Hi|[]]]]]]; try discriminate Hi.
        injection Hi as <-. now apply Hfl.
      * intros i Hi Hd. apply in_app_or in Hi as [Hi | Hi]; [|now apply Hdb].
        simpl in Hi.
        destruct Hi as [Hi|[Hi|[Hi|[Hi|[Hi|[]]]]]]; try discriminate Hi.
        injection Hi as <-. apply Hrm. now apply Hrows.
Qed.

(** In the trace of a tick the mark in memory comes right after the
    notification attempt of the same record. *)
Lemma tickTrace_mark_after_mail (w : TickWorld) (t : list event) :
  tickTrace StringToNumber w t ->
  forall id pre post,
    t = pre ++ EvMarkMemory id :: post ->
    exists pre', pre = pre' ++ [EvPostMail id (delivered w id)].
Proof.
  induction 1 as [|i rest Hterm Hrest IH | i rest Hterm Hrest IH];
    intros id pre post Heq.
  - now destruct pre.
  - destruct pre as [|x pre]; [discriminate Heq|].
    injection Heq as Hx Heq; subst x.
    destruct (IH _ _ _ Heq) as (pre' & ->). now exists (EvStatus i :: pre').
  - unfold finalization in Heq. simpl in Heq.
    destruct pre as [|x1 pre]; [discriminate Heq|].
    injection Heq as Hx Heq; subst x1.
    destruct pre as [|x2 pre]; [discriminate Heq|].
    injection Heq as Hx Heq; subst x2.
    destruct pre as [|x3 pre]; [discriminate Heq|].
    injection Heq as Hx Heq; subst x3.
    destruct pre as [|x4 pre].
    { injection Heq as Hx _; subst id. now exists [EvStatus i; EvResults i]. }
    injection Heq as Hx Heq; subst x4.
    destruct pre as [|x5 pre]; [discriminate Heq|].
    injection Heq as Hx Heq; subst x5.
    destruct (IH _ _ _ Heq) as (pre' & ->).
    now exists (EvStatus i :: EvResults i :: EvPostMail i (delivered w i)
                  :: EvMarkMemory i
                  :: EvHistoryMark (StringToNumber i)
                       (durablyMarked StringToNumber w i) :: pre').
Qed.

(** A poll that meets the terminal status is followed by the whole
    finalization. *)
Lemma tickTrace_terminal (w : TickWorld) (t : list event) (id : string) :
  tickTrace StringToNumber w t ->
  In (EvStatus id) t ->
  terminal (statusAnswer w id) = true ->
  exists pre post, t = pre ++ finalization StringToNumber w id ++ post.
Proof.
  intros Ht Hin Hterm.
  induction Ht as [|i rest Hi Hrest IH | i rest Hi Hrest IH].
  - destruct Hin.
  - destruct Hin as [Hin | Hin].
    + injection Hin as ->. congruence.
    + destruct (IH Hin) as (pre & post & ->).
      now exists (EvStatus i :: pre), post.
  - apply in_app_or in Hin as [Hin | Hin].
    + simpl in Hin.
      destruct Hin as [Hin|[Hin|[Hin|[Hin|[Hin|[]]]]]]; try discriminate Hin.
      injection Hin as ->. now exists [], rest.
    + destruct (IH Hin) as (pre & post & ->).
      exists (finalization StringToNumber w i ++ pre), post.
      now rewrite <- app_assoc.
Qed.

(** C2. In a tick, the mark of a record in memory comes right after the
    notification attempt for that record, never before it; and when the tick
    polls a record and meets the terminal status, it fetches the results,
    attempts the notification once, and then marks the record, in memory
    always and in the durable store when that write goes through, whether
    the notification was delivered or the attempt threw. *)
Theorem expired_record_is_notified_then_marked
    (cfg : Config) (w : TickWorld) (m : Machine) (id : string) (t : list event) :
  trace (tick StringToNumber ownKeys cfg w m) = trace m ++ t ->
  (forall pre post,
     t = pre ++ EvMarkMemory id :: post ->
     exists pre', pre = pre' ++ [EvPostMail id (delivered w id)]) /\
  (In (EvStatus id) t ->
   terminal (statusAnswer w id) = true ->
   (exists pre post, t = pre ++ finalization StringToNumber w id ++ post) /\
   flagged id (tick StringToNumber ownKeys cfg w m) /\
   (durablyMarked StringToNumber w id = true ->
    rowsMarked (StringToNumber id) (tick StringToNumber ownKeys cfg w m))).
Proof.
  intros Ht. unfold tick in *.
  destruct (tickLoop_trace cfg w (ownKeys (actions m)) m)
    as (t0 & Ht0 & Htt & Hmem & Hdb).
  assert (t0 = t) as -> by (rewrite Ht0 in Ht; now apply app_inv_head in Ht).
  split.
  - now apply tickTrace_mark_after_mail.
  - intros Hin Hterm.
    destruct (tickTrace_terminal w t id Htt Hin Hterm) as (pre & post & Heq).
    assert (In (EvMarkMemory id) t) as Hmark.
    { rewrite Heq. apply in_or_app. right. apply in_or_app. left.
      simpl. tauto. }
    split; [now exists pre, post|]. split; [now apply Hmem|].
    intros Hd. now apply Hdb.
Qed.

End FinalizationFacts.

Lemma expired_record_is_notified_then_marked_witness :
  delivered expiredWorld "77" = false /\
  flagged "77" finalizedMachine /\
  rowsMarked (readDecimal "77") finalizedMachine.
Proof.
  split; [reflexivity|].
  assert (trace finalizedMachine
          = trace triggeredMachine ++ finalization readDecimal expiredWorld "77")
    as Ht by (vm_compute; reflexivity).
  destruct (expired_record_is_notified_then_marked readDecimal keysOf switchOn
              expiredWorld triggeredMachine "77" _ Ht) as [_ H].
  destruct H as (_ & Hflag & Hrows).
  - left. reflexivity.
  - reflexivity.
  - split; [exact Hflag | apply Hrows; reflexivity].
Defined.

(** ** Strings *)

Lemma str_app_assoc (a b c : string) : (a +:+ b) +:+ c = a +:+ (b +:+ c).
Proof. induction a as [|x a IH]; simpl; [reflexivity | now rewrite IH]. Qed.

Lemma str_app_nil_r (a : string) : a +:+ "" = a.
Proof. induction a as [|x a IH]; simpl; [reflexivity | now rewrite IH]. Qed.

Lemma toLowerCase_app (a b : string) :
  JsString.toLowerCase (a +:+ b) = JsString.toLowerCase a +:+ JsString.toLowerCase b.
Proof. induction a as [|x a IH]; simpl; [reflexivity | now rewrite IH]. Qed.

Lemma toLowerCase_split (s a b : string) :
  JsString.toLowerCase s = a +:+ b ->
  exists s1 s2, s = s1 +:+ s2 /\ JsString.toLowerCase s1 = a /\
                JsString.toLowerCase s2 = b.
Proof.
  revert s. induction a as [|x a IH]; intros s H.
  - exists "", s. now repeat split.
  - destruct s as [|c s]; [discriminate H|]. simpl in H.
    injection H as Hc H. destruct (IH s H) as (s1 & s2 & -> & H1 & H2).
    exists (String c s1), s2. simpl. now rewrite Hc, H1.
Qed.

Lemma startsWith_spec (p s : string) :
  JsString.startsWith p s = true <-> exists post, s = p +:+ post.
Proof.
  revert s. induction p as [|a p IH]; intros s; simpl.
  - split; [intros _; now exists s | reflexivity].
  - destruct s as [|b s].
    + split; [discriminate | now intros (post & H)].
    + rewrite andb_true_iff, Ascii.eqb_eq, IH. split.
      * intros [-> (post & ->)]. now exists post.
      * intros (post & H). injection H as -> ->. split; eauto.
Qed.

Lemma includes_spec (p s : string) :
  JsString.includes p s = true <-> exists pre post, s = pre +:+ p +:+ post.
Proof.
  induction s as [|c s IH]; simpl.
  - rewrite orb_false_r, startsWith_spec. split.
    + intros (post & H). now exists "", post.
    + intros (pre & post & H). destruct pre; [now exists post | discriminate H].
  - rewrite orb_true_iff, startsWith_spec, IH. split.
    + intros [(post & H) | (pre & post & ->)].
      * now exists "", post.
      * now exists (String c pre), post.
    + intros (pre & post & H). destruct pre as [|x pre].
      * left. now exists post.
      * right. injection H as _ ->. now exists pre, post.
Qed.

(** [includes] on the lower-cased label is the substring test without
    case. *)
Lemma includes_lower_occursCI (needle hay : string) :
  JsString.includes (JsString.toLowerCase needle) (JsString.toLowerCase hay) = true
  <-> occursCI needle hay.
Proof.
  rewrite includes_spec. split.
  - intros (pre & post & H).
    apply toLowerCase_split in H as (s1 & s2 & -> & _ & H).
    apply toLowerCase_split in H as (s3 & s4 & -> & H & _).
    now exists s1, s3, s4.
  - intros (pre & mid & post & -> & H).
    exists (JsString.toLowerCase pre), (JsString.toLowerCase post).
    now rewrite !toLowerCase_app, H.
Qed.

Lemma toLowerSafe_string (s : string) : toLowerSafe (VStr s) = JsString.toLowerCase s.
Proof. unfold toLowerSafe, Js.or. now destruct s. Qed.

(** ** Self-healing of the group lookup *)

Section ResolverFacts.

Variable StringToNumber : string -> number.
Variable JSONstringify : value -> string.
Variable extractActionIdFromXml : string -> option string.
Variable sqlEq : string -> string -> bool.

Lemma ghost_not_notFound (groupName : string) :
  ghostMessage groupName <> notFoundMessage groupName.
Proof.
  unfold ghostMessage, notFoundMessage. intros H.
  apply (String.app_inj "Group ") in H. apply (String.app_inj squote) in H.
  apply (String.app_inj groupName) in H. discriminate H.
Qed.

(** C7. When the baseline resolves and the upstream lookup of the group
    answers with an empty result set, and the ownership table can be queried:
    if the table has a Group row of that name, every such row is deleted and
    the operation fails with the message that the group was deleted from the
    console and has to be created again, never with the not-found message; if
    the table has none, the operation fails with the not-found message and
    the table is as it was. In both cases nothing is submitted. *)
Theorem empty_group_lookup_self_heals
    (w : TriggerWorld) (a : TriggerArgs) (m : Machine)
    (bn gn : string) (bStatus gStatus : Z) (bData gData bRow : value)
    (bRest : list value) :
  argBaselineName a = VStr bn ->
  baselineAnswer w = HttpResp bStatus bData ->
  is2xx bStatus = true ->
  resultRows bData = bRow :: bRest ->
  (2 <= length (collectStrings bRow))%nat ->
  argGroupName a = VStr gn ->
  groupAnswer w = HttpResp gStatus gData ->
  resultRows gData = [] ->
  poolFault w = None -> selectFault w = None -> deleteFault w = None ->
  let run := triggerBaselineAction StringToNumber JSONstringify
               extractActionIdFromXml sqlEq w a m in
  ((exists r, In r (AssetOwnership m) /\ ownsGroup sqlEq gn r = true) ->
     fst run = Throw (ghostMessage gn) /\
     fst run <> Throw (notFoundMessage gn) /\
     (forall r, In r (AssetOwnership (snd run)) <->
                In r (AssetOwnership m) /\ ownsGroup sqlEq gn r = false) /\
     trace (snd run)
     = trace m ++ [EvQuery (baselineQuery bn); EvQuery (groupQuery gn);
                   EvOwnershipSelect gn; EvOwnershipDelete gn]) /\
  ((forall r, In r (AssetOwnership m) -> ownsGroup sqlEq gn r = false) ->
     fst run = Throw (notFoundMessage gn) /\
     AssetOwnership (snd run) = AssetOwnership m /\
     trace (snd run)
     = trace m ++ [EvQuery (baselineQuery bn); EvQuery (groupQuery gn);
                   EvOwnershipSelect gn]).
Proof.
  intros Hbn Hba Hbs Hbr Hbl Hgn Hga Hgr Hpool Hsel Hdel run. subst run.
  unfold triggerBaselineAction, selfHeal, receiver, call, log, modify, gets, guard.
  rewrite Hbn, Hba, Hgn, Hga, Hpool, Hsel, Hdel.
  unfold bind, ret, throw. simpl. rewrite Hbs, Hbr. simpl.
  assert ((length (collectStrings bRow) <? 2)%nat = false) as ->
    by (apply Nat.ltb_ge; lia).
  rewrite Hgr. simpl.
  destruct (List.filter (ownsGroup sqlEq gn) (AssetOwnership m)) as [|r0 owned] eqn:Hf;
    simpl.
  - split.
    + intros (r & Hr & Hown). exfalso.
      assert (In r (List.filter (ownsGroup sqlEq gn) (AssetOwnership m))) as Hin
        by (apply filter_In; now split).
      rewrite Hf in Hin. destruct Hin.
    + intros _. rewrite <- !app_assoc. now repeat split.
  - split.
    + intros _. split; [reflexivity|]. split.
      { intros H. injection H as H. apply (String.app_inj gn) in H.
        discriminate H. }
      split.
      * intros r. rewrite filter_In, negb_true_iff. reflexivity.
      * now rewrite <- !app_assoc.
    + intros Hnone. exfalso.
      assert (In r0 (List.filter (ownsGroup sqlEq gn) (AssetOwnership m))) as Hin
        by (rewrite Hf; now left).
      apply filter_In in Hin as [Hin Hown]. rewrite (Hnone r0 Hin) in Hown.
      discriminate Hown.
Qed.

End ResolverFacts.

Lemma empty_group_lookup_self_heals_witness :
  fst ghostRun = Throw (ghostMessage "SRV-GRP") /\
  (forall r, In r (AssetOwnership (snd ghostRun)) <->
             In r [ownedRow; otherRow] /\ ownsGroup String.eqb "SRV-GRP" r = false).
Proof.
  destruct (empty_group_lookup_self_heals readDecimal writeJson readActionId
              String.eqb ghostWorld demoArgs ownedMachine "Patch_A" "SRV-GRP"
              200 200 (VObj [("result", VArr [VArr [VStr "Enterprise"; VNum (Fin 1234)]])])
              (VObj [("result", VArr [])])
              (VArr [VStr "Enterprise"; VNum (Fin 1234)]) [])
    as [Hghost _]; try reflexivity.
  destruct Hghost as (Hout & _ & Hrows & _).
  - exists ownedRow. split; [now left | reflexivity].
  - split; [exact Hout | exact Hrows].
Defined.

(** ** The scheduling window *)

Section WindowFacts.

Variable StringToNumber : string -> number.
Variable JSONstringify : value -> string.
Variable extractActionIdFromXml : string -> option string.
Variable sqlEq : string -> string -> bool.



End WindowFacts.


(** ** Duration strings *)

Lemma or0_Fin (z : Z) : Num.or0 (Fin z) = Fin z.
Proof.
  unfold Num.or0. simpl. destruct (z =? 0) eqn:E; [|reflexivity].
  apply Z.eqb_eq in E. now subst.
Qed.

Lemma of_N_digits (n : N) :
  exists c r, JsString.of_N n = String c r /\ isDigit c = true.
Proof.
  unfold JsString.of_N.
  assert (N.to_uint n <> Decimal.Nil) as Hnil.
  { destruct n; simpl; [discriminate | apply DecimalPos.Unsigned.to_uint_nonnil]. }
  destruct (N.to_uint n); [contradiction| ..]; simpl; eauto.
Qed.

Lemma spanDigits_uint (u : Decimal.uint) (rest : string) :
  match rest with
  | String c _ => isDigit c = false
  | EmptyString => True
  end ->
  spanDigits (NilEmpty.string_of_uint u +:+ rest) = (NilEmpty.string_of_uint u, rest).
Proof.
  intros Hrest. induction u; simpl;
    try (rewrite IHu; reflexivity).
  destruct rest as [|c r]; [reflexivity|]. simpl. now rewrite Hrest.
Qed.






(** Reading a component back. *)
Lemma readPart_absent_empty (c : ascii) : readPart c "" = (0, "").
Proof. reflexivity. Qed.

Lemma readPart_absent_char (c x : ascii) (r : string) :
  isDigit x = false -> readPart c (String x r) = (0, String x r).
Proof. intros H. unfold readPart. simpl. now rewrite H. Qed.

Lemma readPart_number (c d : ascii) (n : Z) (rest : string) :
  0 <= n -> isDigit d = false ->
  readPart c (JsString.of_Z n +:+ String d rest)
  = if Ascii.eqb d c then (n, rest) else (0, JsString.of_Z n +:+ String d rest).
Proof.
  intros Hn Hd.
  assert (JsString.of_Z n = JsString.of_N (Z.to_N n)) as -> by (destruct n; [reflexivity..|lia]).
  unfold readPart, JsString.of_N.
  rewrite spanDigits_uint by exact Hd.
  destruct (of_N_digits (Z.to_N n)) as (x & r & Hx & _).
  unfold JsString.of_N in Hx. rewrite Hx. rewrite <- Hx.
  destruct (Ascii.eqb d c); [|reflexivity].
  rewrite NilEmpty.usu, DecimalN.Unsigned.of_to. f_equal. lia.
Qed.

Lemma readPart_part (c : ascii) (n : Z) (tail : string) :
  0 <= n -> isDigit c = false ->
  readPart c tail = (0, tail) ->
  readPart c (part n c +:+ tail) = (n, tail).
Proof.
  intros Hn Hc Htail. unfold part. destruct (n =? 0) eqn:E.
  - apply Z.eqb_eq in E. subst. exact Htail.
  - rewrite str_app_assoc. simpl. rewrite readPart_number by assumption.
    now rewrite Ascii.eqb_refl.
Qed.

Lemma readPart_other (c d : ascii) (n : Z) (tail : string) :
  0 <= n -> isDigit d = false -> Ascii.eqb d c = false ->
  readPart c tail = (0, tail) ->
  readPart c (part n d +:+ tail) = (0, part n d +:+ tail).
Proof.
  intros Hn Hd Hdc Htail. unfold part. destruct (n =? 0) eqn:E.
  - exact Htail.
  - rewrite str_app_assoc. simpl. rewrite readPart_number by assumption.
    now rewrite Hdc.
Qed.

Lemma concat_parts (h mi s : Z) :
  String.concat "" (durationPart h "H" ++ durationPart mi "M" ++ durationPart s "S")
  = part h "H"%char +:+ part mi "M"%char +:+ part s "S"%char.
Proof.
  unfold durationPart, part.
  destruct (h =? 0), (mi =? 0), (s =? 0); simpl;
    rewrite ?str_app_nil_r, ?str_app_assoc; reflexivity.
Qed.

Lemma parts_empty (h mi s : Z) :
  durationPart h "H" ++ durationPart mi "M" ++ durationPart s "S" = [] <->
  (h =? 0) && (mi =? 0) && (s =? 0) = true.
Proof.
  unfold durationPart.
  destruct (h =? 0), (mi =? 0), (s =? 0); simpl; split; congruence.
Qed.

(** The encoder writes the grammar of [renderDuration]. *)
Lemma msToXSDuration_render (z : Z) :
  let total := Z.abs z / 1000 in
  let rem := total mod 86400 in
  msToXSDuration (Fin z)
  = renderDuration (z <? 0) (total / 86400) (rem / 3600)
                   (rem mod 3600 / 60) (rem mod 3600 mod 60).
Proof.
  intros total rem. unfold msToXSDuration, renderDuration.
  fold total. fold rem.
  destruct (z =? 0) eqn:Ez.
  - apply Z.eqb_eq in Ez. subst z total rem. reflexivity.
  - set (d := total / 86400). set (h := rem / 3600).
    set (mi := rem mod 3600 / 60). set (s := rem mod 3600 mod 60).
    pose proof (parts_empty h mi s) as Hempty.
    pose proof (concat_parts h mi s) as Hconcat.
    destruct (durationPart h "H" ++ durationPart mi "M" ++ durationPart s "S")
      as [|p ps] eqn:Hparts.
    + rewrite (proj1 Hempty eq_refl).
      unfold durationPart, part. destruct (d =? 0); simpl; [reflexivity|].
      now rewrite str_app_nil_r.
    + destruct ((h =? 0) && (mi =? 0) && (s =? 0)) eqn:Hz.
      { destruct Hempty as [_ He]. discriminate (He eq_refl). }
      rewrite Hconcat.
      unfold durationPart, part. now destruct (d =? 0).
Qed.

Lemma readPart_other_end (c d : ascii) (n : Z) :
  0 <= n -> isDigit d = false -> Ascii.eqb d c = false ->
  readPart c (part n d) = (0, part n d).
Proof.
  intros Hn Hd Hdc. rewrite <- (str_app_nil_r (part n d)).
  now apply readPart_other.
Qed.

(** The decoder reads every rendered duration back. *)
Lemma decode_render (neg : bool) (d h mi s : Z) :
  0 <= d -> 0 <= h -> 0 <= mi -> 0 <= s ->
  decodeDuration (renderDuration neg d h mi s)
  = Some (signed neg ((d * 86400 + h * 3600 + mi * 60 + s) * 1000)).
Proof.
  intros Hd Hh Hmi Hs. unfold decodeDuration, renderDuration.
  set (timeSection := if (h =? 0) && (mi =? 0) && (s =? 0)
                      then (if d =? 0 then "T0S" else "")
                      else "T" +:+ part h "H" +:+ part mi "M" +:+ part s "S").
  assert (stripMinus ((if neg then "-" else "") +:+ "P" +:+ part d "D" +:+ timeSection)
          = (neg, String "P" (part d "D" +:+ timeSection))) as ->
    by now destruct neg.
  assert (readPart "D" timeSection = (0, timeSection)) as Habsent.
  { subst timeSection. destruct ((h =? 0) && (mi =? 0) && (s =? 0));
      [destruct (d =? 0)|]; reflexivity. }
  rewrite (readPart_part "D" d timeSection Hd eq_refl Habsent).
  subst timeSection.
  destruct ((h =? 0) && (mi =? 0) && (s =? 0)) eqn:Hzero.
  - apply andb_true_iff in Hzero as [Hzero Hs0].
    apply andb_true_iff in Hzero as [Hh0 Hmi0].
    apply Z.eqb_eq in Hh0, Hmi0, Hs0. subst h mi s.
    destruct (d =? 0) eqn:Hd0.
    + apply Z.eqb_eq in Hd0. subst d. reflexivity.
    + do 2 f_equal. lia.
  - simpl.
    rewrite (readPart_part "H" h (part mi "M" +:+ part s "S") Hh eq_refl).
    2:{ apply readPart_other; auto. now apply readPart_other_end. }
    rewrite (readPart_part "M" mi (part s "S") Hmi eq_refl).
    2:{ now apply readPart_other_end. }
    rewrite <- (str_app_nil_r (part s "S")).
    now rewrite (readPart_part "S" s "" Hs eq_refl eq_refl).
Qed.

Lemma seconds_split (total : Z) :
  0 <= total ->
  let rem := total mod 86400 in
  0 <= total / 86400 /\ 0 <= rem / 3600 /\ 0 <= rem mod 3600 / 60 /\
  0 <= rem mod 3600 mod 60 /\
  total / 86400 * 86400 + rem / 3600 * 3600 + rem mod 3600 / 60 * 60
    + rem mod 3600 mod 60 = total.
Proof.
  intros Ht rem.
  pose proof (Z.div_mod total 86400 ltac:(lia)) as H1.
  pose proof (Z.div_mod rem 3600 ltac:(lia)) as H2.
  pose proof (Z.div_mod (rem mod 3600) 60 ltac:(lia)) as H3.
  pose proof (Z.mod_pos_bound total 86400 ltac:(lia)) as B1.
  pose proof (Z.mod_pos_bound rem 3600 ltac:(lia)) as B2.
  pose proof (Z.mod_pos_bound (rem mod 3600) 60 ltac:(lia)) as B3.
  fold rem in H1, B1.
  repeat split; try (apply Z.div_pos; lia); lia.
Qed.

(** The encoded string denotes the duration cut to whole seconds. *)
Lemma decode_encode (z : Z) :
  decodeDuration (msToXSDuration (Fin z))
  = Some (signed (z <? 0) (Z.abs z / 1000 * 1000)).
Proof.
  rewrite msToXSDuration_render.
  assert (0 <= Z.abs z / 1000) as Ht by (apply Z.div_pos; lia).
  destruct (seconds_split (Z.abs z / 1000) Ht) as (Hd & Hh & Hmi & Hs & Hsum).
  rewrite decode_render by assumption.
  now rewrite Hsum.
Qed.

Lemma msToXSDuration_same (z z' : Z) :
  (z' <? 0) = (z <? 0) -> Z.abs z' / 1000 = Z.abs z / 1000 ->
  msToXSDuration (Fin z') = msToXSDuration (Fin z).
Proof.
  intros Hsign Htotal. rewrite !msToXSDuration_render. now rewrite Hsign, Htotal.
Qed.





(** ** The completion offset *)

Section OffsetFacts.

Variable StringToNumber : string -> number.
Variable JSONstringify : value -> string.
Variable extractActionIdFromXml : string -> option string.
Variable sqlEq : string -> string -> bool.


Lemma trigger_submitsWith (w : TriggerWorld) (a : TriggerArgs) :
  stable (emits (submitsWith w (Js.or (argEndOffset a) (VStr "P2D"))))
    (triggerBaselineAction StringToNumber JSONstringify extractActionIdFromXml
       sqlEq w a).
Proof.
  unfold triggerBaselineAction, receiver, selfHeal, historyInsert.
  repeat stable_step.
  all: try (now apply emits_trace).
  all: apply emits_emit; simpl; eauto 12.
Qed.




End OffsetFacts.




(** ** The recovery load *)

Lemma string_of_uint_inj (u v : Decimal.uint) :
  NilEmpty.string_of_uint u = NilEmpty.string_of_uint v -> u = v.
Proof.
  intros H. apply (f_equal NilEmpty.uint_of_string) in H.
  rewrite !NilEmpty.usu in H. now injection H.
Qed.

Lemma of_N_inj (a b : N) : JsString.of_N a = JsString.of_N b -> a = b.
Proof.
  intros H. apply string_of_uint_inj in H.
  now apply DecimalN.Unsigned.to_uint_inj.
Qed.

Lemma of_Z_inj (a b : Z) : JsString.of_Z a = JsString.of_Z b -> a = b.
Proof.
  assert (forall n p, JsString.of_N n <> "-" +:+ JsString.of_N (N.pos p)) as Hsign.
  { intros n p H. destruct (of_N_digits n) as (c & r & Hc & Hd).
    rewrite Hc in H. simpl in H. injection H as -> _. discriminate Hd. }
  assert (forall z, 0 <= z -> JsString.of_Z z = JsString.of_N (Z.to_N z)) as Hpos.
  { intros z Hz. destruct z; [reflexivity | reflexivity | lia]. }
  destruct a as [|a|a], b as [|b|b]; intros H; try reflexivity;
    try (rewrite (Hpos 0) in H by lia); try (rewrite (Hpos (Z.pos a)) in H by lia);
    try (rewrite (Hpos (Z.pos b)) in H by lia);
    try (apply of_N_inj in H; lia);
    try (exfalso; now apply Hsign in H);
    try (exfalso; symmetry in H; now apply Hsign in H).
  simpl in H. injection H as H. apply of_N_inj in H. congruence.
Qed.

Section RecoveryFacts.

Variable StringToNumber : string -> number.
Variable JSONstringify : value -> string.
Variable JSONparse : string -> option value.
Variable extractActionIdFromXml : string -> option string.
Variable sqlEq : string -> string -> bool.
Variable ownKeys : gmap string entry -> list string.

Lemma loadRow_actions (m : Machine) (row : HistoryRow) :
  actions (loadRow JSONparse m row)
  = match restored JSONparse row with
    | Some (k, e) => <[k := e]> (actions m)
    | None => actions m
    end.
Proof. unfold loadRow, restored. now destruct (JSONparse _). Qed.

Lemma loadRow_trace (m : Machine) (row : HistoryRow) :
  trace (loadRow JSONparse m row) = trace m.
Proof. unfold loadRow. now destruct (JSONparse _). Qed.

Lemma foldl_loadRow_trace (rows : list HistoryRow) (m : Machine) :
  trace (foldl (loadRow JSONparse) m rows) = trace m.
Proof.
  revert m. induction rows as [|r rows IH]; intros m; simpl; [reflexivity|].
  now rewrite IH, loadRow_trace.
Qed.

Lemma restored_key (row : HistoryRow) (id : string) (e : entry) :
  restored JSONparse row = Some (id, e) -> id = JsString.of_Z (ActionID row).
Proof. unfold restored. destruct (JSONparse _); [now intros [= <- _] | discriminate]. Qed.

Lemma foldl_loadRow_lookup (rows : list HistoryRow) :
  List.NoDup (map ActionID rows) ->
  forall (m : Machine) (id : string) (e : entry),
    actions (foldl (loadRow JSONparse) m rows) !! id = Some e <->
    (exists row, In row rows /\ restored JSONparse row = Some (id, e)) \/
    ((forall row e', In row rows -> restored JSONparse row <> Some (id, e')) /\
     actions m !! id = Some e).
Proof.
  induction rows as [|r rows IH]; intros Hnd m id e; simpl.
  - split; [intros H; right; split; [intros ? ? []| exact H]|].
    intros [(row & [] & _) | [_ H]]; exact H.
  - apply List.NoDup_cons_iff in Hnd as [Hr Hnd].
    assert (forall row e', In row rows -> restored JSONparse row = Some (id, e') ->
                           restored JSONparse r = Some (id, e) -> False) as Hclash.
    { intros row e' Hin Hrow Hrr.
      apply restored_key in Hrow, Hrr. rewrite Hrow in Hrr.
      apply of_Z_inj in Hrr. apply Hr. rewrite <- Hrr.
      now apply in_map. }
    rewrite (IH Hnd). rewrite loadRow_actions. split.
    + intros [(row & Hin & Hrow) | [Hnone Hlook]].
      * left. exists row. auto.
      * destruct (restored JSONparse r) as [[k e0]|] eqn:Hrr.
        -- destruct (decide (k = id)) as [->|Hne].
           ++ rewrite lookup_insert_eq in Hlook. injection Hlook as ->.
              left. exists r. auto.
           ++ rewrite lookup_insert_ne in Hlook by assumption.
              right. split; [|exact Hlook].
              intros row e' [<- | Hin]; [congruence | now apply Hnone].
        -- right. split; [|exact Hlook].
           intros row e' [<- | Hin]; [congruence | now apply Hnone].
    + intros [(row & [<- | Hin] & Hrow) | [Hnone Hlook]].
      * right. split.
        -- intros row e' Hin Hrow'. now apply (Hclash row e' Hin Hrow').
        -- rewrite Hrow. apply lookup_insert_eq.
      * left. exists row. auto.
      * right. split; [intros row e' Hin; apply Hnone; now right|].
        destruct (restored JSONparse r) as [[k e0]|] eqn:Hrr; [|exact Hlook].
        rewrite lookup_insert_ne; [exact Hlook|].
        intros ->. now apply (Hnone r e0 (or_introl eq_refl)).
Qed.

Lemma NoDup_map_filter (f : HistoryRow -> bool) (rows : list HistoryRow) :
  List.NoDup (map ActionID rows) -> List.NoDup (map ActionID (List.filter f rows)).
Proof.
  induction rows as [|r rows IH]; simpl; [auto|].
  intros Hnd. apply List.NoDup_cons_iff in Hnd as [Hr Hnd].
  destruct (f r); simpl; [|now apply IH].
  apply List.NoDup_cons_iff. split; [|now apply IH].
  intros Hin. apply Hr. apply in_map_iff in Hin as (x & Hx & Hin).
  apply filter_In in Hin as [Hin _]. apply in_map_iff. eauto.
Qed.

Lemma pendingRow_spec (r : HistoryRow) :
  pendingRow r = true <-> PostMailSent r = Some false.
Proof.
  unfold pendingRow. destruct (PostMailSent r) as [[|]|]; split; congruence.
Qed.

(** Every job adds to the trace and removes nothing from it. *)
Lemma handler_extends (w : TriggerWorld) (isForced : bool) (environment : string)
    (reqBody : value) :
  stable (emits (fun _ => True))
    (handleStageTrigger StringToNumber JSONstringify extractActionIdFromXml
       sqlEq w isForced environment reqBody).
Proof.
  unfold handleStageTrigger, changeGate, triggerBaselineAction, receiver,
    selfHeal, historyInsert.
  repeat stable_step.
  all: try (now apply emits_trace).
  all: now apply emits_emit.
Qed.

Lemma runJob_extends (j : job) (m : Machine) :
  emits (fun _ => True) m
    (runJob StringToNumber JSONstringify extractActionIdFromXml
             sqlEq ownKeys m j).
Proof.
  destruct j as [cfg w | cfg w | w f env b]; simpl.
  - destruct (tickLoop_trace StringToNumber cfg w (ownKeys (actions m)) m)
      as (t & Ht & _).
    exists t. split; [exact Ht|]. now apply Forall_forall.
  - destruct (cleanup_trace StringToNumber cfg w m) as [H | (n & done & H)].
    + now apply emits_trace.
    + exists [EvHistoryCleanup n done]. split; [exact H | now repeat constructor].
  - apply handler_extends.
Qed.

Lemma runJobs_extends (js : list job) (m : Machine) :
  emits (fun _ => True) m
    (runJobs StringToNumber JSONstringify extractActionIdFromXml
             sqlEq ownKeys js m).
Proof.
  revert m. induction js as [|j js IH]; intros m; simpl.
  - apply emits_refl.
  - eapply emits_trans; [apply runJob_extends | apply IH].
Qed.

(** When the store cannot be read at start-up, nothing is loaded. *)
Lemma load_fault_keeps_memory (loadWorld : SqlWorld) (m : Machine) :
  sqlPoolFault loadWorld <> None \/ sqlQueryFault loadWorld <> None ->
  loadCacheFromDb JSONparse loadWorld m = emit (EvHistoryLoad false) m.
Proof.
  unfold loadCacheFromDb.
  destruct (sqlPoolFault loadWorld), (sqlQueryFault loadWorld);
    intros [H | H]; try reflexivity; contradiction.
Qed.

(** What follows the recovery load at start-up adds to the trace. *)
Lemma start_extends (loadWorld : SqlWorld) (cfg : Config) (cleanupWorld : SqlWorld)
    (js : list job) (m : Machine) :
  emits (fun _ => True) (loadCacheFromDb JSONparse loadWorld m)
    (startPostPatchWatcher StringToNumber JSONstringify JSONparse
       extractActionIdFromXml sqlEq ownKeys loadWorld cfg cleanupWorld js m).
Proof.
  unfold startPostPatchWatcher.
  eapply emits_trans; [|apply runJobs_extends].
  destruct (cleanup_trace StringToNumber cfg cleanupWorld
              (loadCacheFromDb JSONparse loadWorld m)) as [H | (n & done & H)].
  - now apply emits_trace.
  - exists [EvHistoryCleanup n done]. split; [exact H | now repeat constructor].
Qed.

(** C8, as the code has it. At start-up the recovery load runs first:
    the watcher's timers are armed only when it has finished. From a store
    that can be read, and into the empty in-memory map, it inserts one record
    for each durable row whose PostMailSent flag is false and whose metadata
    parses, under the decimal action identifier, and nothing else: a pending
    row whose metadata cannot be parsed is skipped. The record is the parsed
    metadata with postMailSent taken from the row; so a record that a trigger
    request persisted, and that JSON reads back as written, reappears with
    the field values it had. From a store that cannot be read (the pool or
    the query fails) nothing is inserted, and the watcher starts on the
    empty map all the same. *)
Theorem recovery_load_restores_parsable_rows (loadWorld : SqlWorld) (m : Machine) :
  actions m = ∅ ->
  List.NoDup (map ActionID (ActionHistory m)) ->
  let m' := loadCacheFromDb JSONparse loadWorld m in
  (sqlPoolFault loadWorld = None -> sqlQueryFault loadWorld = None ->
   (forall id e,
      actions m' !! id = Some e <->
      exists row, In row (ActionHistory m) /\ PostMailSent row = Some false /\
                  restored JSONparse row = Some (id, e)) /\
   (forall row fields,
      In row (ActionHistory m) -> PostMailSent row = Some false ->
      Metadata row = Some (JSONstringify (VObj fields)) ->
      JSONparse (JSONstringify (VObj fields)) = Some (VObj fields) ->
      objectOf fields !! "postMailSent" = Some (VBool false) ->
      actions m' !! JsString.of_Z (ActionID row) = Some (objectOf fields)) /\
   (forall cfg cleanupWorld js,
      exists t,
        trace (startPostPatchWatcher StringToNumber JSONstringify JSONparse
                 extractActionIdFromXml sqlEq ownKeys loadWorld cfg cleanupWorld
                 js m)
        = trace m ++ EvHistoryLoad true :: t)) /\
  (sqlPoolFault loadWorld <> None \/ sqlQueryFault loadWorld <> None ->
   actions m' = ∅ /\
   (forall cfg cleanupWorld js,
      exists t,
        trace (startPostPatchWatcher StringToNumber JSONstringify JSONparse
                 extractActionIdFromXml sqlEq ownKeys loadWorld cfg cleanupWorld
                 js m)
        = trace m ++ EvHistoryLoad false :: t)).
Proof.
  intros Hempty Hnd m'. split.
  - intros Hpool Hquery.
    assert (forall id e,
              actions m' !! id = Some e <->
              exists row, In row (ActionHistory m) /\ PostMailSent row = Some false /\
                          restored JSONparse row = Some (id, e)) as Hload.
    { intros id e. subst m'. unfold loadCacheFromDb. rewrite Hpool, Hquery.
      rewrite (foldl_loadRow_lookup _ (NoDup_map_filter pendingRow _ Hnd)).
      simpl. rewrite Hempty, lookup_empty. split.
      - intros [(row & Hin & Hrow) | [_ H]]; [|discriminate H].
        apply filter_In in Hin as [Hin Hp]. apply pendingRow_spec in Hp. eauto.
      - intros (row & Hin & Hp & Hrow). left. exists row. split; [|exact Hrow].
        apply filter_In. split; [exact Hin | now apply pendingRow_spec]. }
    split; [exact Hload|]. split.
    + intros row fields Hin Hp Hmeta Hparse Hflag. apply Hload.
      exists row. split; [exact Hin|]. split; [exact Hp|].
      unfold restored. rewrite Hmeta. simpl. rewrite Hparse, Hp. simpl.
      now rewrite insert_id.
    + intros cfg cleanupWorld js.
      assert (trace m' = trace m ++ [EvHistoryLoad true]) as Ht.
      { subst m'. unfold loadCacheFromDb. rewrite Hpool, Hquery.
        now rewrite foldl_loadRow_trace. }
      destruct (start_extends loadWorld cfg cleanupWorld js m) as (t & Htrace & _).
      exists t. fold m' in Htrace. rewrite Htrace, Ht. now rewrite <- app_assoc.
  - intros Hfault.
    assert (m' = emit (EvHistoryLoad false) m) as Hm'
      by (subst m'; now apply load_fault_keeps_memory).
    split; [now rewrite Hm'|].
    intros cfg cleanupWorld js.
    destruct (start_extends loadWorld cfg cleanupWorld js m) as (t & Htrace & _).
    exists t. fold m' in Htrace. rewrite Htrace, Hm'. simpl.
    now rewrite <- app_assoc.
Qed.

End RecoveryFacts.

Lemma recovery_load_restores_parsable_rows_witness :
  actions (loadCacheFromDb readJson sqlUp
             (mkMachine ∅ None [storedRow; brokenRow] [] [])) !! "77"
  = Some (objectOf storedFields).
Proof.
  assert (List.NoDup (map ActionID [storedRow; brokenRow])) as Hnd.
  { repeat constructor; simpl; intuition discriminate. }
  destruct (recovery_load_restores_parsable_rows readDecimal writeJson readJson
              readActionId String.eqb keysOf sqlUp
              (mkMachine ∅ None [storedRow; brokenRow] [] [])
              eq_refl Hnd) as [Hreadable _].
  destruct (Hreadable eq_refl eq_refl) as (_ & Hsame & _).
  apply (Hsame storedRow storedFields).
  - left. reflexivity.
  - reflexivity.
  - reflexivity.
  - vm_compute. reflexivity.
  - vm_compute. reflexivity.
Defined.

(** C8, as stated, fails. A pending row whose metadata is not JSON is not
    inserted into the in-memory map; and when the store cannot be read at
    start-up, a record that a trigger request persisted does not reappear
    either. *)
Lemma pending_rows_are_not_always_recovered :
  (In brokenRow (ActionHistory brokenStore) /\
   PostMailSent brokenRow = Some false /\
   actions (loadCacheFromDb readJson sqlUp brokenStore) = ∅) /\
  (PostMailSent storedRow = Some false /\
   readJson (default "null" (Metadata storedRow)) = Some (VObj storedFields) /\
   actions (loadCacheFromDb readJson sqlDown
              (mkMachine ∅ None [storedRow] [] [])) = ∅).
Proof.
  split.
  - repeat split. left. reflexivity.
  - split; [reflexivity|]. split; [vm_compute; reflexivity | reflexivity].
Qed.

(** ** The target expression *)

Section TargetFacts.

Variable StringToNumber : string -> number.
Variable JSONstringify : value -> string.
Variable extractActionIdFromXml : string -> option string.
Variable sqlEq : string -> string -> bool.

(** C6. The target expression is a function of the resolved group tuple
    (name, id, site, kind label) alone, and every document a trigger submits
    targets the expression of the tuple read from the first row of the group
    lookup. The label selects the template by a substring test without case:
    Automatic when it contains automatic, otherwise Manual when it contains
    manual, otherwise ServerBased. The Automatic template names the site by
    the reserved token for the site ActionSite, and by CustomSite_ followed
    by the site name, unchanged, for every other site. *)
Theorem target_expression_by_kind (gName gId gSite gType : string) :
  (occursCI "automatic" gType ->
     customRelevance gName gId gSite gType
     = automaticTemplate gId (siteTokenForAutomatic gSite)) /\
  (~ occursCI "automatic" gType -> occursCI "manual" gType ->
     customRelevance gName gId gSite gType = manualTemplate gName) /\
  (~ occursCI "automatic" gType -> ~ occursCI "manual" gType ->
     customRelevance gName gId gSite gType = serverBasedTemplate gName) /\
  (gSite = "ActionSite" ->
     siteTokenForAutomatic gSite = "site " +:+ dquote +:+ "actionsite" +:+ dquote) /\
  (gSite <> "ActionSite" ->
     siteTokenForAutomatic gSite
     = "site " +:+ dquote +:+ "CustomSite_" +:+ gSite +:+ dquote) /\
  (forall w a m,
     emits (submitsWith w (Js.or (argEndOffset a) (VStr "P2D"))) m
       (snd (triggerBaselineAction StringToNumber JSONstringify
               extractActionIdFromXml sqlEq w a m))).
Proof.
  unfold customRelevance. rewrite toLowerSafe_string.
  pose proof (includes_lower_occursCI "automatic" gType) as Ha.
  pose proof (includes_lower_occursCI "manual" gType) as Hm.
  change (JsString.toLowerCase "automatic") with "automatic" in Ha.
  change (JsString.toLowerCase "manual") with "manual" in Hm.
  repeat split.
  - intros H. apply Ha in H. now rewrite H.
  - intros Hna H.
    destruct (JsString.includes "automatic" _); [exfalso; apply Hna; now apply Ha|].
    apply Hm in H. now rewrite H.
  - intros Hna Hnm.
    destruct (JsString.includes "automatic" _); [exfalso; apply Hna; now apply Ha|].
    destruct (JsString.includes "manual" _); [exfalso; apply Hnm; now apply Hm|].
    reflexivity.
  - now intros ->.
  - intros Hne. unfold siteTokenForAutomatic.
    now rewrite (proj2 (String.eqb_neq _ _) Hne).
  - intros w a m.
    apply (trigger_submitsWith StringToNumber JSONstringify
             extractActionIdFromXml sqlEq w a m).
Qed.

End TargetFacts.

Lemma target_expression_by_kind_witness :
  occursCI "automatic" "Automatic" /\
  customRelevance "SRV-GRP" "42" "ActionSite" "Automatic"
  = automaticTemplate "42" (siteTokenForAutomatic "ActionSite").
Proof.
  assert (occursCI "automatic" "Automatic") as H.
  { exists "", "Automatic", "". split; reflexivity. }
  split; [exact H|].
  exact (proj1 (target_expression_by_kind readDecimal writeJson readActionId
                  String.eqb "SRV-GRP" "42" "ActionSite" "Automatic") H).
Defined.

(** * Properties of the helpers *)

(** ** Strings *)

Lemma occurs_app (c : ascii) (a b : string) :
  occurs c (a +:+ b) = occurs c a || occurs c b.
Proof.
  induction a as [|x a IH]; simpl; [reflexivity|].
  now rewrite IH, orb_assoc.
Qed.

Lemma replaceAll_app (c : ascii) (r a b : string) :
  JsString.replaceAll c r (a +:+ b)
  = JsString.replaceAll c r a +:+ JsString.replaceAll c r b.
Proof.
  induction a as [|x a IH]; simpl; [reflexivity|].
  destruct (Ascii.eqb x c); simpl; rewrite IH; [now rewrite str_app_assoc | reflexivity].
Qed.

Lemma replaceAll_substitute (c : ascii) (r : string) (f : ascii -> string) (s : string) :
  JsString.replaceAll c r (substitute f s)
  = substitute (fun a => JsString.replaceAll c r (f a)) s.
Proof.
  induction s as [|x s IH]; simpl; [reflexivity|].
  now rewrite replaceAll_app, IH.
Qed.

Lemma substitute_id (s : string) : substitute (fun a => String a "") s = s.
Proof. induction s as [|x s IH]; simpl; [reflexivity | now rewrite IH]. Qed.

Lemma substitute_ext (f g : ascii -> string) (s : string) :
  (forall c, f c = g c) -> substitute f s = substitute g s.
Proof.
  intros H. induction s as [|x s IH]; simpl; [reflexivity | now rewrite H, IH].
Qed.

Lemma occurs_substitute (c : ascii) (f : ascii -> string) (s : string) :
  (forall a, occurs c (f a) = false) -> occurs c (substitute f s) = false.
Proof.
  intros H. induction s as [|x s IH]; simpl; [reflexivity|].
  now rewrite occurs_app, H, IH.
Qed.

Lemma xmlEscape_substitute (s : string) :
  xmlEscape (VStr s) = substitute xmlEntity s.
Proof.
  unfold xmlEscape. simpl Js.toString.
  rewrite <- (substitute_id s) at 1.
  rewrite !replaceAll_substitute. apply substitute_ext.
  intros c. destruct c as [[] [] [] [] [] [] [] []]; reflexivity.
Qed.

Lemma xmlEscape_text (v : value) :
  xmlEscape v
  = substitute xmlEntity
      (match v with VUndefined | VNull => "" | _ => Js.toString v end).
Proof.
  destruct v; try reflexivity;
    match goal with
    | |- xmlEscape ?v = substitute _ ?s => change (xmlEscape v) with (xmlEscape (VStr s))
    end; apply xmlEscape_substitute.
Qed.

Lemma xmlEntity_clean (c a : ascii) :
  plainChar c = false -> c <> "&"%char -> occurs c (xmlEntity a) = false.
Proof.
  intros Hc Hamp.
  assert (c = "<"%char \/ c = ">"%char \/ c = "034"%char \/ c = "039"%char) as Hcases.
  { destruct c as [[] [] [] [] [] [] [] []]; try discriminate Hc; auto.
    now contradiction Hamp. }
  destruct Hcases as [-> | [-> | [-> | ->]]];
    destruct a as [[] [] [] [] [] [] [] []]; reflexivity.
Qed.

(** X1. Whatever the value, the text [xmlEscape] returns holds none of the
    characters that open or close markup or an attribute value: no [<], no
    [>], no double quote and no single quote. *)
Theorem xmlEscape_has_no_markup (v : value) :
  occurs "<"%char (xmlEscape v) = false /\
  occurs ">"%char (xmlEscape v) = false /\
  occurs "034"%char (xmlEscape v) = false /\
  occurs "039"%char (xmlEscape v) = false.
Proof.
  rewrite xmlEscape_text.
  repeat split; apply occurs_substitute; intros a;
    apply xmlEntity_clean; (reflexivity || discriminate).
Qed.

Lemma plainChar_entity (c : ascii) :
  plainChar c = true -> xmlEntity c = String c "".
Proof.
  unfold plainChar, xmlEntity. cbv zeta.
  destruct (_ =? 38)%N, (_ =? 60)%N, (_ =? 62)%N, (_ =? 34)%N, (_ =? 39)%N;
    simpl; try discriminate; reflexivity.
Qed.

Lemma reserved_cases (c : ascii) :
  plainChar c = false ->
  c = "&"%char \/ c = "<"%char \/ c = ">"%char \/ c = "034"%char \/ c = "039"%char.
Proof.
  intros Hc. destruct c as [[] [] [] [] [] [] [] []]; try discriminate Hc; auto 6.
Qed.

Lemma xmlEntity_prefix_free (a b : ascii) (x y : string) :
  xmlEntity a +:+ x = xmlEntity b +:+ y -> a = b /\ x = y.
Proof.
  destruct (plainChar a) eqn:Ha, (plainChar b) eqn:Hb.
  - rewrite (plainChar_entity a Ha), (plainChar_entity b Hb). simpl.
    now intros [= -> ->].
  - rewrite (plainChar_entity a Ha).
    destruct (reserved_cases b Hb) as [-> | [-> | [-> | [-> | ->]]]]; simpl;
      intros [= -> _]; discriminate Ha.
  - rewrite (plainChar_entity b Hb).
    destruct (reserved_cases a Ha) as [-> | [-> | [-> | [-> | ->]]]]; simpl;
      intros [= <- _]; discriminate Hb.
  - destruct (reserved_cases a Ha) as [-> | [-> | [-> | [-> | ->]]]];
      destruct (reserved_cases b Hb) as [-> | [-> | [-> | [-> | ->]]]]; simpl;
      intros H; try discriminate H; injection H as H; now split.
Qed.

Lemma substitute_xmlEntity_inj (s t : string) :
  substitute xmlEntity s = substitute xmlEntity t -> s = t.
Proof.
  revert t. induction s as [|a s IH]; intros [|b t]; simpl; intros H.
  - reflexivity.
  - exfalso. destruct (plainChar b) eqn:Hb.
    + rewrite (plainChar_entity b Hb) in H. discriminate H.
    + destruct (reserved_cases b Hb) as [-> | [-> | [-> | [-> | ->]]]];
        discriminate H.
  - exfalso. destruct (plainChar a) eqn:Ha.
    + rewrite (plainChar_entity a Ha) in H. discriminate H.
    + destruct (reserved_cases a Ha) as [-> | [-> | [-> | [-> | ->]]]];
        discriminate H.
  - apply xmlEntity_prefix_free in H as [-> H]. now rewrite (IH t H).
Qed.

(** X2. [xmlEscape] loses nothing: two different strings are escaped to two
    different texts. In particular a string that already holds an entity is
    not confused with the character the entity stands for. *)
Theorem xmlEscape_keeps_texts_apart (s t : string) :
  s <> t -> xmlEscape (VStr s) <> xmlEscape (VStr t).
Proof.
  intros Hne H. apply Hne. rewrite !xmlEscape_substitute in H.
  now apply substitute_xmlEntity_inj.
Qed.

Lemma xmlEscape_keeps_texts_apart_witness :
  xmlEscape (VStr "R&D") <> xmlEscape (VStr "R&amp;D").
Proof. apply xmlEscape_keeps_texts_apart. discriminate. Defined.

Lemma occurs_replaceAll_same (c : ascii) (r s : string) :
  occurs c r = false -> occurs c (JsString.replaceAll c r s) = false.
Proof.
  intros Hr. induction s as [|x s IH]; simpl; [reflexivity|].
  destruct (Ascii.eqb x c) eqn:Hx; simpl.
  - now rewrite occurs_app, Hr, IH.
  - now rewrite Hx, IH.
Qed.

Lemma occurs_replaceAll_other (c d : ascii) (r s : string) :
  occurs c r = false -> occurs c s = false ->
  occurs c (JsString.replaceAll d r s) = false.
Proof.
  intros Hr. induction s as [|x s IH]; simpl; [reflexivity|].
  intros Hs. apply orb_false_iff in Hs as [Hx Hs].
  destruct (Ascii.eqb x d); simpl.
  - now rewrite occurs_app, Hr, IH.
  - now rewrite Hx, IH.
Qed.

(** Whatever the value, the text [escapeHtml] returns holds no angle
    bracket; and a falsy value (undefined, null, false, 0, NaN, the empty
    string) is rendered as the empty text. *)
Theorem escapeHtml_has_no_angle_bracket (v : value) :
  occurs "<"%char (escapeHtml v) = false /\
  occurs ">"%char (escapeHtml v) = false /\
  (Js.truthy v = false -> escapeHtml v = "").
Proof.
  unfold escapeHtml. repeat split.
  - apply occurs_replaceAll_other; [reflexivity|].
    now apply occurs_replaceAll_same.
  - now apply occurs_replaceAll_same.
  - intros Hv. unfold Js.or. now rewrite Hv.
Qed.

(** ** Joining a base address and a path *)

Lemma stripLeading_run (c : ascii) (n : nat) (p : string) :
  JsString.startsWith (String c "") p = false ->
  stripLeading c (run c n +:+ p) = p.
Proof.
  intros Hp. induction n as [|n IH]; simpl.
  - destruct p as [|b p]; [reflexivity|]. simpl in *.
    rewrite andb_true_r in Hp. rewrite Ascii.eqb_sym in Hp. now rewrite Hp.
  - now rewrite Ascii.eqb_refl.
Qed.

Lemma stripTrailing_run (c : ascii) (n : nat) : stripTrailing c (run c n) = "".
Proof.
  induction n as [|n IH]; simpl; [reflexivity|].
  now rewrite IH, Ascii.eqb_refl.
Qed.

Lemma stripTrailing_app_run (c : ascii) (s : string) (n : nat) :
  stripTrailing c (s +:+ run c n) = stripTrailing c s.
Proof.
  induction s as [|a s IH]; simpl; [apply stripTrailing_run | now rewrite IH].
Qed.

Lemma stripTrailing_fixed (c : ascii) (s : string) :
  endsWithChar c s = false -> stripTrailing c s = s.
Proof.
  induction s as [|a s IH]; [reflexivity|]. intros H.
  destruct s as [|b s].
  - simpl in *. now rewrite H.
  - change (endsWithChar c (String a (String b s)))
      with (endsWithChar c (String b s)) in H.
    change (stripTrailing c (String a (String b s)))
      with (match stripTrailing c (String b s) with
            | EmptyString => if Ascii.eqb a c then EmptyString else String a EmptyString
            | r' => String a r'
            end).
    now rewrite (IH H).
Qed.

(** X3. [joinUrl] puts exactly one slash between the two parts, however many
    slashes the base ends with and the path starts with: for a base [b] that
    does not end with a slash and a path [p] that does not start with one,
    [b] followed by any run of slashes joined to any run of slashes followed
    by [p] is [b], one slash, [p]. *)
Theorem joinUrl_single_slash (b p : string) (n k : nat) :
  endsWithChar "/"%char b = false ->
  JsString.startsWith "/" p = false ->
  joinUrl (b +:+ run "/"%char n) (run "/"%char k +:+ p) = b +:+ "/" +:+ p.
Proof.
  intros Hb Hp. unfold joinUrl.
  now rewrite stripTrailing_app_run, (stripTrailing_fixed _ _ Hb),
    (stripLeading_run _ _ _ Hp).
Qed.

Lemma joinUrl_single_slash_witness :
  joinUrl "https://bigfix.example:52311//" "/api/query"
  = "https://bigfix.example:52311/api/query".
Proof.
  apply (joinUrl_single_slash "https://bigfix.example:52311" "api/query" 2 1);
    reflexivity.
Defined.

(** ** Address lists *)

Lemma trimStart_startTrimmed (s : string) :
  startTrimmed (JsString.trimStart s) = true.
Proof.
  induction s as [|c s IH]; simpl; [reflexivity|].
  destruct (JsString.is_space c) eqn:Hc; [exact IH|]. simpl. now rewrite Hc.
Qed.

Lemma trimStart_fixed (s : string) :
  startTrimmed s = true -> JsString.trimStart s = s.
Proof.
  destruct s as [|c s]; simpl; [reflexivity|].
  intros H. apply negb_true_iff in H. now rewrite H.
Qed.

Lemma trimEnd_cons (c : ascii) (r : string) :
  JsString.trimEnd (String c r)
  = match JsString.trimEnd r with
    | EmptyString => if JsString.is_space c then EmptyString else String c EmptyString
    | r' => String c r'
    end.
Proof. reflexivity. Qed.

Lemma trimEnd_idem (s : string) :
  JsString.trimEnd (JsString.trimEnd s) = JsString.trimEnd s.
Proof.
  induction s as [|c s IH]; [reflexivity|].
  rewrite trimEnd_cons. destruct (JsString.trimEnd s) as [|d t] eqn:Ht.
  - destruct (JsString.is_space c) eqn:Hc; [reflexivity|].
    rewrite trimEnd_cons. simpl. now rewrite Hc.
  - rewrite trimEnd_cons. now rewrite IH.
Qed.

Lemma trimEnd_startTrimmed (s : string) :
  startTrimmed s = true -> startTrimmed (JsString.trimEnd s) = true.
Proof.
  destruct s as [|c s]; [reflexivity|]. intros H. rewrite trimEnd_cons.
  simpl in H. apply negb_true_iff in H.
  destruct (JsString.trimEnd s); rewrite ?H; simpl; now rewrite H.
Qed.

Lemma trim_idem (s : string) : JsString.trim (JsString.trim s) = JsString.trim s.
Proof.
  unfold JsString.trim.
  rewrite (trimStart_fixed (JsString.trimEnd (JsString.trimStart s))).
  - apply trimEnd_idem.
  - apply trimEnd_startTrimmed, trimStart_startTrimmed.
Qed.

Lemma occurs_trimStart (c : ascii) (s : string) :
  occurs c s = false -> occurs c (JsString.trimStart s) = false.
Proof.
  induction s as [|a s IH]; simpl; [reflexivity|]. intros H.
  apply orb_false_iff in H as [Ha Hs].
  destruct (JsString.is_space a); [now apply IH | simpl; now rewrite Ha, Hs].
Qed.

Lemma occurs_trimEnd (c : ascii) (s : string) :
  occurs c s = false -> occurs c (JsString.trimEnd s) = false.
Proof.
  induction s as [|a s IH]; [reflexivity|]. intros H. simpl in H.
  apply orb_false_iff in H as [Ha Hs]. rewrite trimEnd_cons.
  specialize (IH Hs).
  destruct (JsString.trimEnd s) as [|d t].
  - destruct (JsString.is_space a); [reflexivity | simpl; now rewrite Ha].
  - change (occurs c (String a (String d t)))
      with (Ascii.eqb a c || occurs c (String d t)).
    now rewrite Ha, IH.
Qed.

Lemma occurs_trim (c : ascii) (s : string) :
  occurs c s = false -> occurs c (JsString.trim s) = false.
Proof. intros H. now apply occurs_trimEnd, occurs_trimStart. Qed.

Lemma splitOn_nonempty (sep : ascii -> bool) (s : string) : splitOn sep s <> [].
Proof.
  induction s as [|c s IH]; simpl; [discriminate|].
  destruct (sep c); [discriminate|]. now destruct (splitOn sep s).
Qed.

Lemma splitOn_pieces (sep : ascii -> bool) (s x : string) (c : ascii) :
  In x (splitOn sep s) -> sep c = true -> occurs c x = false.
Proof.
  intros Hx Hc. revert x Hx. induction s as [|a s IH]; simpl; intros x Hx.
  - destruct Hx as [<- | []]. reflexivity.
  - destruct (sep a) eqn:Ha.
    + destruct Hx as [<- | Hx]; [reflexivity | now apply IH].
    + destruct (splitOn sep s) as [|piece pieces] eqn:Hs.
      * destruct Hx as [<- | []]. simpl. rewrite orb_false_r.
        apply Ascii.eqb_neq. intros ->. congruence.
      * destruct Hx as [<- | Hx].
        -- simpl. rewrite (IH piece) by now left. rewrite orb_false_r.
           apply Ascii.eqb_neq. intros ->. congruence.
        -- apply IH. now right.
Qed.

Lemma splitEmails_clean (s : value) (e : string) :
  In e (splitEmails s) ->
  e <> "" /\ JsString.trim e = e /\
  occurs ";"%char e = false /\ occurs ","%char e = false.
Proof.
  unfold splitEmails. intros H. apply filter_In in H as [H Hne].
  apply in_map_iff in H as (x & <- & Hx). repeat split.
  - intros Heq. rewrite Heq in Hne. discriminate Hne.
  - apply trim_idem.
  - apply occurs_trim. eapply splitOn_pieces; [exact Hx | reflexivity].
  - apply occurs_trim. eapply splitOn_pieces; [exact Hx | reflexivity].
Qed.

(** X4. Every entry [splitEmails] returns is a non-empty string without
    white space at either end and without a separator: no semicolon, no
    comma. *)
Theorem splitEmails_entries_are_clean (s : value) (e : string) :
  In e (splitEmails s) ->
  e <> "" /\ JsString.trim e = e /\
  occurs ";"%char e = false /\ occurs ","%char e = false.
Proof. apply splitEmails_clean. Qed.

Lemma splitEmails_entries_are_clean_witness :
  In "ops@example.org" (splitEmails (VStr " admin@example.org ;; ops@example.org,")) /\
  "ops@example.org" <> "" /\ JsString.trim "ops@example.org" = "ops@example.org" /\
  occurs ";"%char "ops@example.org" = false /\
  occurs ","%char "ops@example.org" = false.
Proof.
  assert (In "ops@example.org"
            (splitEmails (VStr " admin@example.org ;; ops@example.org,"))) as H
    by (vm_compute; right; left; reflexivity).
  split; [exact H|].
  exact (splitEmails_entries_are_clean _ _ H).
Defined.

Lemma splitOn_free (sep : ascii -> bool) (e : string) :
  (forall c, sep c = true -> occurs c e = false) -> splitOn sep e = [e].
Proof.
  induction e as [|a e IH]; intros H; simpl; [reflexivity|].
  destruct (sep a) eqn:Ha.
  - specialize (H a Ha). simpl in H. now rewrite Ascii.eqb_refl in H.
  - rewrite IH; [reflexivity|]. intros c Hc. specialize (H c Hc). simpl in H.
    now apply orb_false_iff in H.
Qed.

Lemma splitOn_app_sep (sep : ascii -> bool) (e : string) (d : ascii) (rest : string) :
  (forall c, sep c = true -> occurs c e = false) -> sep d = true ->
  splitOn sep (e +:+ String d rest) = e :: splitOn sep rest.
Proof.
  intros H Hd. induction e as [|a e IH]; simpl.
  - now rewrite Hd.
  - destruct (sep a) eqn:Ha.
    + specialize (H a Ha). simpl in H. now rewrite Ascii.eqb_refl in H.
    + rewrite IH; [reflexivity|]. intros c Hc. specialize (H c Hc). simpl in H.
      now apply orb_false_iff in H.
Qed.

Lemma trim_leading_space (e : string) :
  JsString.trim (String " " e) = JsString.trim e.
Proof. reflexivity. Qed.

(** Entries as [splitEmails] returns them. *)
Lemma join_split (entries : list string) (lead : string) :
  (lead = "" \/ lead = " ") ->
  entries <> [] ->
  Forall (fun e => e <> "" /\ JsString.trim e = e /\
                   occurs ";"%char e = false /\ occurs ","%char e = false) entries ->
  List.filter JsString.nonempty
    (map JsString.trim
       (splitOn isListSeparator (lead +:+ String.concat ", " entries)))
  = entries.
Proof.
  intros Hlead Hne Hall. revert lead Hlead.
  induction Hall as [|e rest (He & Ht & Hs & Hc) Hall IH]; [contradiction|].
  intros lead Hlead.
  assert (forall c, isListSeparator c = true -> occurs c (lead +:+ e) = false) as Hfree.
  { intros c Hsep. rewrite occurs_app.
    unfold isListSeparator in Hsep. apply orb_true_iff in Hsep as [Hsep | Hsep];
      apply Ascii.eqb_eq in Hsep; subst c; rewrite ?Hs, ?Hc;
      destruct Hlead as [-> | ->]; reflexivity. }
  assert (JsString.trim (lead +:+ e) = e) as Htrim.
  { destruct Hlead as [-> | ->]; [exact Ht|]. simpl. now rewrite trim_leading_space. }
  assert (JsString.nonempty e = true) as Hn by (destruct e; [contradiction | reflexivity]).
  destruct rest as [|e' rest].
  - cbn [String.concat]. rewrite (splitOn_free _ _ Hfree).
    cbn [List.map List.filter]. now rewrite Htrim, Hn.
  - change (String.concat ", " (e :: e' :: rest))
      with (e +:+ ", " +:+ String.concat ", " (e' :: rest)).
    rewrite <- str_app_assoc.
    change (", " +:+ String.concat ", " (e' :: rest))
      with (String "," (" " +:+ String.concat ", " (e' :: rest))).
    rewrite (splitOn_app_sep _ _ _ _ Hfree) by reflexivity.
    cbn [List.map List.filter]. rewrite Htrim, Hn. f_equal.
    apply (IH ltac:(discriminate) " "). now right.
Qed.

(** X5. The mailer joins the entries of an address list with a comma and a
    space; splitting the joined text again gives back the same entries. *)
Theorem splitEmails_join_round_trip (s : value) :
  splitEmails (VStr (String.concat ", " (splitEmails s))) = splitEmails s.
Proof.
  destruct (splitEmails s) as [|e rest] eqn:Hs; [reflexivity|].
  rewrite <- Hs.
  assert (Js.toString (Js.or (VStr (String.concat ", " (splitEmails s))) (VStr ""))
          = String.concat ", " (splitEmails s)) as Htext.
  { unfold Js.or. simpl. now destruct (String.concat ", " (splitEmails s)). }
  unfold splitEmails at 1. rewrite Htext.
  apply (join_split (splitEmails s) "").
  - now left.
  - rewrite Hs. discriminate.
  - apply List.Forall_forall. intros x Hx. now apply (splitEmails_clean s).
Qed.

(** ** Reading elements of a document *)

Lemma xmlEscape_no_lt (v : value) : occurs "<"%char (xmlEscape v) = false.
Proof.
  rewrite xmlEscape_text. apply occurs_substitute. intros a.
  apply xmlEntity_clean; (reflexivity || discriminate).
Qed.

Lemma str_length_app (a b : string) :
  String.length (a +:+ b) = (String.length a + String.length b)%nat.
Proof. induction a as [|x a IH]; simpl; [reflexivity | now rewrite IH]. Qed.

Lemma toLowerCase_length (s : string) :
  String.length (JsString.toLowerCase s) = String.length s.
Proof. induction s as [|x s IH]; simpl; [reflexivity | now rewrite IH]. Qed.

Lemma compatible_app (p a b : string) :
  compatible p (a +:+ b) = true -> compatible p a = true.
Proof.
  revert a. induction p as [|x p IH]; intros [|y a]; simpl; try reflexivity.
  intros H. apply andb_true_iff in H as [-> H]. simpl. now apply IH.
Qed.

Lemma startsWith_compatible (p a : string) :
  JsString.startsWith p a = true -> compatible p a = true.
Proof.
  revert a. induction p as [|x p IH]; intros [|y a]; simpl; try reflexivity;
    try discriminate.
  intros H. apply andb_true_iff in H as [-> H]. simpl. now apply IH.
Qed.

Lemma splitAtCI_eq (pat s : string) :
  splitAtCI pat s
  = if JsString.startsWith (JsString.toLowerCase pat) (JsString.toLowerCase s)
    then Some (EmptyString, String.substring (String.length pat) (String.length s) s)
    else
      match s with
      | EmptyString => None
      | String c s' =>
          match splitAtCI pat s' with
          | Some (before, after) => Some (String c before, after)
          | None => None
          end
      end.
Proof. destruct s; reflexivity. Qed.

Lemma splitAtCI_skip (pat x rest : string) :
  freeOf pat x = true ->
  splitAtCI pat (x +:+ rest)
  = match splitAtCI pat rest with
    | Some (before, after) => Some (x +:+ before, after)
    | None => None
    end.
Proof.
  induction x as [|c x IH]; intros H.
  - simpl. now destruct (splitAtCI pat rest) as [[? ?]|].
  - simpl in H. apply andb_true_iff in H as [Hc Hx]. apply negb_true_iff in Hc.
    change (String c x +:+ rest) with (String c (x +:+ rest)).
    rewrite splitAtCI_eq.
    destruct (JsString.startsWith _ _) eqn:Hs.
    + exfalso.
      change (String c (x +:+ rest)) with (String c x +:+ rest) in Hs.
      rewrite toLowerCase_app in Hs.
      apply startsWith_compatible, compatible_app in Hs. simpl in Hc, Hs. congruence.
    + rewrite (IH Hx). now destruct (splitAtCI pat rest) as [[? ?]|].
Qed.

Lemma startsWith_app_self (a b : string) : JsString.startsWith a (a +:+ b) = true.
Proof. apply startsWith_spec. now exists b. Qed.

Lemma substring_all (s : string) (m : nat) :
  (String.length s <= m)%nat -> String.substring 0 m s = s.
Proof.
  revert m. induction s as [|c s IH]; intros [|m] H; simpl in *; try reflexivity;
    try lia.
  rewrite IH; [reflexivity | lia].
Qed.

Lemma substring_drop (a b : string) (m : nat) :
  (String.length b <= m)%nat ->
  String.substring (String.length a) m (a +:+ b) = b.
Proof.
  intros H. induction a as [|c a IH]; simpl; [|exact IH].
  now apply substring_all.
Qed.

Lemma splitAtCI_here (pat p' rest : string) :
  JsString.toLowerCase p' = JsString.toLowerCase pat ->
  splitAtCI pat (p' +:+ rest) = Some ("", rest).
Proof.
  intros H. rewrite splitAtCI_eq, toLowerCase_app, <- H, startsWith_app_self.
  assert (String.length pat = String.length p') as ->
    by (rewrite <- (toLowerCase_length pat), <- H; apply toLowerCase_length).
  rewrite substring_drop; [reflexivity|]. rewrite str_length_app. lia.
Qed.

Lemma freeOf_app (p a b : string) :
  freeOf p a = true -> freeOf p b = true -> freeOf p (a +:+ b) = true.
Proof.
  intros Ha Hb. induction a as [|c a IH]; [exact Hb|].
  simpl in Ha. apply andb_true_iff in Ha as [Hc Ha].
  change (String c a +:+ b) with (String c (a +:+ b)).
  change (freeOf p (String c (a +:+ b)))
    with (negb (compatible (JsString.toLowerCase p)
                  (JsString.toLowerCase (String c a +:+ b)))
          && freeOf p (a +:+ b)).
  rewrite (IH Ha), andb_true_r. apply negb_true_iff. apply negb_true_iff in Hc.
  destruct (compatible _ (JsString.toLowerCase (String c a +:+ b))) eqn:Hk;
    [|reflexivity].
  rewrite toLowerCase_app in Hk. apply compatible_app in Hk. simpl in Hc, Hk. congruence.
Qed.

Lemma lower_char_lt (c : ascii) :
  Ascii.eqb c "<" = false -> Ascii.eqb "<" (JsString.lower_char c) = false.
Proof.
  destruct c as [[] [] [] [] [] [] [] []]; vm_compute; congruence.
Qed.

Lemma freeOf_no_lt (p x : string) :
  occurs "<"%char x = false -> freeOf (String "<" p) x = true.
Proof.
  induction x as [|c x IH]; [reflexivity|]. intros H. simpl in H.
  apply orb_false_iff in H as [Hc Hx].
  change (freeOf (String "<" p) (String c x))
    with (negb (Ascii.eqb "<" (JsString.lower_char c)
                && compatible (JsString.toLowerCase p) (JsString.toLowerCase x))
          && freeOf (String "<" p) x).
  now rewrite (lower_char_lt c Hc), (IH Hx).
Qed.

Lemma pickTag_at (tag opening closing pre body post : string) :
  JsString.toLowerCase opening = JsString.toLowerCase ("<" +:+ tag +:+ ">") ->
  JsString.toLowerCase closing = JsString.toLowerCase ("</" +:+ tag +:+ ">") ->
  freeOf ("<" +:+ tag +:+ ">") pre = true ->
  freeOf ("</" +:+ tag +:+ ">") body = true ->
  pickTag (pre +:+ opening +:+ body +:+ closing +:+ post) tag
  = Some (JsString.trim body).
Proof.
  intros Ho Hc Hpre Hbody. unfold pickTag.
  rewrite (splitAtCI_skip _ _ _ Hpre), (splitAtCI_here _ _ _ Ho).
  rewrite (splitAtCI_skip _ _ _ Hbody), (splitAtCI_here _ _ _ Hc).
  now rewrite str_app_nil_r.
Qed.

Lemma startsWith_app_cases (p a b : string) :
  JsString.startsWith p (a +:+ b) = true ->
  JsString.startsWith p a = true \/
  exists p2, p = a +:+ p2 /\ p2 <> "" /\ JsString.startsWith p2 b = true.
Proof.
  revert a. induction p as [|x p IH]; intros a H.
  - now left.
  - destruct a as [|y a].
    + right. exists (String x p). simpl in H. repeat split; [discriminate | exact H].
    + simpl in H. apply andb_true_iff in H as [Hxy H].
      apply Ascii.eqb_eq in Hxy. subst y.
      destruct (IH a H) as [Hs | (p2 & -> & Hne & Hs)].
      * left. simpl. now rewrite Ascii.eqb_refl.
      * right. exists p2. now repeat split.
Qed.

Lemma includes_here (p s : string) :
  JsString.includes p s = false -> JsString.startsWith p s = false.
Proof. destruct s; simpl; intros H; now apply orb_false_iff in H. Qed.

Lemma includes_tail (p : string) (c : ascii) (s : string) :
  JsString.includes p (String c s) = false -> JsString.includes p s = false.
Proof.
  intros H. change (JsString.includes p (String c s))
    with (JsString.startsWith p (String c s) || JsString.includes p s) in H.
  now apply orb_false_iff in H.
Qed.

(** A pattern that holds [<] at its start only is found after a text that
    does not hold it, when what follows the text starts with [<]. *)
Lemma splitAtCI_skip_text (p x rest : string) :
  occurs "<"%char (JsString.toLowerCase p) = false ->
  JsString.includes (JsString.toLowerCase (String "<" p)) (JsString.toLowerCase x)
  = false ->
  splitAtCI (String "<" p) (x +:+ String "<" rest)
  = match splitAtCI (String "<" p) (String "<" rest) with
    | Some (before, after) => Some (x +:+ before, after)
    | None => None
    end.
Proof.
  intros Hp. induction x as [|c x IH]; intros Hx.
  - change ("" +:+ String "<" rest) with (String "<" rest).
    now destruct (splitAtCI _ _) as [[? ?]|].
  - change (String c x +:+ String "<" rest) with (String c (x +:+ String "<" rest)).
    rewrite splitAtCI_eq.
    destruct (JsString.startsWith _ _) eqn:Hs.
    + exfalso.
      change (String c (x +:+ String "<" rest))
        with (String c x +:+ String "<" rest) in Hs.
      rewrite toLowerCase_app in Hs.
      apply startsWith_app_cases in Hs as [Hs | (p2 & Heq & Hne & Hs)].
      * apply includes_here in Hx. congruence.
      * destruct p2 as [|d p2]; [contradiction|].
        simpl in Hs. apply andb_true_iff in Hs as [Hd _].
        apply Ascii.eqb_eq in Hd. subst d.
        simpl in Heq. injection Heq as _ Heq.
        rewrite Heq, occurs_app in Hp. simpl in Hp.
        now rewrite orb_true_r in Hp.
    + rewrite IH.
      * now destruct (splitAtCI (String "<" p) (String "<" rest)) as [[? ?]|].
      * change (JsString.toLowerCase (String c x))
          with (String (JsString.lower_char c) (JsString.toLowerCase x)) in Hx.
        now apply includes_tail in Hx.
Qed.

Lemma occurs_lower_lt (s : string) :
  occurs "<"%char s = false -> occurs "<"%char (JsString.toLowerCase s) = false.
Proof.
  induction s as [|c s IH]; [reflexivity|]. simpl. intros H.
  apply orb_false_iff in H as [Hc Hs]. rewrite (IH Hs), orb_false_r.
  rewrite Ascii.eqb_sym. now apply lower_char_lt.
Qed.

Lemma opening_starts (opening pat : string) :
  JsString.toLowerCase opening = JsString.toLowerCase (String "<" pat) ->
  exists r, opening = String "<" r.
Proof.
  destruct opening as [|c r]; [discriminate|]. simpl. intros [= Hc _].
  exists r. f_equal.
  destruct c as [[] [] [] [] [] [] [] []]; vm_compute in Hc; congruence.
Qed.

Lemma plainName_no_lt (tag : string) :
  plainName tag = true -> occurs "<"%char tag = false.
Proof.
  induction tag as [|c r IH]; [reflexivity|]. simpl. intros H.
  apply andb_true_iff in H as [Hc Hr]. rewrite (IH Hr), orb_false_r.
  destruct c as [[] [] [] [] [] [] [] []]; vm_compute in Hc |- *; congruence.
Qed.

(** X6. [pickTag] reads the first element of the given name, for a name
    of letters and digits (the source puts the name into a regular
    expression as it is): when the opening tag does not occur in the text
    before it and the closing tag does not occur in the content, the result
    is the content without the white space around it, whatever follows the
    closing tag. Tags are compared without case. *)
Theorem pickTag_reads_first_element (tag opening closing pre body post : string) :
  plainName tag = true ->
  JsString.toLowerCase opening = JsString.toLowerCase ("<" +:+ tag +:+ ">") ->
  JsString.toLowerCase closing = JsString.toLowerCase ("</" +:+ tag +:+ ">") ->
  JsString.includes (JsString.toLowerCase ("<" +:+ tag +:+ ">"))
    (JsString.toLowerCase pre) = false ->
  JsString.includes (JsString.toLowerCase ("</" +:+ tag +:+ ">"))
    (JsString.toLowerCase body) = false ->
  pickTag (pre +:+ opening +:+ body +:+ closing +:+ post) tag
  = Some (JsString.trim body).
Proof.
  intros Hname Ho Hc Hpre Hbody. unfold pickTag.
  pose proof (plainName_no_lt tag Hname) as Htag.
  assert (forall lead, occurs "<"%char lead = false ->
            occurs "<"%char (JsString.toLowerCase (lead +:+ tag +:+ ">")) = false)
    as Hpat.
  { intros lead Hl. apply occurs_lower_lt. rewrite !occurs_app, Hl, Htag.
    reflexivity. }
  destruct (opening_starts opening (tag +:+ ">") Ho) as (ro & Hro).
  destruct (opening_starts closing ("/" +:+ tag +:+ ">") Hc) as (rc & Hrc).
  change ("<" +:+ tag +:+ ">") with (String "<" (tag +:+ ">")) in *.
  change ("</" +:+ tag +:+ ">") with (String "<" ("/" +:+ tag +:+ ">")) in *.
  rewrite Hro at 1. change (String "<" ro +:+ ?r) with (String "<" (ro +:+ r)).
  rewrite (splitAtCI_skip_text _ _ _ (Hpat "" eq_refl) Hpre).
  change (String "<" (ro +:+ ?r)) with (String "<" ro +:+ r). rewrite <- Hro.
  rewrite (splitAtCI_here _ _ _ Ho).
  rewrite Hrc at 1. change (String "<" rc +:+ ?r) with (String "<" (rc +:+ r)).
  rewrite (splitAtCI_skip_text _ _ _ (Hpat "/" eq_refl) Hbody).
  change (String "<" (rc +:+ ?r)) with (String "<" rc +:+ r). rewrite <- Hrc.
  rewrite (splitAtCI_here _ _ _ Hc).
  now rewrite str_app_nil_r.
Qed.

Lemma pickTag_reads_first_element_witness :
  pickTag ("<BESAPI><ActionResults><ActionID>42</ActionID><status> Expired </STATUS>"
           +:+ "<Computer><Status>Fixed</Status></Computer></ActionResults></BESAPI>")
    "Status"
  = Some "Expired".
Proof.
  apply (pickTag_reads_first_element "Status" "<status>" "</STATUS>"
           "<BESAPI><ActionResults><ActionID>42</ActionID>" " Expired "
           "<Computer><Status>Fixed</Status></Computer></ActionResults></BESAPI>");
    reflexivity.
Defined.

Lemma actionXml_segments (siteName fixletId relevance : string) (xmlOffset : value)
    (actionTitle : string) :
  actionXml siteName fixletId relevance xmlOffset actionTitle
  = (xmlProlog +:+ "<SourcedFixletAction><SourceFixlet>") +:+ "<Sitename>"
      +:+ xmlEscape (VStr siteName) +:+ "</Sitename>"
      +:+ "<FixletID>" +:+ xmlEscape (VStr fixletId) +:+ "</FixletID>"
      +:+ "<Action>Action1</Action></SourceFixlet><Target><CustomRelevance>"
      +:+ xmlEscape (VStr relevance)
      +:+ "</CustomRelevance></Target><Settings><HasEndTime>true</HasEndTime><EndDateTimeLocalOffset>"
      +:+ xmlEscape xmlOffset
      +:+ "</EndDateTimeLocalOffset><UseUTCTime>true</UseUTCTime></Settings>"
      +:+ "<Title>" +:+ xmlEscape (VStr actionTitle) +:+ "</Title>"
      +:+ "</SourcedFixletAction></BES>".
Proof. reflexivity. Qed.

(** X7. What the watcher reads back from a stored action document: for
    every document the trigger route builds, [parseActionXml] finds the
    three elements, and each is the escaped text the route wrote, without
    the white space around it. *)
Theorem stored_document_reads_back (siteName fixletId relevance : string)
    (xmlOffset : value) (actionTitle : string) :
  parseActionXml (actionXml siteName fixletId relevance xmlOffset actionTitle)
  = Parsed.mkDetails
      (Some (JsString.trim (xmlEscape (VStr siteName))))
      (Some (JsString.trim (xmlEscape (VStr fixletId))))
      (Some (JsString.trim (xmlEscape (VStr actionTitle)))).
Proof.
  unfold parseActionXml. rewrite actionXml_segments.
  set (e1 := xmlEscape (VStr siteName)). set (e2 := xmlEscape (VStr fixletId)).
  set (e3 := xmlEscape (VStr relevance)). set (e4 := xmlEscape xmlOffset).
  set (e5 := xmlEscape (VStr actionTitle)).
  assert (H1 : occurs "<"%char e1 = false) by apply xmlEscape_no_lt.
  assert (H2 : occurs "<"%char e2 = false) by apply xmlEscape_no_lt.
  assert (H3 : occurs "<"%char e3 = false) by apply xmlEscape_no_lt.
  assert (H4 : occurs "<"%char e4 = false) by apply xmlEscape_no_lt.
  assert (H5 : occurs "<"%char e5 = false) by apply xmlEscape_no_lt.
  f_equal.
  - apply pickTag_at; [reflexivity | reflexivity | reflexivity |].
    now apply (freeOf_no_lt "/Sitename>").
  - rewrite <- !(str_app_assoc _ _ ("<FixletID>" +:+ _)).
    apply pickTag_at; [reflexivity | reflexivity | |].
    + rewrite !str_app_assoc.
      repeat (apply freeOf_app;
              [first [reflexivity | now apply (freeOf_no_lt "FixletID>")]|]).
      reflexivity.
    + now apply (freeOf_no_lt "/FixletID>").
  - rewrite <- !(str_app_assoc _ _ ("<Title>" +:+ _)).
    apply pickTag_at; [reflexivity | reflexivity | |].
    + rewrite !str_app_assoc.
      repeat (apply freeOf_app;
              [first [reflexivity | now apply (freeOf_no_lt "Title>")]|]).
      reflexivity.
    + now apply (freeOf_no_lt "/Title>").
Qed.

(** ** Titles *)

Lemma splitEndCI_eq (w s : string) :
  splitEndCI w s
  = if String.eqb (JsString.toLowerCase s) (JsString.toLowerCase w)
    then Some (EmptyString, s)
    else
      match s with
      | EmptyString => None
      | String c s' =>
          match splitEndCI w s' with
          | Some (before, ending) => Some (String c before, ending)
          | None => None
          end
      end.
Proof. destruct s; reflexivity. Qed.

Lemma splitEndCI_found (w x e : string) :
  JsString.toLowerCase e = JsString.toLowerCase w ->
  splitEndCI w (x +:+ e) = Some (x, e).
Proof.
  intros H. induction x as [|c x IH].
  - simpl. rewrite splitEndCI_eq, H, String.eqb_refl. reflexivity.
  - change (String c x +:+ e) with (String c (x +:+ e)).
    rewrite splitEndCI_eq.
    destruct (String.eqb _ _) eqn:Heq.
    + exfalso. apply String.eqb_eq in Heq.
      apply (f_equal String.length) in Heq.
      rewrite <- H, !toLowerCase_length in Heq. simpl in Heq.
      rewrite str_length_app in Heq. lia.
    + now rewrite IH.
Qed.

Lemma splitEndCI_sound (w s x e : string) :
  splitEndCI w s = Some (x, e) ->
  s = x +:+ e /\ JsString.toLowerCase e = JsString.toLowerCase w.
Proof.
  revert x. induction s as [|c s IH]; intros x; rewrite splitEndCI_eq.
  - destruct (String.eqb _ _) eqn:Heq; [|discriminate].
    intros [= <- <-]. apply String.eqb_eq in Heq. now split.
  - destruct (String.eqb _ _) eqn:Heq.
    + intros [= <- <-]. apply String.eqb_eq in Heq. now split.
    + destruct (splitEndCI w s) as [[b e']|] eqn:Hs; [|discriminate].
      intros [= <- <-]. destruct (IH b eq_refl) as [-> He]. now split.
Qed.

Lemma endsWithChar_app (c d : ascii) (a z : string) :
  endsWithChar c (a +:+ String d z) = endsWithChar c (String d z).
Proof.
  induction a as [|x a IH]; [reflexivity|].
  change (String x a +:+ String d z) with (String x (a +:+ String d z)).
  destruct (a +:+ String d z) as [|y r] eqn:Ha.
  - destruct a; discriminate Ha.
  - change (endsWithChar c (String x (String y r))) with (endsWithChar c (String y r)).
    exact IH.
Qed.

(** A title that ends with one stage word does not end with another. *)
Lemma splitEndCI_other (w w' x stage : string) (c : ascii) :
  JsString.toLowerCase stage = JsString.toLowerCase w' ->
  endsWithChar c (JsString.toLowerCase ("_" +:+ w)) = true ->
  endsWithChar c (JsString.toLowerCase ("_" +:+ w')) = false ->
  splitEndCI ("_" +:+ w) (x +:+ "_" +:+ stage) = None.
Proof.
  intros Hst Hw Hw'.
  destruct (splitEndCI ("_" +:+ w) (x +:+ "_" +:+ stage)) as [[b e]|] eqn:Hs;
    [|reflexivity].
  exfalso. apply splitEndCI_sound in Hs as [Heq He].
  apply (f_equal JsString.toLowerCase) in Heq.
  rewrite !toLowerCase_app, He, Hst in Heq.
  apply (f_equal (endsWithChar c)) in Heq.
  change (JsString.toLowerCase "_" +:+ JsString.toLowerCase w')
    with (JsString.toLowerCase ("_" +:+ w')) in Heq.
  simpl JsString.toLowerCase in Heq, Hw, Hw'.
  rewrite !endsWithChar_app in Heq. congruence.
Qed.

Lemma stageMatch_title (x stage w : string) :
  In w stageWords ->
  JsString.toLowerCase stage = JsString.toLowerCase w ->
  stageMatch (x +:+ "_" +:+ stage) = Some (x, stage).
Proof.
  intros Hw Hst. unfold stageMatch, stageWords.
  assert (splitEndCI ("_" +:+ w) (x +:+ "_" +:+ stage) = Some (x, "_" +:+ stage)) as Hfound.
  { apply splitEndCI_found. simpl. now rewrite Hst. }
  destruct Hw as [<- | [<- | [<- | []]]]; cbn [stageMatchOf].
  - now rewrite Hfound.
  - rewrite (splitEndCI_other "Sandbox" "Pilot" x stage "x" Hst eq_refl eq_refl).
    now rewrite Hfound.
  - rewrite (splitEndCI_other "Sandbox" "Production" x stage "x" Hst eq_refl eq_refl).
    rewrite (splitEndCI_other "Pilot" "Production" x stage "t" Hst eq_refl eq_refl).
    now rewrite Hfound.
Qed.

(** X8. The baseline name inferred from a title is the one the title was
    built from: for a title [BPS_<baseline>_<stage>] whose stage is Sandbox,
    Pilot or Production in any letter case, [inferBaselineFromTitle] returns
    the baseline name, whatever characters it holds. *)
Theorem inferBaselineFromTitle_round_trip (baselineName stage w : string) :
  In w stageWords ->
  JsString.toLowerCase stage = JsString.toLowerCase w ->
  inferBaselineFromTitle (Some (actionTitleOf baselineName stage)) = baselineName.
Proof.
  intros Hw Hst. unfold inferBaselineFromTitle, actionTitleOf.
  change ("BPS_" +:+ baselineName +:+ "_" +:+ stage)
    with (String "B" ("PS_" +:+ baselineName +:+ "_" +:+ stage)).
  cbv beta iota.
  change (dropPrefix "BPS_" (String "B" ("PS_" +:+ baselineName +:+ "_" +:+ stage)))
    with (Some (baselineName +:+ "_" +:+ stage)).
  cbn [default from_option id].
  now rewrite (stageMatch_title baselineName stage w Hw Hst).
Qed.

Lemma inferBaselineFromTitle_round_trip_witness :
  inferBaselineFromTitle (Some (actionTitleOf "BPS_Win_Pilot" "PRODUCTION"))
  = "BPS_Win_Pilot".
Proof.
  apply (inferBaselineFromTitle_round_trip "BPS_Win_Pilot" "PRODUCTION" "Production");
    [right; right; left|]; reflexivity.
Defined.

Lemma is_space_lower (c : ascii) :
  JsString.is_space (JsString.lower_char c) = JsString.is_space c.
Proof. destruct c as [[] [] [] [] [] [] [] []]; reflexivity. Qed.

Lemma toLowerCase_empty (s : string) : JsString.toLowerCase s = "" -> s = "".
Proof. destruct s; [reflexivity | discriminate]. Qed.

Lemma trimEnd_of_lower (s : string) :
  JsString.trimEnd (JsString.toLowerCase s) = JsString.toLowerCase s ->
  JsString.trimEnd s = s.
Proof.
  induction s as [|c s IH]; [reflexivity|].
  change (JsString.toLowerCase (String c s))
    with (String (JsString.lower_char c) (JsString.toLowerCase s)).
  rewrite !trimEnd_cons, is_space_lower.
  destruct (JsString.trimEnd (JsString.toLowerCase s)) as [|d t] eqn:Ht.
  - destruct (JsString.is_space c); [discriminate|].
    intros [= H]. symmetry in H. apply toLowerCase_empty in H. now subst s.
  - intros [= H]. rewrite (IH H).
    destruct s; [discriminate H | reflexivity].
Qed.

Lemma trimEnd_app_fixed (a e : string) :
  JsString.trimEnd e = e -> e <> "" -> JsString.trimEnd (a +:+ e) = a +:+ e.
Proof.
  intros He Hne. induction a as [|c a IH]; [exact He|].
  change (String c a +:+ e) with (String c (a +:+ e)).
  rewrite trimEnd_cons, IH.
  destruct (a +:+ e) eqn:Hae; [|reflexivity].
  destruct a; [simpl in Hae; contradiction | discriminate Hae].
Qed.

Lemma upper_of_lower (c low up : ascii) :
  In (low, up) [("s"%char, "S"%char); ("p"%char, "P"%char)] ->
  JsString.lower_char c = low -> upper_char c = up.
Proof.
  intros [[= <- <-] | [[= <- <-] | []]];
    destruct c as [[] [] [] [] [] [] [] []]; vm_compute; congruence.
Qed.

(** X9. The stage inferred from a title is the stage the title was built
    with, in its canonical spelling: for a title [BPS_<baseline>_<stage>]
    whose stage is Sandbox, Pilot or Production in any letter case,
    [inferStageFromTitle] returns that word with a capital first letter and
    the rest in lower case. *)
Theorem inferStageFromTitle_round_trip (baselineName stage w : string) :
  In w stageWords ->
  JsString.toLowerCase stage = JsString.toLowerCase w ->
  inferStageFromTitle (Some (actionTitleOf baselineName stage)) = w.
Proof.
  intros Hw Hst. unfold inferStageFromTitle, actionTitleOf.
  change ("BPS_" +:+ baselineName +:+ "_" +:+ stage)
    with (String "B" ("PS_" +:+ baselineName +:+ "_" +:+ stage)).
  cbv beta iota.
  assert (JsString.trimEnd stage = stage /\ stage <> "") as [Hte Hne].
  { split.
    - apply trimEnd_of_lower. rewrite Hst.
      destruct Hw as [<- | [<- | [<- | []]]]; reflexivity.
    - intros ->. destruct Hw as [<- | [<- | [<- | []]]]; discriminate Hst. }
  assert (JsString.trim (String "B" ("PS_" +:+ baselineName +:+ "_" +:+ stage))
          = ("BPS_" +:+ baselineName) +:+ "_" +:+ stage) as ->.
  { unfold JsString.trim.
    change (JsString.trimStart (String "B" ("PS_" +:+ baselineName +:+ "_" +:+ stage)))
      with ("BPS_" +:+ baselineName +:+ "_" +:+ stage).
    rewrite <- !str_app_assoc.
    rewrite (trimEnd_app_fixed _ _ Hte Hne). now rewrite !str_app_assoc. }
  rewrite (stageMatch_title _ stage w Hw Hst).
  destruct stage as [|c rest]; [contradiction|].
  destruct Hw as [<- | [<- | [<- | []]]]; simpl in Hst; injection Hst as Hc Hrest;
    rewrite Hrest; f_equal.
  - apply (upper_of_lower c "s" "S"); [now left | exact Hc].
  - apply (upper_of_lower c "p" "P"); [now right; left | exact Hc].
  - apply (upper_of_lower c "p" "P"); [now right; left | exact Hc].
Qed.

Lemma inferStageFromTitle_round_trip_witness :
  inferStageFromTitle (Some (actionTitleOf "Win 2019 & SQL" "pILOT")) = "Pilot".
Proof.
  apply (inferStageFromTitle_round_trip "Win 2019 & SQL" "pILOT" "Pilot");
    [right; left|]; reflexivity.
Defined.

(** ** Query answers *)

Lemma collectStrings_strings (t : list string) :
  collectStrings (VArr (map VStr t)) = t.
Proof.
  simpl. induction t as [|s t IH]; simpl; [reflexivity | now rewrite IH].
Qed.

(** X10. A query answer whose [result] is an array of tuples of strings is
    read back as those tuples, in order, whatever other keys the answer
    holds. *)
Theorem parseTupleRows_reads_tuples (json : value) (rows : list (list string)) :
  Js.get json "result" = VArr (map (fun t => VArr (map VStr t)) rows) ->
  parseTupleRows json = rows.
Proof.
  intros H. unfold parseTupleRows, resultRows. rewrite H. clear H.
  induction rows as [|t rows IH]; [reflexivity|].
  cbn [map]. now rewrite collectStrings_strings, IH.
Qed.

Lemma parseTupleRows_reads_tuples_witness :
  parseTupleRows
    (VObj [("result", VArr [VArr [VStr "SRV-01"; VStr "KB5031364"];
                            VArr [VStr "SRV-02"; VStr "KB5031364"]]);
           ("plural", VBool true)])
  = [["SRV-01"; "KB5031364"]; ["SRV-02"; "KB5031364"]].
Proof.
  apply (parseTupleRows_reads_tuples _ [["SRV-01"; "KB5031364"]; ["SRV-02"; "KB5031364"]]).
  reflexivity.
Defined.

(** ** Comma-separated values *)

Lemma code_quote (c : ascii) : (JsString.code c =? 34)%N = Ascii.eqb c "034".
Proof. destruct c as [[] [] [] [] [] [] [] []]; reflexivity. Qed.

Lemma code_comma (c : ascii) : (JsString.code c =? 44)%N = Ascii.eqb c ",".
Proof. destruct c as [[] [] [] [] [] [] [] []]; reflexivity. Qed.

Lemma includes_char (c : ascii) (s : string) :
  JsString.includes (String c "") s = occurs c s.
Proof.
  induction s as [|a s IH]; simpl; [reflexivity|].
  now rewrite IH, andb_true_r, Ascii.eqb_sym.
Qed.

Lemma code_cr (c : ascii) : (JsString.code c =? 13)%N = Ascii.eqb c "013".
Proof. destruct c as [[] [] [] [] [] [] [] []]; reflexivity. Qed.

Lemma csvRecordsFrom_shape (st : csvState) (s : string) :
  match csvRecordsFrom st s with
  | Some ((_ :: _) :: _) | None => True
  | _ => False
  end.
Proof.
  revert st. induction s as [|c s IH]; intros st.
  - now destruct st.
  - assert (forall o,
              match o with Some ((_ :: _) :: _) | None => True | _ => False end ->
              match addChar c o with
              | Some ((_ :: _) :: _) | None => True
              | _ => False
              end) as Hadd by (intros [[|[|f fs] rs]|]; simpl; tauto).
    assert (forall o,
              match o with Some ((_ :: _) :: _) | None => True | _ => False end ->
              match newField o with
              | Some ((_ :: _) :: _) | None => True
              | _ => False
              end) as Hfield by (intros [[|[|f fs] rs]|]; simpl; tauto).
    assert (forall o,
              match newRecord o with
              | Some ((_ :: _) :: _) | None => True
              | _ => False
              end) as Hrecord by (intros [rs|]; exact I).
    destruct st; cbn [csvRecordsFrom]; cbv zeta;
      repeat match goal with
             | |- context [if ?b then _ else _] => destruct b
             | |- context [match s with _ => _ end] => destruct s
             end;
      first [ exact I | apply IH | apply Hrecord
            | apply Hadd; apply IH | apply Hfield; apply IH ].
Qed.

Lemma prefixField_nil (st : csvState) (T : string) :
  prefixField "" (csvRecordsFrom st T) = csvRecordsFrom st T.
Proof.
  pose proof (csvRecordsFrom_shape st T) as H.
  now destruct (csvRecordsFrom st T) as [[|[|f fs] rs]|].
Qed.

Lemma prefixField_addChar (c : ascii) (f : string)
    (records : option (list (list string))) :
  addChar c (prefixField f records) = prefixField (String c f) records.
Proof. now destruct records as [[|[|x xs] rs]|]. Qed.

Lemma records_at_delimiter (T : string) :
  delimiter T ->
  csvRecordsFrom InPlain T = csvRecordsFrom FieldStart T /\
  csvRecordsFrom QuoteSeen T = csvRecordsFrom FieldStart T.
Proof. intros [-> | [(L & ->) | (L & ->)]]; now split. Qed.

Lemma records_plain_char (c : ascii) (r : string) :
  Ascii.eqb c "," = false -> Ascii.eqb c "013" = false ->
  csvRecordsFrom InPlain (String c r) = addChar c (csvRecordsFrom InPlain r).
Proof.
  intros Hcomma Hcr. cbn [csvRecordsFrom]. cbv zeta.
  rewrite code_comma, Hcomma, code_cr, Hcr. now destruct r.
Qed.

Lemma records_first_char (c : ascii) (r : string) :
  Ascii.eqb c "034" = false -> Ascii.eqb c "," = false ->
  Ascii.eqb c "013" = false ->
  csvRecordsFrom FieldStart (String c r) = addChar c (csvRecordsFrom InPlain r).
Proof.
  intros Hquote Hcomma Hcr. cbn [csvRecordsFrom]. cbv zeta.
  rewrite code_quote, Hquote, code_comma, Hcomma, code_cr, Hcr. now destruct r.
Qed.

Lemma records_plain_from (f T : string) :
  occurs "," f = false -> occurs "013" f = false ->
  csvRecordsFrom InPlain (f +:+ T) = prefixField f (csvRecordsFrom InPlain T).
Proof.
  induction f as [|c f IH]; intros Hcomma Hcr.
  - symmetry. apply prefixField_nil.
  - simpl in Hcomma, Hcr.
    apply orb_false_iff in Hcomma as [Hc1 Hcomma], Hcr as [Hr1 Hcr].
    change (String c f +:+ T) with (String c (f +:+ T)).
    rewrite records_plain_char by assumption.
    rewrite (IH Hcomma Hcr). apply prefixField_addChar.
Qed.

Lemma plain_readsAs (f : string) :
  occurs "034" f = false -> occurs "," f = false -> occurs "013" f = false ->
  readsAs f f.
Proof.
  intros Hquote Hcomma Hcr T HT.
  destruct (records_at_delimiter T HT) as [Hplain _].
  destruct f as [|c f].
  - symmetry. apply prefixField_nil.
  - simpl in Hquote, Hcomma, Hcr.
    apply orb_false_iff in Hquote as [Hq1 _], Hcomma as [Hc1 Hcomma],
      Hcr as [Hr1 Hcr].
    change (String c f +:+ T) with (String c (f +:+ T)).
    rewrite records_first_char by assumption.
    rewrite (records_plain_from f T Hcomma Hcr), Hplain.
    apply prefixField_addChar.
Qed.

Lemma records_quoted_from (f T : string) :
  csvRecordsFrom InQuoted
    (JsString.replaceAll "034" (dquote +:+ dquote) f +:+ dquote +:+ T)
  = prefixField f (csvRecordsFrom QuoteSeen T).
Proof.
  induction f as [|c f IH].
  - change (csvRecordsFrom InQuoted
              (JsString.replaceAll "034" (dquote +:+ dquote) "" +:+ dquote +:+ T))
      with (csvRecordsFrom QuoteSeen T).
    symmetry. apply prefixField_nil.
  - cbn [JsString.replaceAll]. destruct (Ascii.eqb c "034") eqn:Hc.
    + apply Ascii.eqb_eq in Hc. subst c. rewrite str_app_assoc.
      change ((dquote +:+ dquote) +:+ ?r) with (String "034" (String "034" r)).
      cbn [csvRecordsFrom]. rewrite !code_quote. cbn [Ascii.eqb Bool.eqb].
      change (Ascii.eqb "034" "034") with true. cbv iota.
      rewrite IH. apply prefixField_addChar.
    + change (String c ?a +:+ ?b) with (String c (a +:+ b)).
      cbn [csvRecordsFrom]. rewrite code_quote, Hc, IH.
      apply prefixField_addChar.
Qed.

Lemma quoted_readsAs (f : string) :
  readsAs (dquote +:+ JsString.replaceAll "034" (dquote +:+ dquote) f +:+ dquote) f.
Proof.
  intros T HT. destruct (records_at_delimiter T HT) as [_ Hseen].
  rewrite !str_app_assoc.
  change (dquote +:+ ?r) with (String "034" r).
  cbn [csvRecordsFrom]. change (JsString.code "034" =? 34)%N with true. cbv iota.
  now rewrite records_quoted_from, Hseen.
Qed.

Lemma csvEscape_readsAs (v : value) :
  oneLine v -> readsAs (csvEscape v) (csvText v).
Proof.
  intros [Hline _]. unfold csvEscape. cbv zeta.
  change dquote with (String "034" "") at 1.
  rewrite !includes_char.
  destruct (occurs "034" (csvText v)) eqn:Hq; cbn [orb].
  - apply quoted_readsAs.
  - destruct (occurs "," (csvText v)) eqn:Hc.
    + apply quoted_readsAs.
    + now apply plain_readsAs.
Qed.

Lemma quoteCsv_readsAs (name : value) :
  readsAs (quoteCsv name) (Js.toString name).
Proof. apply quoted_readsAs. Qed.

Lemma row_reads (cells : list (string * string)) (T : string)
    (rs : list (list string)) :
  cells <> [] ->
  Forall (fun cell => readsAs (fst cell) (snd cell)) cells ->
  T = "" \/ (exists L, T = crlf +:+ L) ->
  csvRecordsFrom FieldStart T = Some ([""] :: rs) ->
  csvRecordsFrom FieldStart (String.concat "," (map fst cells) +:+ T)
  = Some (map snd cells :: rs).
Proof.
  intros Hne Hcells HT Hrest.
  assert (delimiter T) as Hdel by (destruct HT; [now left | now right; right]).
  induction Hcells as [|[cell content] cells Hcell _ IH]; [contradiction|].
  cbn [fst snd] in Hcell.
  destruct cells as [|next cells].
  - cbn [map String.concat fst snd]. rewrite (Hcell T Hdel), Hrest.
    cbn [prefixField]. now rewrite str_app_nil_r.
  - change (String.concat "," (map fst ((cell, content) :: next :: cells)))
      with (cell +:+ String "," (String.concat "," (map fst (next :: cells)))).
    rewrite str_app_assoc.
    change (String "," ?a +:+ T) with (String "," (a +:+ T)).
    rewrite (Hcell _ (or_intror (or_introl (ex_intro _ _ eq_refl)))).
    cbn [csvRecordsFrom]. change (JsString.code "," =? 34)%N with false.
    change (JsString.code "," =? 44)%N with true. cbv iota.
    rewrite IH by discriminate. cbn [newField prefixField map fst snd].
    now rewrite str_app_nil_r.
Qed.

Lemma file_reads (rows : list (list (string * string))) :
  rows <> [] ->
  Forall (fun cells => cells <> [] /\
                       Forall (fun cell => readsAs (fst cell) (snd cell)) cells)
         rows ->
  csvRecords (String.concat crlf
                (map (fun cells => String.concat "," (map fst cells)) rows))
  = Some (map (map snd) rows).
Proof.
  unfold csvRecords. intros Hne Hrows.
  induction Hrows as [|cells rows [Hcells Hread] _ IH]; [contradiction|].
  destruct rows as [|next rows].
  - cbn [map String.concat].
    rewrite <- (str_app_nil_r (String.concat "," (map fst cells))).
    now apply row_reads; [| |left|].
  - change (String.concat crlf
              (map (fun cells => String.concat "," (map fst cells))
                   (cells :: next :: rows)))
      with (String.concat "," (map fst cells)
              +:+ crlf
              +:+ String.concat crlf
                    (map (fun cells => String.concat "," (map fst cells))
                         (next :: rows))).
    apply row_reads; [exact Hcells | exact Hread | right; eauto |].
    change (crlf +:+ ?r) with (String "013" (String "010" r)).
    cbn [csvRecordsFrom]. cbv zeta.
    change (JsString.code "013" =? 34)%N with false.
    change (JsString.code "013" =? 44)%N with false.
    change (JsString.code "013" =? 13)%N with true.
    change (JsString.code "010" =? 10)%N with true.
    cbv iota. cbn [andb]. cbv iota.
    now rewrite IH.
Qed.

Lemma header_readsAs :
  Forall (fun cell : string * string => readsAs (fst cell) (snd cell))
    (map (fun h => (h, h)) ("ServerName" :: csvHeaders)).
Proof. repeat constructor; now apply plain_readsAs. Qed.

(** X11. The result attachment reads back as it was written: when no
    value holds a carriage return or a line feed, reading the whole text as
    a file of comma-separated values, its records ended by CR LF, gives the
    header and then, for each row, the texts of its five values, with N/A
    for a value that is missing, whatever commas and quotes the values
    hold. *)
Theorem result_attachment_reads_back (data : list Result.row) (text : string) :
  toResultsCSV data = Some text ->
  Forall (fun r => Forall oneLine (rowValues r)) data ->
  csvRecords text
  = Some (csvHeaders :: map (fun r => map csvText (rowValues r)) data).
Proof.
  intros Htext Hlines.
  destruct data as [|r data]; [discriminate Htext|].
  set (cellsOf := fun r : Result.row =>
                    map (fun v => (csvEscape v, csvText v)) (rowValues r)).
  set (rows := map (fun h => (h, h)) csvHeaders :: map cellsOf (r :: data)).
  assert (text
          = String.concat crlf
              (map (fun cells => String.concat "," (map fst cells)) rows)) as ->.
  { injection Htext as <-. subst rows. cbn [map]. rewrite (map_map cellsOf).
    reflexivity. }
  rewrite file_reads.
  - subst rows. cbn [map]. rewrite (map_map cellsOf). reflexivity.
  - discriminate.
  - subst rows. constructor.
    + split; [discriminate|]. pose proof header_readsAs as H.
      now apply Forall_inv_tail in H.
    + apply List.Forall_map. eapply List.Forall_impl; [|exact Hlines].
      intros r0 Hr0. split; [discriminate|]. subst cellsOf. cbv beta.
      apply List.Forall_map. eapply List.Forall_impl; [|exact Hr0].
      intros v Hv. now apply csvEscape_readsAs.
Qed.

Lemma result_attachment_reads_back_witness :
  match toResultsCSV sampleResults with
  | Some text => csvRecords text
  | None => None
  end
  = Some [csvHeaders;
          ["SRV-01"; "KB5031364, KB5031365"; "Fixed"; "N/A"; "N/A"];
          ["SRV-02"; "KB5031364"; "Failed: " +:+ dquote +:+ "locked" +:+ dquote;
           "Mon, 06 Jan"; "Tue, 07 Jan"]].
Proof.
  destruct (toResultsCSV sampleResults) as [text|] eqn:Htext;
    [|discriminate Htext].
  apply (result_attachment_reads_back sampleResults text Htext).
  repeat constructor.
Defined.

(** The post-patch mail carries a result attachment exactly when the
    result query gave at least one tuple: there is none when the query
    throws, when its status is not 2xx, and when its result is not an array
    or is empty. *)
Theorem attachment_only_with_results (answer : http value) :
  toResultsCSV (fetchActionResults answer) = None
  <-> (forall st data, answer = HttpResp st data -> is2xx st = true ->
                       resultRows data = []).
Proof.
  destruct answer as [message | st data]; simpl.
  - split; [discriminate | reflexivity].
  - destruct (is2xx st) eqn:Hst; simpl.
    + unfold parseTupleRows. split.
      * intros H st' data' [= <- <-] _.
        destruct (resultRows data); [reflexivity | discriminate H].
      * intros H. now rewrite (H st data eq_refl Hst).
    + split; [|reflexivity]. intros _ st' data' [= <- <-] H. congruence.
Qed.

(** X12. The member list attached to the trigger mail: there is no
    attachment exactly for an empty list; otherwise the text reads back, as
    a file of comma-separated values, as the header ServerName followed by
    one record per member that holds the name of that member, whatever
    characters the names hold: commas, quotes or line breaks. *)
Theorem member_list_reads_back (serverList : list value) :
  (toCSV serverList = None <-> serverList = []) /\
  (forall text,
     toCSV serverList = Some text ->
     csvRecords text
     = Some (["ServerName"] :: map (fun name => [Js.toString name]) serverList)).
Proof.
  split.
  - destruct serverList; split; intros H; try reflexivity; discriminate H.
  - intros text Htext. destruct serverList as [|name rest]; [discriminate Htext|].
    set (cellsOf := fun name : value => [(quoteCsv name, Js.toString name)]).
    set (rows := [("ServerName", "ServerName")] :: map cellsOf (name :: rest)).
    assert (text
            = String.concat crlf
                (map (fun cells => String.concat "," (map fst cells)) rows)) as ->.
    { injection Htext as <-. subst rows. cbn [map]. rewrite (map_map cellsOf).
      reflexivity. }
    rewrite file_reads.
    + subst rows. cbn [map]. rewrite (map_map cellsOf). reflexivity.
    + discriminate.
    + subst rows. constructor.
      * split; [discriminate|]. pose proof header_readsAs as H.
        apply Forall_inv in H. now constructor.
      * apply List.Forall_map, List.Forall_forall. intros v _.
        split; [discriminate|]. constructor; [|constructor].
        apply quoteCsv_readsAs.
Qed.

(** ** Replies and records of the trigger route *)

#[export] Instance recordsKept_preorder : PreOrder recordsKept.
Proof.
  split.
  - intros m. now repeat split.
  - intros m1 m2 m3 (Ha & Hl & Hh) (Ha' & Hl' & Hh'). repeat split; congruence.
Qed.

#[export] Instance unless_preorder (A : Prop) (R : relation Machine)
    `{!PreOrder R} : PreOrder (unless A R).
Proof.
  split.
  - intros m. right. reflexivity.
  - intros m1 m2 m3 [HA | H12] [HA' | H23]; try (now left).
    right. etransitivity; eassumption.
Qed.

Lemma recordsKept_emit (e : event) (m : Machine) : recordsKept m (emit e m).
Proof. now repeat split. Qed.

Lemma recordsKept_ownership (f : list OwnershipRow -> list OwnershipRow) (m : Machine) :
  recordsKept m (setAssetOwnership f m).
Proof. now repeat split. Qed.

Lemma returns_ret {A} (a : A) (Q : A -> Prop) : Q a -> returns (ret a) Q.
Proof. intros H m a' m' [= <- _]. exact H. Qed.

Lemma returns_throw {A} (e : string) (Q : A -> Prop) : returns (throw e) Q.
Proof. intros m a m' H. discriminate H. Qed.

Lemma returns_bind {A B} (c : M A) (k : A -> M B) (Q1 : A -> Prop) (Q : B -> Prop) :
  returns c Q1 -> (forall a, Q1 a -> returns (k a) Q) -> returns (bind c k) Q.
Proof.
  intros Hc Hk m b m'. unfold bind.
  destruct (c m) as [[a | e] m1] eqn:Hcm; [|discriminate].
  intros H. eapply Hk; [|exact H]. eapply Hc. exact Hcm.
Qed.

Lemma returns_any {A} (c : M A) : returns c (fun _ => True).
Proof. now intros m a m' _. Qed.


(** One step of a proof about the values a computation returns. *)
Ltac returns_step :=
  lazymatch goal with
  | |- returns (bind (call _ _) _) _ =>
      eapply returns_bind; [apply returns_call | intros [? ?] ?; simpl in * ]
  | |- returns (bind _ _) _ => eapply returns_bind; [apply returns_any | intros ? _]
  | |- returns (throw _) _ => apply returns_throw
  | |- returns (match ?x with _ => _ end) _ => destruct x eqn:?
  | |- returns (let _ := _ in _) _ => cbv zeta
  end.

Section ReplyFacts.

Variable StringToNumber : string -> number.
Variable JSONstringify : value -> string.
Variable extractActionIdFromXml : string -> option string.
Variable sqlEq : string -> string -> bool.

(** What a trigger that returns has seen: the submission was answered 2xx,
    and the identifier it returns is the one read from that answer. *)
Lemma trigger_returns (w : TriggerWorld) (a : TriggerArgs) :
  returns (triggerBaselineAction StringToNumber JSONstringify
             extractActionIdFromXml sqlEq w a)
    (fun out =>
       exists st data,
         submitAnswer w = HttpResp st data /\ is2xx st = true /\
         Js.assoc "actionId" (outFields out)
         = Some (match extractActionIdFromXml data with
                 | Some id => VStr id
                 | None => VNull
                 end)).
Proof.
  unfold triggerBaselineAction, receiver, selfHeal.
  repeat returns_step.
  apply returns_ret.
  match goal with
  | H : submitAnswer w = HttpResp ?st ?data |- _ => exists st, data
  end.
  split; [assumption|]. split; [now apply negb_false_iff|]. reflexivity.
Qed.

Lemma assoc_app (k : string) (pre fields : list (string * value)) (v : value) :
  Js.assoc k fields = Some v -> Js.assoc k (pre ++ fields) = Some v.
Proof.
  intros H. induction pre as [|[k' v'] pre IH]; [exact H|].
  simpl. now rewrite IH.
Qed.

Lemma changeGate_returns (w : TriggerWorld) (isForced : bool) (b : value) :
  returns (changeGate w isForced b)
    (fun gate => match gate with Some r => status r = 400 | None => True end).
Proof.
  unfold changeGate. cbv zeta.
  destruct (_ && _); [|now apply returns_ret].
  destruct (_ || _); [now apply returns_ret|].
  eapply returns_bind; [apply returns_any | intros _ _].
  destruct (changeVerdict w) as [message | [|] code message].
  - apply returns_throw.
  - now apply returns_ret.
  - now apply returns_ret.
Qed.

(** X13. Every reply of the trigger route has status 200, 400 or 500. A
    reply of 200 is given only after the action document was submitted and
    the submission answered with a 2xx status; its actionId is the
    identifier read from that answer, or null when none can be read. *)
Theorem reply_status_is_200_400_or_500 (w : TriggerWorld) (isForced : bool)
    (environment : string) (reqBody : value) (m m' : Machine) (r : Response) :
  handleStageTrigger StringToNumber JSONstringify extractActionIdFromXml
    sqlEq w isForced environment reqBody m = (Return r, m') ->
  (status r = 200 \/ status r = 400 \/ status r = 500) /\
  (status r = 200 ->
   exists st data,
     submitAnswer w = HttpResp st data /\ is2xx st = true /\
     Js.get (body r) "actionId"
     = match extractActionIdFromXml data with
       | Some id => VStr id
       | None => VNull
       end).
Proof.
  unfold handleStageTrigger.
  match goal with
  | |- context [tryCatch ?c ?h] => set (inner := c); set (handler := h)
  end.
  assert (returns inner
            (fun r =>
               status r = 400 \/
               (status r = 200 /\
                exists st data,
                  submitAnswer w = HttpResp st data /\ is2xx st = true /\
                  Js.get (body r) "actionId"
                  = match extractActionIdFromXml data with
                    | Some id => VStr id
                    | None => VNull
                    end))) as Hinner.
  { subst inner. cbv zeta.
    destruct (negb _ || negb _); [apply returns_ret; now left|].
    eapply returns_bind; [apply changeGate_returns | intros gate Hgate].
    destruct gate as [r0|]; [apply returns_ret; now left|].
    destruct (chooseOffset _ _ _ _) as [chosenOffset|];
      [|apply returns_ret; now left].
    eapply returns_bind; [apply trigger_returns|].
    intros out (st & data & Hsub & H2xx & Hid). apply returns_ret. right.
    split; [reflexivity|]. exists st, data. split; [exact Hsub|].
    split; [exact H2xx|].
    unfold reply, body, Js.get.
    now rewrite (assoc_app "actionId" _ _ _ Hid). }
  unfold tryCatch. specialize (Hinner m).
  destruct (inner m) as [[r0 | e] m0].
  - intros [= <- _].
    destruct (Hinner r0 m0 eq_refl) as [H400 | [H200 Hsub]].
    + split; [now right; left|]. intros H. rewrite H400 in H. discriminate H.
    + split; [now left|]. intros _. exact Hsub.
  - subst handler. cbv beta. intros [= <- _].
    split; [now right; right|]. discriminate.
Qed.


(** The store, the last identifier and the table change only when the
    submission was accepted with an identifier. *)
Lemma trigger_recordsKept (w : TriggerWorld) (a : TriggerArgs) :
  stable (unless (exists id, acceptedAs extractActionIdFromXml w id) recordsKept)
    (triggerBaselineAction StringToNumber JSONstringify extractActionIdFromXml
       sqlEq w a).
Proof.
  unfold triggerBaselineAction, receiver, selfHeal, historyInsert.
  repeat stable_step.
  all: try (right; first [apply recordsKept_emit | apply recordsKept_ownership]).
  all: left;
    match goal with
    | H : submitAnswer _ = HttpResp ?st ?data, Hid : _ = Some ?id
      |- _ => exists id, st, data
    end;
    (split; [assumption|]); (split; [now apply negb_false_iff | assumption]).
Qed.

(** X14. Records are written only for an accepted submission: the action
    store, the last identifier and the history table are left as they were
    by every request, unless the action document was submitted, the
    submission answered with a 2xx status, and an identifier could be read
    from the answer. *)
Theorem records_need_accepted_submission (w : TriggerWorld) (isForced : bool)
    (environment : string) (reqBody : value) (m : Machine) :
  (exists id, acceptedAs extractActionIdFromXml w id) \/
  recordsKept m
    (snd (handleStageTrigger StringToNumber JSONstringify extractActionIdFromXml
            sqlEq w isForced environment reqBody m)).
Proof.
  match goal with
  | |- _ \/ recordsKept m (snd (?c m)) =>
      enough (stable (unless (exists id, acceptedAs extractActionIdFromXml w id)
                        recordsKept) c) as H by apply H
  end.
  unfold handleStageTrigger, changeGate.
  repeat stable_step.
  all: try (right; apply recordsKept_emit).
  apply trigger_recordsKept.
Qed.


Lemma trigger_notTicket (w : TriggerWorld) (a : TriggerArgs) :
  stable (emits notTicket)
    (triggerBaselineAction StringToNumber JSONstringify extractActionIdFromXml
       sqlEq w a).
Proof.
  unfold triggerBaselineAction, receiver, selfHeal, historyInsert.
  repeat stable_step.
  all: try (now apply emits_trace).
  all: now apply emits_emit.
Qed.

(** X15. The change-ticket service is consulted only when a change is
    required: for a forced request, and for a request whose requireChg is
    present and falsy, the handler never calls the validation. *)
Theorem change_service_only_when_required (w : TriggerWorld) (isForced : bool)
    (environment : string) (reqBody : value) (m : Machine) :
  let b := Js.or reqBody (VObj []) in
  isForced = true \/
  (Js.get b "requireChg" <> VUndefined /\
   Js.truthy (Js.get b "requireChg") = false) ->
  emits notTicket m
    (snd (handleStageTrigger StringToNumber JSONstringify extractActionIdFromXml
            sqlEq w isForced environment reqBody m)).
Proof.
  intros b Hfree.
  match goal with
  | |- emits _ m (snd (?c m)) => enough (stable (emits notTicket) c) as H by apply H
  end.
  unfold handleStageTrigger. fold b.
  assert (forall m0, changeGate w isForced b m0 = (Return None, m0)) as Hgate.
  { intros m0. unfold changeGate. cbv zeta.
    destruct Hfree as [-> | [Hdef Hfalsy]].
    - now rewrite andb_false_r.
    - destruct (Js.get b "requireChg") eqn:Hr; try contradiction;
        simpl in Hfalsy |- *; now rewrite ?Hfalsy. }
  apply stable_tryCatch; [typeclasses eauto | | intros ?; stable_step].
  cbv zeta. destruct (negb _ || negb _); [stable_step|].
  apply stable_bind_ret with (Q := fun gate => gate = None);
    [typeclasses eauto | | |].
  - intros m0. rewrite Hgate. reflexivity.
  - intros m0 gate m1. rewrite Hgate. now intros [= <- _].
  - intros gate ->. destruct (chooseOffset _ _ _ _); [|stable_step].
    apply stable_bind; [typeclasses eauto | apply trigger_notTicket |].
    intros out. stable_step.
Qed.

Lemma trigger_notSubmit_never (w : TriggerWorld) (isForced : bool) (b : value) :
  stable (emits notSubmit) (changeGate w isForced b).
Proof. unfold changeGate. repeat stable_step. now apply emits_emit. Qed.

Lemma handler_blocked (w : TriggerWorld) (isForced : bool) (environment : string)
    (reqBody : value) :
  returns (changeGate w isForced (Js.or reqBody (VObj []))) (fun gate => gate <> None) ->
  stable (emits notSubmit)
    (handleStageTrigger StringToNumber JSONstringify extractActionIdFromXml
       sqlEq w isForced environment reqBody).
Proof.
  intros Hgate. unfold handleStageTrigger.
  apply stable_tryCatch; [typeclasses eauto | | intros ?; stable_step].
  cbv zeta. destruct (negb _ || negb _); [stable_step|].
  apply stable_bind_ret with (Q := fun gate => gate <> None);
    [typeclasses eauto | apply trigger_notSubmit_never | exact Hgate |].
  intros [r|] Hsome; [stable_step | contradiction].
Qed.

(** X16. The change gate: a request that is not forced and that requires a
    change (requireChg absent or truthy) leads to a submission only when its
    chgNumber starts with CHG, in any letter case, and the validation
    answered ok. *)
Theorem unforced_submission_needs_cleared_change (w : TriggerWorld)
    (environment : string) (reqBody : value) (m : Machine) :
  let b := Js.or reqBody (VObj []) in
  Js.get b "requireChg" = VUndefined \/
  Js.truthy (Js.get b "requireChg") = true ->
  (JsString.startsWith "chg"
     (JsString.toLowerCase (Js.toString (Js.get b "chgNumber"))) = true /\
   exists code message, changeVerdict w = ChgVerdict true code message) \/
  emits notSubmit m
    (snd (handleStageTrigger StringToNumber JSONstringify extractActionIdFromXml
            sqlEq w false environment reqBody m)).
Proof.
  intros b Hreq.
  assert (Js.truthy match Js.get b "requireChg" with
                    | VUndefined => VBool true
                    | v => v
                    end = true) as Hrequired.
  { destruct Hreq as [-> | Hreq]; [reflexivity|].
    destruct (Js.get b "requireChg"); try discriminate Hreq; exact Hreq. }
  destruct (JsString.startsWith "chg"
              (JsString.toLowerCase (Js.toString (Js.get b "chgNumber")))) eqn:Hchg.
  - destruct (changeVerdict w) as [message | [|] code message] eqn:Hv;
      [right | left; split; [reflexivity | eauto] | right];
      apply (handler_blocked w false environment reqBody); fold b;
      intros m0 gate m1; unfold changeGate; cbv zeta;
      rewrite Hrequired, Hchg; cbn [negb andb orb];
      (destruct (negb (Js.truthy (Js.get b "chgNumber")));
       [now intros [= <- _]|]);
      unfold bind, log, modify; rewrite Hv; simpl;
      first [discriminate | now intros [= <- _]].
  - right. apply (handler_blocked w false environment reqBody). fold b.
    intros m0 gate m1. unfold changeGate. cbv zeta.
    rewrite Hrequired, Hchg. cbn [negb andb]. rewrite orb_true_r.
    now intros [= <- _].
Qed.

Lemma trigger_preMail (w : TriggerWorld) (a : TriggerArgs) :
  stable (emits (preMailOnlyIf (Js.truthy (argAutoMail a) = true /\
                                smtpReadyOf w = true)))
    (triggerBaselineAction StringToNumber JSONstringify extractActionIdFromXml
       sqlEq w a).
Proof.
  unfold triggerBaselineAction, receiver, selfHeal, historyInsert.
  repeat stable_step.
  all: try (now apply emits_trace).
  all: try (now apply emits_emit).
  apply emits_emit. simpl. unfold smtpReadyOf.
  match goal with
  | H : _ && _ = true |- _ => now apply andb_true_iff in H
  end.
Qed.

(** X17. The mail that announces a trigger is sent only when the request
    asked for it and the mail server is set up: a trigger mail is attempted
    only if autoMail is truthy and the SMTP settings hold a host and a
    sender. *)
Theorem trigger_mail_needs_request_and_smtp (w : TriggerWorld) (isForced : bool)
    (environment : string) (reqBody : value) (m : Machine) :
  emits (preMailOnlyIf
           (Js.truthy (Js.get (Js.or reqBody (VObj [])) "autoMail") = true /\
            smtpReadyOf w = true))
    m
    (snd (handleStageTrigger StringToNumber JSONstringify extractActionIdFromXml
            sqlEq w isForced environment reqBody m)).
Proof.
  match goal with
  | |- emits ?P m (snd (?c m)) => enough (stable (emits P) c) as H by apply H
  end.
  unfold handleStageTrigger, changeGate.
  repeat stable_step.
  all: try (now apply emits_emit).
  apply (trigger_preMail w
           (mkTriggerArgs _ _ (Js.get (Js.or reqBody (VObj [])) "autoMail") _ _ _)).
Qed.







End ReplyFacts.

Lemma reply_status_is_200_400_or_500_witness :
  status durationRejection = 200 \/ status durationRejection = 400 \/
  status durationRejection = 500.
Proof.
  exact (proj1 (reply_status_is_200_400_or_500 readDecimal writeJson readActionId
                  String.eqb demoWorld false "Pilot" zeroWindowBareRequest
                  emptyMachine emptyMachine durationRejection eq_refl)).
Defined.

Lemma change_service_only_when_required_witness :
  emits notTicket emptyMachine
    (snd (handleStageTrigger readDecimal writeJson readActionId String.eqb
            demoWorld true "Pilot"
            (demoRequest (VObj [("hours", VNum (Fin 2))]) VUndefined)
            emptyMachine)).
Proof.
  apply (change_service_only_when_required readDecimal writeJson readActionId
           String.eqb demoWorld true "Pilot").
  now left.
Defined.



Lemma unforced_submission_needs_cleared_change_witness :
  (JsString.startsWith "chg"
     (JsString.toLowerCase (Js.toString (Js.get changeRequest "chgNumber"))) = true /\
   exists code message, changeVerdict demoWorld = ChgVerdict true code message) \/
  emits notSubmit emptyMachine
    (snd (handleStageTrigger readDecimal writeJson readActionId String.eqb
            demoWorld false "Pilot" changeRequest emptyMachine)).
Proof.
  apply (unforced_submission_needs_cleared_change readDecimal writeJson
           readActionId String.eqb demoWorld "Pilot" changeRequest emptyMachine).
  left. reflexivity.
Defined.





(** ** What a tick changes *)

Lemma flagSet_refl (e : entry) : flagSet e e.
Proof. now left. Qed.

Lemma flagSet_trans (e1 e2 e3 : entry) : flagSet e1 e2 -> flagSet e2 e3 -> flagSet e1 e3.
Proof.
  intros [-> | ->] [-> | ->]; try (now left); try (now right).
  right. now rewrite insert_insert_eq.
Qed.

Lemma rowMarked_refl (r : HistoryRow) : rowMarked r r.
Proof. now left. Qed.

Lemma rowMarked_trans (r1 r2 r3 : HistoryRow) :
  rowMarked r1 r2 -> rowMarked r2 r3 -> rowMarked r1 r3.
Proof. intros [-> | ->] [-> | ->]; try (now left); now right. Qed.

Lemma Forall2_rowMarked_refl (rows : list HistoryRow) : Forall2 rowMarked rows rows.
Proof. induction rows; constructor; [apply rowMarked_refl | assumption]. Qed.

Lemma Forall2_rowMarked_trans (l1 l2 l3 : list HistoryRow) :
  Forall2 rowMarked l1 l2 -> Forall2 rowMarked l2 l3 -> Forall2 rowMarked l1 l3.
Proof.
  intros H12. revert l3. induction H12 as [|r1 r2 l1 l2 Hr H12 IH]; intros l3 H23.
  - inversion H23. constructor.
  - inversion H23 as [|? r3 ? l3' Hr' H23']; subst. constructor.
    + eapply rowMarked_trans; eassumption.
    + now apply IH.
Qed.

#[export] Instance flagsOnly_preorder : PreOrder flagsOnly.
Proof.
  split.
  - intros m. repeat split; try reflexivity.
    + intros id. destruct (actions m !! id); constructor. apply flagSet_refl.
    + apply Forall2_rowMarked_refl.
  - intros m1 m2 m3 (Hl & Ho & Ha & Hr) (Hl' & Ho' & Ha' & Hr').
    repeat split; try congruence.
    + intros id. specialize (Ha id). specialize (Ha' id).
      destruct Ha as [e1 e2 H12|]; inversion Ha' as [? e3 H23|]; subst;
        constructor. eapply flagSet_trans; eassumption.
    + eapply Forall2_rowMarked_trans; eassumption.
Qed.

Lemma flagsOnly_emit (e : event) (m : Machine) : flagsOnly m (emit e m).
Proof.
  repeat split; try reflexivity.
  - intros id. simpl. destruct (actions m !! id); constructor. apply flagSet_refl.
  - apply Forall2_rowMarked_refl.
Qed.

Lemma Forall2_markRow (k : Z) (rows : list HistoryRow) :
  Forall2 rowMarked rows (map (markRow k) rows).
Proof.
  induction rows as [|r rows IH]; constructor; [|exact IH].
  unfold markRow. destruct (ActionID r =? k); [now right | now left].
Qed.

Section WatcherFacts.

Variable StringToNumber : string -> number.
Variable ownKeys : gmap string entry -> list string.

Lemma markSent_flagsOnly (w : TickWorld) (id : string) (m : Machine) :
  flagsOnly m (markSent StringToNumber w id m).
Proof.
  assert (lastActionId (markSent StringToNumber w id m) = lastActionId m /\
          AssetOwnership (markSent StringToNumber w id m) = AssetOwnership m)
    as [Hl Ho].
  { unfold markSent.
    destruct (actions m !! id), (markPoolFault w id),
      (sqlInt (StringToNumber id)), (markFault w id); now split. }
  split; [exact Hl|]. split; [exact Ho|]. split.
  - intros i. rewrite markSent_actions.
    destruct (actions m !! id) as [e|] eqn:He.
    + destruct (decide (id = i)) as [<-|Hne].
      * rewrite lookup_insert_eq, He. constructor. now right.
      * rewrite lookup_insert_ne by assumption.
        destruct (actions m !! i); constructor. apply flagSet_refl.
    + destruct (actions m !! i); constructor. apply flagSet_refl.
  - destruct (markSent_trace StringToNumber w id m) as (_ & Hdone & Hnot).
    destruct (durablyMarked StringToNumber w id).
    + destruct (Hdone eq_refl) as (k & _ & ->). apply Forall2_markRow.
    + rewrite (Hnot eq_refl). apply Forall2_rowMarked_refl.
Qed.

Lemma tickBody_flagsOnly (cfg : Config) (w : TickWorld) (id : string) (m : Machine) :
  flagsOnly m (fst (tickBody StringToNumber cfg w id m)).
Proof.
  unfold tickBody.
  destruct (negb (shouldSend cfg (actions m !! id))); [reflexivity|].
  destruct (statusAnswer w id) as [msg | st text]; [apply flagsOnly_emit|].
  destruct (negb (is2xx st) || negb (JsString.nonempty text)); [apply flagsOnly_emit|].
  destruct (negb (String.eqb _ _)); [apply flagsOnly_emit|].
  cbn [fst].
  etransitivity; [apply flagsOnly_emit|].
  etransitivity; [apply flagsOnly_emit|].
  etransitivity; [apply flagsOnly_emit|].
  apply markSent_flagsOnly.
Qed.

Lemma tickLoop_flagsOnly (cfg : Config) (w : TickWorld) (ids : list string)
    (m : Machine) :
  flagsOnly m (tickLoop StringToNumber cfg w ids m).
Proof.
  revert m. induction ids as [|id rest IH]; intros m; simpl; [reflexivity|].
  pose proof (tickBody_flagsOnly cfg w id m) as Hb.
  destruct (tickBody StringToNumber cfg w id m) as [m' [|]]; simpl in Hb;
    [|exact Hb].
  etransitivity; [exact Hb | apply IH].
Qed.

(** X22. A tick changes nothing but flags: it adds no record to the store
    and removes none, it leaves every field of a record as it was except
    postMailSent, which it may set to true; it leaves the rows of the history
    table in place and in order, and may set their PostMailSent; the last
    identifier and the ownership table are untouched. *)
Theorem tick_only_sets_flags (cfg : Config) (w : TickWorld) (m : Machine) :
  flagsOnly m (tick StringToNumber ownKeys cfg w m).
Proof. apply tickLoop_flagsOnly. Qed.

Lemma concerns_notFinalizing (id : string) (e : event) :
  concerns id e = false -> notFinalizing id e.
Proof.
  destruct e; simpl; try (intros _; exact I);
    intros H ->; now rewrite String.eqb_refl in H.
Qed.

Lemma tickBody_other (cfg : Config) (w : TickWorld) (id id' : string) (m : Machine) :
  id' <> id -> untouched id m (fst (tickBody StringToNumber cfg w id' m)).
Proof.
  intros Hne. unfold tickBody.
  destruct (negb (shouldSend cfg (actions m !! id'))); [apply untouched_refl|].
  assert (untouched id m (emit (EvStatus id') m)) as H1.
  { apply untouched_emit. simpl. now apply eqb_neq_str. }
  destruct (statusAnswer w id') as [msg | st text]; [exact H1|].
  destruct (negb (is2xx st) || negb (JsString.nonempty text)); [exact H1|].
  destruct (negb (String.eqb _ _)); [exact H1|].
  cbn [fst]. set (m1 := emit (EvStatus id') m) in *.
  set (m2 := emit (EvResults id') m1).
  set (m3 := emit (EvPostMail id' (delivered w id')) m2).
  apply untouched_trans with m1; [exact H1|].
  apply untouched_trans with m2;
    [apply untouched_emit; simpl; now apply eqb_neq_str|].
  apply untouched_trans with m3;
    [apply untouched_emit; simpl; now apply eqb_neq_str|].
  now apply markSent_untouched.
Qed.

Lemma tickBody_pending (cfg : Config) (w : TickWorld) (id id' : string) (m : Machine) :
  terminal (statusAnswer w id) = false ->
  actions (fst (tickBody StringToNumber cfg w id' m)) !! id = actions m !! id /\
  emits (notFinalizing id) m (fst (tickBody StringToNumber cfg w id' m)).
Proof.
  intros Hterm. destruct (decide (id' = id)) as [->|Hne].
  - unfold tickBody, terminal in *.
    destruct (negb (shouldSend cfg (actions m !! id)));
      [split; [reflexivity | apply emits_refl]|].
    assert (emits (notFinalizing id) m (emit (EvStatus id) m)) as H1
      by now apply emits_emit.
    destruct (statusAnswer w id) as [msg | st text]; [now split|].
    destruct (is2xx st); [|now split].
    destruct (JsString.nonempty text); [|now split].
    simpl in Hterm |- *. rewrite Hterm. now split.
  - destruct (tickBody_other cfg w id id' m Hne) as [Ha He].
    split; [exact Ha|].
    eapply emits_weaken; [|exact He]. apply concerns_notFinalizing.
Qed.

(** X23. The watcher waits for the end of an action: in a tick where the
    status of an action does not read as Expired (the poll throws, answers
    with a status that is not 2xx or with an empty body, or names another
    status), its record is left as it is, its results are not fetched, no
    mail is attempted for it and it is not marked. *)
Theorem unexpired_action_is_left_pending (cfg : Config) (w : TickWorld)
    (id : string) (m : Machine) :
  terminal (statusAnswer w id) = false ->
  let m' := tick StringToNumber ownKeys cfg w m in
  actions m' !! id = actions m !! id /\ emits (notFinalizing id) m m'.
Proof.
  intros Hterm m'. subst m'. unfold tick.
  generalize (ownKeys (actions m)) as ids. intros ids. revert m.
  induction ids as [|id' rest IH]; intros m; simpl.
  - split; [reflexivity | apply emits_refl].
  - destruct (tickBody_pending cfg w id id' m Hterm) as [Ha He].
    destruct (tickBody StringToNumber cfg w id' m) as [m1 [|]]; simpl in Ha, He;
      [|now split].
    destruct (IH m1) as [Ha' He']. split; [congruence|].
    eapply emits_trans; eassumption.
Qed.

Lemma tickLoop_app (cfg : Config) (w : TickWorld) (pre rest : list string)
    (m : Machine) :
  (forall x, In x pre -> forall msg, statusAnswer w x <> HttpThrow msg) ->
  tickLoop StringToNumber cfg w (pre ++ rest) m
  = tickLoop StringToNumber cfg w rest (tickLoop StringToNumber cfg w pre m).
Proof.
  revert m. induction pre as [|x pre IH]; intros m Hpre; simpl; [reflexivity|].
  assert (snd (tickBody StringToNumber cfg w x m) = true) as Hgo.
  { unfold tickBody.
    destruct (negb (shouldSend cfg (actions m !! x))); [reflexivity|].
    destruct (statusAnswer w x) as [msg | st text] eqn:Hs.
    - exfalso. apply (Hpre x (or_introl eq_refl) msg). exact Hs.
    - destruct (negb (is2xx st) || negb (JsString.nonempty text)); [reflexivity|].
      now destruct (negb (String.eqb _ _)). }
  destruct (tickBody StringToNumber cfg w x m) as [m1 go]. simpl in Hgo. subst go.
  apply IH. intros y Hy. apply Hpre. now right.
Qed.

(** X24. A status poll that throws ends the tick: when the polls of the
    records before it answer, and the poll of an eligible record throws, the
    tick stops with that poll, and the records after it are neither polled
    nor notified in this tick. *)
Theorem failed_poll_ends_the_tick (cfg : Config) (w : TickWorld)
    (pre rest : list string) (id message : string) (m : Machine) :
  ownKeys (actions m) = pre ++ id :: rest ->
  (forall x, In x pre -> forall msg, statusAnswer w x <> HttpThrow msg) ->
  let m1 := tickLoop StringToNumber cfg w pre m in
  shouldSend cfg (actions m1 !! id) = true ->
  statusAnswer w id = HttpThrow message ->
  tick StringToNumber ownKeys cfg w m = emit (EvStatus id) m1.
Proof.
  intros Hkeys Hpre m1 Hsend Hthrow. unfold tick. rewrite Hkeys.
  rewrite (tickLoop_app cfg w pre (id :: rest) m Hpre).
  fold m1. simpl. unfold tickBody. now rewrite Hsend, Hthrow.
Qed.

End WatcherFacts.

Lemma unexpired_action_is_left_pending_witness :
  actions (tick readDecimal keysOf switchOn openWorld triggeredMachine) !! "77"
  = actions triggeredMachine !! "77" /\
  emits (notFinalizing "77") triggeredMachine
    (tick readDecimal keysOf switchOn openWorld triggeredMachine).
Proof.
  apply (unexpired_action_is_left_pending readDecimal keysOf switchOn openWorld
           "77" triggeredMachine).
  reflexivity.
Defined.

Lemma failed_poll_ends_the_tick_witness :
  tick readDecimal keysOf switchOn unreachableWorld triggeredMachine
  = emit (EvStatus "77") triggeredMachine.
Proof.
  apply (failed_poll_ends_the_tick readDecimal keysOf switchOn unreachableWorld
           [] [] "77" "connect ETIMEDOUT" triggeredMachine).
  - vm_compute. reflexivity.
  - intros x [].
  - vm_compute. reflexivity.
  - reflexivity.
Defined.

(** ** The store over the life of the process *)

#[export] Instance retained_preorder (id : string) : PreOrder (retained id).
Proof.
  split.
  - intros m H. exact H.
  - intros m1 m2 m3 H12 H23 H. apply H23, H12, H.
Qed.

Lemma retained_actions (id : string) (m m' : Machine) :
  actions m' = actions m -> retained id m m'.
Proof. intros H Hs. now rewrite H. Qed.

Section EvictionFacts.

Variable StringToNumber : string -> number.
Variable JSONstringify : value -> string.
Variable JSONparse : string -> option value.
Variable extractActionIdFromXml : string -> option string.
Variable sqlEq : string -> string -> bool.
Variable ownKeys : gmap string entry -> list string.

Lemma handler_retains (w : TriggerWorld) (isForced : bool) (environment : string)
    (reqBody : value) (id : string) :
  stable (retained id)
    (handleStageTrigger StringToNumber JSONstringify extractActionIdFromXml
       sqlEq w isForced environment reqBody).
Proof.
  unfold handleStageTrigger, changeGate, triggerBaselineAction, receiver,
    selfHeal, historyInsert.
  repeat stable_step.
  all: try (now apply retained_actions).
  intros Hs. simpl. apply lookup_insert_is_Some'. now right.
Qed.

(** X25. The in-memory store never loses a record: no tick, no cleanup run
    and no trigger request removes an identifier from it. In particular the
    cleanup that deletes the durable row of a finalized action leaves its
    record in memory, so the store only grows while the process runs. *)
Theorem records_are_never_evicted (js : list job) (m : Machine) (id : string) :
  is_Some (actions m !! id) ->
  is_Some (actions (runJobs StringToNumber JSONstringify extractActionIdFromXml
                      sqlEq ownKeys js m) !! id).
Proof.
  revert m. induction js as [|j js IH]; intros m Hs; [exact Hs|].
  simpl. apply IH. destruct j as [cfg w | cfg w | w f env b]; simpl.
  - now apply (tickLoop_sameKeys StringToNumber cfg w (ownKeys (actions m)) m id).
  - now rewrite cleanup_actions.
  - now apply (handler_retains w f env b id m).
Qed.

End EvictionFacts.

Lemma records_are_never_evicted_witness :
  is_Some (actions (runJobs readDecimal writeJson readActionId String.eqb keysOf
                      laterJobs triggeredMachine) !! "77").
Proof.
  apply records_are_never_evicted.
  exact (mk_is_Some _ _ (lookup_default (actions triggeredMachine) "77" eq_refl)).
Defined.

(** ** The change-ticket validation *)

(** X26. The validation accepts a change only in state Implement: when the
    verdict is ok, the table query answered, with a status that is neither
    401 nor 403, and the state of the first record of its result, without
    the white space around it and in any letter case, is implement. *)
Theorem validated_change_is_at_implement (servicenow : value) (answer : http value)
    (code message : value) :
  verdictOf (validateChangeNumber servicenow answer) = ChgVerdict true code message ->
  exists st data first rest,
    answer = HttpResp st data /\ st <> 401 /\ st <> 403 /\
    changeRecords data = first :: rest /\
    JsString.toLowerCase (stateOf (Js.or first (VObj []))) = "implement".
Proof.
  unfold validateChangeNumber.
  destruct servicenow; try discriminate;
    (destruct (Js.or _ (VStr "")); try discriminate;
     cbv zeta; destruct (_ || _ || _); [discriminate|];
     destruct answer as [msg | st data]; [discriminate|];
     destruct (st =? 401) eqn:H401; [discriminate|];
     destruct (st =? 403) eqn:H403; [discriminate|];
     cbn [orb]; destruct (changeRecords data) as [|first rest] eqn:Hrec;
     [discriminate|];
     destruct (String.eqb _ "implement") eqn:Hst; [|discriminate];
     intros _; exists st, data, first, rest;
     split; [reflexivity|];
     split; [now apply Z.eqb_neq|];
     split; [now apply Z.eqb_neq|];
     split; [exact Hrec|]; now apply String.eqb_eq).
Qed.

Lemma validated_change_is_at_implement_witness :
  exists st data first rest,
    HttpResp 200 (VObj [("result", VArr [VObj [("state", VStr " Implement ")]])])
    = HttpResp st data /\ st <> 401 /\ st <> 403 /\
    changeRecords data = first :: rest /\
    JsString.toLowerCase (stateOf (Js.or first (VObj []))) = "implement".
Proof.
  apply (validated_change_is_at_implement
           (VObj [("SN_URL", VStr "https://sn.example/api/now/");
                  ("SN_USER", VStr "svc"); ("SN_PASSWORD", VStr "secret")])
           (HttpResp 200 (VObj [("result", VArr [VObj [("state", VStr " Implement ")]])]))
           VUndefined VUndefined).
  reflexivity.
Defined.

(** X27. Apart from 401 and 403 the validation does not look at the status
    of the answer: two answers with the same body get the same verdict
    whenever neither status is 401 or 403, so an error status with a record
    in state Implement in its body is accepted like a 200. *)
Theorem change_verdict_ignores_status (servicenow : value) (st st' : Z)
    (data : value) :
  st <> 401 -> st <> 403 -> st' <> 401 -> st' <> 403 ->
  validateChangeNumber servicenow (HttpResp st data)
  = validateChangeNumber servicenow (HttpResp st' data).
Proof.
  intros H1 H2 H3 H4. unfold validateChangeNumber.
  apply Z.eqb_neq in H1, H2, H3, H4. now rewrite H1, H2, H3, H4.
Qed.

Lemma change_verdict_ignores_status_witness :
  validateChangeNumber
    (VObj [("SN_URL", VStr "https://sn.example"); ("SN_USER", VStr "svc");
           ("SN_PASSWORD", VStr "secret")])
    (HttpResp 500 (VObj [("result", VObj [("state", VStr "implement")])]))
  = validateChangeNumber
      (VObj [("SN_URL", VStr "https://sn.example"); ("SN_USER", VStr "svc");
             ("SN_PASSWORD", VStr "secret")])
      (HttpResp 200 (VObj [("result", VObj [("state", VStr "implement")])])).
Proof. apply change_verdict_ignores_status; discriminate. Defined.

(** ** Durations and settings *)

Lemma renderDuration_sign (neg : bool) (d h mi s : Z) :
  JsString.startsWith "-" (renderDuration neg d h mi s) = neg.
Proof. unfold renderDuration. now destruct neg. Qed.

(** X28. Two durations of whole milliseconds within the exact range are
    encoded to the same string exactly when they have the same sign and the
    same number of whole seconds: the encoder drops what is below a second
    and nothing else. *)
Theorem durations_share_an_encoding (z z' : Z) :
  safeInteger z -> safeInteger z' ->
  (msToXSDuration (Fin z) = msToXSDuration (Fin z')
   <-> (z <? 0) = (z' <? 0) /\ Z.abs z / 1000 = Z.abs z' / 1000).
Proof.
  intros _ _. split.
  - intros H.
    assert ((z <? 0) = (z' <? 0)) as Hsign.
    { pose proof (f_equal (JsString.startsWith "-") H) as Hs.
      rewrite !msToXSDuration_render in Hs. cbv zeta in Hs.
      now rewrite !renderDuration_sign in Hs. }
    split; [exact Hsign|].
    pose proof (f_equal decodeDuration H) as Hd.
    rewrite !decode_encode, Hsign in Hd. injection Hd as Hd.
    unfold signed in Hd. destruct (z' <? 0); lia.
  - intros [Hsign Htotal]. now apply msToXSDuration_same.
Qed.

Lemma durations_share_an_encoding_witness :
  msToXSDuration (Fin (- 90061001)) = msToXSDuration (Fin (- 90061999)).
Proof.
  apply (durations_share_an_encoding (- 90061001) (- 90061999)).
  - vm_compute. intros H. discriminate H.
  - vm_compute. intros H. discriminate H.
  - split; reflexivity.
Defined.

Section SettingFacts.

Variable StringToNumber : string -> number.

Lemma maxWith_bound (a : Z) (x : number) :
  x <> NaN -> maxWith a x = PInf \/ exists z, maxWith a x = Fin z /\ a <= z.
Proof.
  destruct x as [| | |z]; intros H; [contradiction | now left | |];
    right; eexists; (split; [reflexivity | lia]).
Qed.

Lemma mul_nonneg (x : number) (k : Z) :
  0 < k ->
  (x = PInf \/ exists z, x = Fin z /\ 0 <= z) ->
  Num.mul x (Fin k) = PInf \/ exists z, Num.mul x (Fin k) = Fin z /\ 0 <= z.
Proof.
  intros Hk [-> | (z & -> & Hz)]; simpl.
  - left. destruct (k =? 0) eqn:E; [apply Z.eqb_eq in E; lia|].
    destruct (0 <? k) eqn:E'; [reflexivity | apply Z.ltb_ge in E'; lia].
  - right. eexists. split; [reflexivity | lia].
Qed.

(** The report threshold is never negative and never NaN, whatever the
    configured value and unit are. *)
Theorem threshold_is_never_negative (value unit : value) :
  getThresholdMilliseconds StringToNumber value unit = PInf \/
  exists ms, getThresholdMilliseconds StringToNumber value unit = Fin ms /\ 0 <= ms.
Proof.
  unfold getThresholdMilliseconds. cbv zeta.
  assert (maxWith 0 (Num.or0 (ToNumber StringToNumber value)) = PInf \/
          exists z, maxWith 0 (Num.or0 (ToNumber StringToNumber value)) = Fin z
                    /\ 0 <= z) as Hv.
  { apply maxWith_bound. unfold Num.or0.
    destruct (ToNumber StringToNumber value); simpl; try discriminate.
    now destruct (negb _). }
  destruct (String.eqb _ "minutes"); [|destruct (String.eqb _ "hours")];
    repeat (apply mul_nonneg; [lia|]); exact Hv.
Qed.

(** X29. The delay the watcher hands to its timer is never below 10 000
    ms, and it is 60 000 ms when no interval is given. The timer runs with
    that delay as its period as long as the delay does not exceed the
    largest delay of the runtime; for a larger or an infinite one the runtime
    takes 1 ms instead, and the watcher then polls every millisecond. *)
Theorem polling_period_is_floored_or_one (intervalMs : value) :
  let delay := pollingInterval StringToNumber intervalMs in
  ((exists ms, delay = Fin ms /\ 10000 <= ms <= timeoutMax /\
               timerDelay delay = ms) \/
   ((delay = PInf \/ exists ms, delay = Fin ms /\ timeoutMax < ms) /\
    timerDelay delay = 1)) /\
  timerDelay (pollingInterval StringToNumber VUndefined) = 60000.
Proof.
  intros delay. split; [|reflexivity].
  assert (delay = PInf \/ exists ms, delay = Fin ms /\ 10000 <= ms) as Hfloor.
  { subst delay. unfold pollingInterval. cbv zeta. apply maxWith_bound.
    destruct (Num.truthy _) eqn:Ht; [|discriminate].
    intros H. rewrite H in Ht. discriminate Ht. }
  destruct Hfloor as [-> | (ms & -> & Hms)].
  - right. split; [now left | reflexivity].
  - unfold timerDelay, timeoutMax.
    destruct (ms <=? 2147483647) eqn:Hmax.
    + apply Z.leb_le in Hmax. left. exists ms. split; [reflexivity|].
      split; [lia|].
      assert ((1 <=? ms) = true) as -> by (apply Z.leb_le; lia).
      reflexivity.
    + apply Z.leb_gt in Hmax. right. split.
      * right. exists ms. split; [reflexivity | exact Hmax].
      * now rewrite andb_false_r.
Qed.

End SettingFacts.

Lemma returns_receiver (x : value) (name : string) :
  returns (receiver x name) (fun s => x = VStr s).
Proof.
  intros m s m'. unfold receiver. destruct x; try discriminate.
  unfold ret. now intros [= <- _].
Qed.

Lemma stable_receiver (R : relation Machine) `{!PreOrder R} (x : value) (name : string) :
  stable R (receiver x name).
Proof. unfold receiver. destruct x; stable_step. Qed.

(** A step that remembers what a receiver was. *)
Ltac resolve_step :=
  lazymatch goal with
  | |- stable _ (bind (receiver ?x _) _) =>
      eapply stable_bind_ret with (Q := fun s => x = VStr s);
      [typeclasses eauto | apply stable_receiver; typeclasses eauto
      | apply returns_receiver | intros ? ?]
  | _ => stable_step
  end.

Section LookupFacts.

Variable StringToNumber : string -> number.
Variable JSONstringify : value -> string.
Variable extractActionIdFromXml : string -> option string.
Variable sqlEq : string -> string -> bool.

Lemma trigger_submits_resolved (w : TriggerWorld) (a : TriggerArgs) :
  stable (unless (lookupsResolve w (argBaselineName a) (argGroupName a))
            (emits notSubmit))
    (triggerBaselineAction StringToNumber JSONstringify extractActionIdFromXml
       sqlEq w a).
Proof.
  unfold triggerBaselineAction, selfHeal, historyInsert.
  repeat resolve_step.
  all: try (right; now apply emits_trace).
  all: try (right; now apply emits_emit).
  left. unfold lookupsResolve.
  repeat match goal with
         | H : negb _ = false |- _ => apply negb_false_iff in H
         | H : (?x <? ?y)%nat = false |- _ => apply (Nat.ltb_ge x y) in H
         end.
  split; [eauto|]. split; [eauto 10|]. split; [eauto|]. eauto 10.
Qed.

(** X30. Nothing is submitted before both lookups have resolved: in every
    request, an action document is posted only when the two names are
    strings, the baseline lookup answered 2xx with a first row of two strings
    at least, and the group lookup answered with a first row of four strings
    at least. *)
Theorem submission_needs_resolved_lookups (w : TriggerWorld) (isForced : bool)
    (environment : string) (reqBody : value) (m : Machine) :
  lookupsResolve w (Js.get (Js.or reqBody (VObj [])) "baselineName")
                   (Js.get (Js.or reqBody (VObj [])) "groupName") \/
  emits notSubmit m
    (snd (handleStageTrigger StringToNumber JSONstringify extractActionIdFromXml
            sqlEq w isForced environment reqBody m)).
Proof.
  match goal with
  | |- ?A \/ emits _ m (snd (?c m)) =>
      enough (stable (unless A (emits notSubmit)) c) as H by apply H
  end.
  unfold handleStageTrigger, changeGate.
  repeat stable_step.
  all: try (right; now apply emits_emit).
  match goal with
  | |- stable _ (triggerBaselineAction _ _ _ _ _ ?a) =>
      apply (trigger_submits_resolved w a)
  end.
Qed.

End LookupFacts.

(** * Properties restated on their exact domain *)

(** ** The window that is zero or negative *)

Section WindowRejection.

Variable StringToNumber : string -> number.
Variable JSONstringify : value -> string.
Variable extractActionIdFromXml : string -> option string.
Variable sqlEq : string -> string -> bool.

(** The runtime reads the empty string as zero. *)
Hypothesis emptyIsZero : StringToNumber "" = Fin 0.







End WindowRejection.


(** ** The encoder on doubles *)

(** Within the exact range the encoder on doubles and the encoder on
    integers write the same string; samples, the two ends of the range
    among them. *)
Example encoders_agree_on_samples :
  Forall (fun z => Double.msToXSDuration Double.printWhole (Double.ofZ z)
                   = msToXSDuration (Fin z))
    [0; 1; -1; 999; 1000; -600; 7200000; 93784000; -93784999; 172800000;
     maxSafeInteger; - maxSafeInteger].
Proof. repeat constructor; vm_compute; reflexivity. Qed.

(** Beyond the range they part. The double nearest to 10^23 is a whole
    number of milliseconds; the division by 1000 rounds, and the encoder of
    the source writes another time of day than the integers give. *)
Lemma encoders_part_beyond_the_exact_range :
  Double.whole (Double.ofZ (10 ^ 23)) = Some 99999999999999991611392 /\
  Double.msToXSDuration Double.printWhole (Double.ofZ 99999999999999991611392)
  = "P1157407407407407DT5H13M36S" /\
  msToXSDuration (Fin 99999999999999991611392) = "P1157407407407407DT7H26M51S".
Proof. repeat split; vm_compute; reflexivity. Qed.


(** ** The watcher between its awaits *)

Section InterleavingFacts.

Variable StringToNumber : string -> number.
Variable JSONstringify : value -> string.
Variable JSONparse : string -> option value.
Variable extractActionIdFromXml : string -> option string.
Variable sqlEq : string -> string -> bool.
Variable ownKeys : gmap string entry -> list string.

Lemma markSent_split (w : TickWorld) (id : string) (m : Machine) :
  markSent StringToNumber w id m
  = markDurable StringToNumber w id (markMemory id m).
Proof. reflexivity. Qed.

Lemma finish_settled (n : nat) (cfg : Config) (w : TickWorld) (m : Machine) :
  finish StringToNumber n cfg w (m, None) = (m, None).
Proof. now destruct n. Qed.

(** A tick that nothing disturbs is the tick of the watcher: run on from
    await to await with the same collaborators, it ends, in the state the
    loop as a whole reaches. *)
Lemma advance_finishes (cfg : Config) (w : TickWorld) (ids : list string)
    (m : Machine) :
  exists n,
    finish StringToNumber n cfg w (advance cfg ids m)
    = (tickLoop StringToNumber cfg w ids m, None).
Proof.
  revert m. induction ids as [|id rest IH]; intros m.
  - exists O. reflexivity.
  - cbn [advance tickLoop]. unfold tickBody.
    destruct (shouldSend cfg (actions m !! id)) eqn:Hsend; cbn [negb].
    + set (m1 := emit (EvStatus id) m).
      destruct (statusAnswer w id) as [message | st text] eqn:Hstatus.
      * exists 1%nat. cbn [finish snd fst]. unfold resumeTick.
        cbn [current waitsFor]. now rewrite Hstatus.
      * destruct (negb (is2xx st) || negb (JsString.nonempty text)) eqn:Hok.
        -- destruct (IH m1) as (n & Hn). exists (S n).
           cbn [finish snd fst]. unfold resumeTick. cbn [current waitsFor later].
           now rewrite Hstatus, Hok.
        -- cbv zeta.
           destruct (negb (String.eqb _ "expired")) eqn:Hexpired.
           ++ destruct (IH m1) as (n & Hn). exists (S n).
              cbn [finish snd fst]. unfold resumeTick.
              cbn [current waitsFor later].
              now rewrite Hstatus, Hok, Hexpired.
           ++ destruct (IH (markSent StringToNumber w id
                              (emit (EvPostMail id (delivered w id))
                                 (emit (EvResults id) m1)))) as (n & Hn).
              assert (resumeTick StringToNumber cfg w (mkFlight id AwaitStatus rest) m1
                      = (emit (EvResults id) m1,
                         Some (mkFlight id AwaitResults rest))) as Hasked.
              { unfold resumeTick. cbn [current waitsFor later].
                rewrite Hstatus, Hok. cbv zeta. now rewrite Hexpired. }
              exists (S (S (S (S n)))).
              cbn [finish snd fst]. rewrite Hasked.
              cbn [finish snd fst]. unfold resumeTick.
              cbn [current waitsFor later snd fst].
              rewrite <- markSent_split. exact Hn.
    + apply IH.
Qed.

Lemma undisturbed_flight_is_a_tick (cfg : Config) (w : TickWorld) (m : Machine) :
  exists n,
    finish StringToNumber n cfg w (startTick ownKeys cfg m)
    = (tick StringToNumber ownKeys cfg w m, None).
Proof. apply advance_finishes. Qed.

(** ** A finalized record *)

Lemma advance_untouched (cfg : Config) (id : string) (ids : list string)
    (m : Machine) :
  shouldSend cfg (actions m !! id) = false ->
  untouched id m (fst (advance cfg ids m)) /\
  elsewhere id (option_list (snd (advance cfg ids m))).
Proof.
  intros Hskip. induction ids as [|id' rest IH]; cbn [advance].
  - split; [apply untouched_refl | constructor].
  - destruct (shouldSend cfg (actions m !! id')) eqn:Hsend; [|exact IH].
    assert (id' <> id) as Hne by (intros ->; congruence).
    split.
    + apply untouched_emit. simpl. now apply eqb_neq_str.
    + now repeat constructor.
Qed.

Lemma markMemory_untouched (id id' : string) (m : Machine) :
  id' <> id -> untouched id m (markMemory id' m).
Proof.
  intros Hne. unfold markMemory.
  destruct (actions m !! id') as [e|]; [|apply untouched_refl]. split.
  - simpl. now apply lookup_insert_ne.
  - exists [EvMarkMemory id']. split; [reflexivity|].
    constructor; [|constructor]. simpl. now apply eqb_neq_str.
Qed.

Lemma markDurable_untouched (w : TickWorld) (id id' : string) (m : Machine) :
  untouched id m (markDurable StringToNumber w id' m).
Proof.
  unfold markDurable.
  destruct (markPoolFault w id'), (sqlInt (StringToNumber id')), (markFault w id');
    (split; [reflexivity|]); eexists; (split; [reflexivity|]);
    now repeat constructor.
Qed.

Lemma resume_untouched (cfg : Config) (w : TickWorld) (id : string) (f : flight)
    (m : Machine) :
  shouldSend cfg (actions m !! id) = false ->
  current f <> id ->
  untouched id m (fst (resumeTick StringToNumber cfg w f m)) /\
  elsewhere id (option_list (snd (resumeTick StringToNumber cfg w f m))).
Proof.
  intros Hskip Hne. unfold resumeTick. cbv zeta.
  assert (String.eqb (current f) id = false) as Heqb by now apply eqb_neq_str.
  destruct (waitsFor f).
  - destruct (statusAnswer w (current f)) as [message | st text].
    + split; [apply untouched_refl | constructor].
    + destruct (negb (is2xx st) || negb (JsString.nonempty text));
        [now apply advance_untouched|].
      destruct (negb (String.eqb _ "expired")); [now apply advance_untouched|].
      split; [now apply untouched_emit | now repeat constructor].
  - split; [now apply untouched_emit | now repeat constructor].
  - split; [now apply markMemory_untouched | now repeat constructor].
  - pose proof (markDurable_untouched w id (current f) m) as Hmark.
    destruct (advance_untouched cfg id (later f)
                (markDurable StringToNumber w (current f) m)) as [Hgo Hto].
    { destruct Hmark as [-> _]. exact Hskip. }
    split; [eapply untouched_trans; eassumption | exact Hto].
Qed.

Lemma answeredId_other (w : TriggerWorld) (metadata : list (string * value))
    (id actionId : string) :
  writesOther extractActionIdFromXml id (Store w metadata) ->
  answeredId extractActionIdFromXml w = Some actionId ->
  actionId <> id.
Proof.
  simpl. unfold answeredId.
  destruct (submitAnswer w) as [message | st data]; [discriminate|].
  destruct (is2xx st); [congruence | discriminate].
Qed.

Lemma storeRecord_untouched (w : TriggerWorld) (metadata : list (string * value))
    (id : string) :
  writesOther extractActionIdFromXml id (Store w metadata) ->
  stable (untouched id) (storeRecord extractActionIdFromXml w metadata).
Proof.
  intros Hother. unfold storeRecord.
  destruct (answeredId extractActionIdFromXml w) as [actionId|] eqn:Hid;
    [|stable_step].
  pose proof (answeredId_other w metadata id actionId Hother Hid) as Hne.
  repeat stable_step.
  - split; [reflexivity | now apply emits_trace].
  - split; [|now apply emits_trace]. simpl. now apply lookup_insert_ne.
Qed.

Lemma storeRow_untouched (w : TriggerWorld) (metadata : list (string * value))
    (id : string) :
  stable (untouched id)
    (storeRow StringToNumber JSONstringify extractActionIdFromXml w metadata).
Proof.
  unfold storeRow, historyInsert.
  destruct (answeredId extractActionIdFromXml w) as [actionId|]; [|stable_step].
  repeat stable_step.
  all: try (apply untouched_emit; reflexivity).
  all: split; [reflexivity | now apply emits_trace].
Qed.

Lemma elsewhere_settled (id : string) (flights : list flight) (k : nat)
    (next : option flight) :
  elsewhere id flights -> elsewhere id (option_list next) ->
  elsewhere id (take k flights ++ option_list next ++ drop (S k) flights).
Proof.
  intros Hflights Hnext. unfold elsewhere in *.
  rewrite !Forall_app. repeat split.
  - now apply Forall_take.
  - exact Hnext.
  - now apply Forall_drop.
Qed.

Lemma perform_untouched (mv : move) (id : string) (s : Machine * list flight) :
  (forall cfg, shouldSend cfg (actions (fst s) !! id) = false) ->
  elsewhere id (snd s) ->
  sameRun mv ->
  writesOther extractActionIdFromXml id mv ->
  untouched id (fst s)
    (fst (perform StringToNumber JSONstringify JSONparse extractActionIdFromXml
            sqlEq ownKeys s mv)) /\
  elsewhere id
    (snd (perform StringToNumber JSONstringify JSONparse extractActionIdFromXml
            sqlEq ownKeys s mv)).
Proof.
  intros Hskip Hflights Hrun Hother.
  destruct mv as [cfg | k cfg w | j | w metadata | w metadata | loadWorld];
    cbn [perform]; [| | | | |destruct Hrun].
  - unfold startTick.
    destruct (advance_untouched cfg id (ownKeys (actions (fst s))) (fst s)
                (Hskip cfg)) as [Hm Hf].
    destruct (advance cfg (ownKeys (actions (fst s))) (fst s)) as [m' f].
    cbn [fst snd] in *. split; [exact Hm|]. unfold elsewhere in *. rewrite Forall_app. now split.
  - destruct (snd s !! k) as [f|] eqn:Hk;
      [|split; [apply untouched_refl | exact Hflights]].
    assert (current f <> id) as Hne.
    { exact (Forall_lookup_1 _ _ _ _ Hflights Hk). }
    destruct (resume_untouched cfg w id f (fst s) (Hskip cfg) Hne) as [Hm Hf].
    destruct (resumeTick StringToNumber cfg w f (fst s)) as [m' f'].
    cbn [fst snd] in *. split; [exact Hm | now apply elsewhere_settled].
  - split; [|exact Hflights]. now apply step_untouched.
  - split; [|exact Hflights]. now apply storeRecord_untouched.
  - split; [|exact Hflights]. apply storeRow_untouched.
Qed.

(** *** The rows of a finalized record *)

#[export] Instance rowsStay_preorder (id : string) : PreOrder (rowsStay id).
Proof. split; [intros m H; exact H | intros m1 m2 m3 H H' Hm; auto]. Qed.

Lemma rowsStay_same (id : string) (m m' : Machine) :
  ActionHistory m' = ActionHistory m -> rowsStay id m m'.
Proof. unfold rowsStay, durablyFinal. now intros ->. Qed.

Lemma rowsStay_marked (id : string) (k : Z) (m m' : Machine) :
  ActionHistory m' = map (markRow k) (ActionHistory m) -> rowsStay id m m'.
Proof.
  unfold rowsStay, durablyFinal. intros -> Hm.
  apply List.Forall_map. revert Hm. apply List.Forall_impl.
  intros r Hr. unfold markRow. destruct (ActionID r =? k); [|exact Hr].
  discriminate.
Qed.

Lemma rowsStay_filtered (id : string) (keep : HistoryRow -> bool) (m m' : Machine) :
  ActionHistory m' = List.filter keep (ActionHistory m) -> rowsStay id m m'.
Proof.
  unfold rowsStay, durablyFinal. intros -> Hm.
  rewrite List.Forall_forall in *. intros r Hr.
  apply List.filter_In in Hr as [Hr _]. now apply Hm.
Qed.

Lemma rowsStay_inserted (id : string) (r : HistoryRow) (m m' : Machine) :
  ActionHistory m' = ActionHistory m ++ [r] ->
  JsString.of_Z (ActionID r) <> id ->
  rowsStay id m m'.
Proof.
  unfold rowsStay, durablyFinal. intros -> Hr Hm.
  apply Forall_app. split; [exact Hm|]. now repeat constructor.
Qed.

Lemma advance_rows (cfg : Config) (ids : list string) (m : Machine) :
  ActionHistory (fst (advance cfg ids m)) = ActionHistory m.
Proof.
  induction ids as [|id rest IH]; cbn [advance]; [reflexivity|].
  now destruct (shouldSend cfg (actions m !! id)).
Qed.

Lemma markDurable_rowsStay (w : TickWorld) (id id' : string) (m : Machine) :
  rowsStay id m (markDurable StringToNumber w id' m).
Proof.
  unfold markDurable.
  destruct (markPoolFault w id'), (sqlInt (StringToNumber id')) as [k|],
    (markFault w id');
    try (now apply rowsStay_same).
  now apply rowsStay_marked with k.
Qed.

Lemma markMemory_rows (id : string) (m : Machine) :
  ActionHistory (markMemory id m) = ActionHistory m.
Proof. unfold markMemory. now destruct (actions m !! id). Qed.

Lemma resume_rowsStay (cfg : Config) (w : TickWorld) (id : string) (f : flight)
    (m : Machine) :
  rowsStay id m (fst (resumeTick StringToNumber cfg w f m)).
Proof.
  unfold resumeTick. cbv zeta. destruct (waitsFor f).
  - destruct (statusAnswer w (current f)) as [message | st text];
      [reflexivity|].
    destruct (negb (is2xx st) || negb (JsString.nonempty text));
      [apply rowsStay_same, advance_rows|].
    destruct (negb (String.eqb _ "expired"));
      [apply rowsStay_same, advance_rows | now apply rowsStay_same].
  - now apply rowsStay_same.
  - apply rowsStay_same, markMemory_rows.
  - etransitivity; [apply markDurable_rowsStay|].
    apply rowsStay_same, advance_rows.
Qed.

Lemma tickLoop_rowsStay (cfg : Config) (w : TickWorld) (id : string)
    (ids : list string) (m : Machine) :
  rowsStay id m (tickLoop StringToNumber cfg w ids m).
Proof.
  revert m. induction ids as [|id' rest IH]; intros m; simpl; [reflexivity|].
  assert (rowsStay id m (fst (tickBody StringToNumber cfg w id' m))) as Hb.
  { destruct (tickBody_rows StringToNumber cfg w id' m) as [H | (k & H)].
    - now apply rowsStay_same.
    - now apply rowsStay_marked with k. }
  destruct (tickBody StringToNumber cfg w id' m) as [m' [|]]; simpl in Hb.
  - etransitivity; [exact Hb | apply IH].
  - exact Hb.
Qed.

Lemma cleanup_rowsStay (cfg : Config) (w : SqlWorld) (id : string) (m : Machine) :
  rowsStay id m (cleanupOldActions StringToNumber cfg w m).
Proof.
  unfold cleanupOldActions.
  repeat match goal with
         | |- context [match ?x with _ => _ end] => destruct x
         end;
    try (now apply rowsStay_same).
  eapply rowsStay_filtered. reflexivity.
Qed.

Lemma historyInsert_rowsStay (w : TriggerWorld) (actionId : string)
    (metadata : list (string * value)) (id : string) :
  (forall k, sqlInt (StringToNumber actionId) = Some k -> JsString.of_Z k <> id) ->
  stable (rowsStay id) (historyInsert StringToNumber JSONstringify w actionId metadata).
Proof.
  intros Hkey. unfold historyInsert. repeat stable_step.
  all: try (now apply rowsStay_same).
  eapply rowsStay_inserted; [reflexivity|]. simpl. now apply Hkey.
Qed.

Lemma trigger_rowsStay (w : TriggerWorld) (a : TriggerArgs) (id : string) :
  insertsOther StringToNumber extractActionIdFromXml id (Store w []) ->
  stable (rowsStay id)
    (triggerBaselineAction StringToNumber JSONstringify extractActionIdFromXml
       sqlEq w a).
Proof.
  intros Hother. unfold insertsOther in Hother. cbn [submission] in Hother.
  unfold triggerBaselineAction, receiver, selfHeal.
  repeat stable_step.
  all: try (now apply rowsStay_same).
  apply historyInsert_rowsStay. intros k Hk.
  match goal with
  | H : submitAnswer w = HttpResp _ _ |- _ => rewrite H in Hother
  end.
  eapply Hother; eassumption.
Qed.

Lemma handler_rowsStay (w : TriggerWorld) (isForced : bool) (environment : string)
    (reqBody : value) (id : string) :
  insertsOther StringToNumber extractActionIdFromXml id (Store w []) ->
  stable (rowsStay id)
    (handleStageTrigger StringToNumber JSONstringify extractActionIdFromXml
       sqlEq w isForced environment reqBody).
Proof.
  intros Hother. unfold handleStageTrigger, changeGate.
  repeat stable_step.
  all: try (now apply rowsStay_same).
  now apply trigger_rowsStay.
Qed.

Lemma storeRecord_rowsStay (w : TriggerWorld) (metadata : list (string * value))
    (id : string) :
  stable (rowsStay id) (storeRecord extractActionIdFromXml w metadata).
Proof.
  unfold storeRecord.
  destruct (answeredId extractActionIdFromXml w) as [actionId|]; [|stable_step].
  repeat stable_step; now apply rowsStay_same.
Qed.

Lemma storeRow_rowsStay (w : TriggerWorld) (metadata : list (string * value))
    (id : string) :
  insertsOther StringToNumber extractActionIdFromXml id (Insert w metadata) ->
  stable (rowsStay id)
    (storeRow StringToNumber JSONstringify extractActionIdFromXml w metadata).
Proof.
  intros Hother. unfold insertsOther in Hother. cbn [submission] in Hother.
  unfold storeRow, answeredId.
  destruct (submitAnswer w) as [message | st data]; [stable_step|].
  destruct (is2xx st); [|stable_step].
  destruct (extractActionIdFromXml data) as [actionId|] eqn:Hid; [|stable_step].
  stable_step; [|stable_step].
  apply historyInsert_rowsStay. intros k Hk. now apply (Hother actionId k).
Qed.

Lemma foldl_loadRow_rows (rows : list HistoryRow) (m : Machine) :
  ActionHistory (foldl (loadRow JSONparse) m rows) = ActionHistory m.
Proof.
  revert m. induction rows as [|r rows IH]; intros m; simpl; [reflexivity|].
  rewrite IH. unfold loadRow. now destruct (JSONparse _).
Qed.

Lemma foldl_loadRow_other (id : string) (rows : list HistoryRow) (m : Machine) :
  Forall (fun r => JsString.of_Z (ActionID r) <> id) rows ->
  actions (foldl (loadRow JSONparse) m rows) !! id = actions m !! id.
Proof.
  intros Hrows. revert m.
  induction Hrows as [|r rows Hr _ IH]; intros m; simpl; [reflexivity|].
  rewrite IH. unfold loadRow. destruct (JSONparse _); [|reflexivity].
  simpl. now apply lookup_insert_ne.
Qed.

Lemma restart_rows (loadWorld : SqlWorld) (m : Machine) :
  ActionHistory (restart JSONparse loadWorld m) = ActionHistory m.
Proof.
  unfold restart, loadCacheFromDb.
  destruct (sqlPoolFault loadWorld), (sqlQueryFault loadWorld);
    try reflexivity.
  now rewrite foldl_loadRow_rows.
Qed.

Lemma restart_trace (loadWorld : SqlWorld) (m : Machine) :
  exists done, trace (restart JSONparse loadWorld m) = trace m ++ [EvHistoryLoad done].
Proof.
  unfold restart, loadCacheFromDb.
  destruct (sqlPoolFault loadWorld), (sqlQueryFault loadWorld);
    try (now exists false).
  exists true. now rewrite foldl_loadRow_trace.
Qed.

(** A record whose mark has reached the table is not loaded again. *)
Lemma restart_forgets (loadWorld : SqlWorld) (id : string) (m : Machine) :
  durablyFinal id m -> actions (restart JSONparse loadWorld m) !! id = None.
Proof.
  intros Hm. unfold restart, loadCacheFromDb.
  destruct (sqlPoolFault loadWorld), (sqlQueryFault loadWorld);
    try (simpl; apply lookup_empty).
  rewrite foldl_loadRow_other; [simpl; apply lookup_empty|].
  simpl. unfold durablyFinal in Hm. rewrite List.Forall_forall in *.
  intros r Hr. apply List.filter_In in Hr as [Hr Hpending]. now apply Hm.
Qed.

Lemma perform_rowsStay (mv : move) (id : string) (s : Machine * list flight) :
  insertsOther StringToNumber extractActionIdFromXml id mv ->
  rowsStay id (fst s)
    (fst (perform StringToNumber JSONstringify JSONparse extractActionIdFromXml
            sqlEq ownKeys s mv)).
Proof.
  intros Hother.
  destruct mv as [cfg | k cfg w | j | w metadata | w metadata | loadWorld];
    cbn [perform].
  - unfold startTick.
    pose proof (advance_rows cfg (ownKeys (actions (fst s))) (fst s)) as Hrows.
    destruct (advance cfg (ownKeys (actions (fst s))) (fst s)) as [m' f].
    now apply rowsStay_same.
  - destruct (snd s !! k) as [f|]; [|reflexivity].
    pose proof (resume_rowsStay cfg w id f (fst s)) as Hrows.
    now destruct (resumeTick StringToNumber cfg w f (fst s)) as [m' f'].
  - destruct j as [cfg w | cfg w | w f env b]; simpl.
    + apply tickLoop_rowsStay.
    + apply cleanup_rowsStay.
    + now apply handler_rowsStay.
  - apply storeRecord_rowsStay.
  - now apply storeRow_rowsStay.
  - apply rowsStay_same, restart_rows.
Qed.

(** *** One run of the process *)

Lemma sameRun_dec (mv : move) : sameRun mv \/ ~ sameRun mv.
Proof. destruct mv; simpl; tauto. Qed.

Lemma settled_skipped (id : string) (e : entry) (m : Machine) :
  Js.truthy (prop e "postMailSent") = true ->
  actions m !! id = Some e \/ actions m !! id = None ->
  forall cfg, shouldSend cfg (actions m !! id) = false.
Proof.
  intros Hsent [-> | ->] cfg; [now apply shouldSend_sent|].
  unfold shouldSend. now destruct (negb _).
Qed.

Lemma performAll_untouched (moves : list move) (id : string) (e : entry)
    (s : Machine * list flight) :
  Js.truthy (prop e "postMailSent") = true ->
  actions (fst s) !! id = Some e ->
  elsewhere id (snd s) ->
  Forall sameRun moves ->
  Forall (writesOther extractActionIdFromXml id) moves ->
  untouched id (fst s)
    (fst (performAll StringToNumber JSONstringify JSONparse
            extractActionIdFromXml sqlEq ownKeys moves s)) /\
  elsewhere id
    (snd (performAll StringToNumber JSONstringify JSONparse
            extractActionIdFromXml sqlEq ownKeys moves s)).
Proof.
  intros Hsent He Hflights Hrun Hother. revert s He Hflights Hother.
  induction Hrun as [|mv moves Hmv _ IH]; intros s He Hflights Hother.
  - split; [apply untouched_refl | exact Hflights].
  - apply Forall_cons in Hother as [Hfirst Hrest].
    destruct (perform_untouched mv id s) as [Hm Hf]; try assumption.
    { apply settled_skipped with e; [exact Hsent | now left]. }
    unfold performAll. cbn [foldl].
    destruct (IH (perform StringToNumber JSONstringify JSONparse
                    extractActionIdFromXml sqlEq ownKeys s mv)) as [Hm' Hf'];
      [destruct Hm as [-> _]; exact He | exact Hf | exact Hrest |].
    split; [eapply untouched_trans; eassumption | exact Hf'].
Qed.

(** *** Across restarts *)

Lemma perform_settled (mv : move) (id : string) (e : entry)
    (s : Machine * list flight) :
  Js.truthy (prop e "postMailSent") = true ->
  actions (fst s) !! id = Some e \/ actions (fst s) !! id = None ->
  elsewhere id (snd s) ->
  durablyFinal id (fst s) ->
  writesOther extractActionIdFromXml id mv ->
  insertsOther StringToNumber extractActionIdFromXml id mv ->
  let s' := perform StringToNumber JSONstringify JSONparse extractActionIdFromXml
              sqlEq ownKeys s mv in
  (actions (fst s') !! id = Some e \/ actions (fst s') !! id = None) /\
  elsewhere id (snd s') /\
  durablyFinal id (fst s') /\
  emits (fun ev => concerns id ev = false) (fst s) (fst s').
Proof.
  intros Hsent He Hflights Hrows Hother Hinsert s'.
  assert (durablyFinal id (fst s')) as Hrows'.
  { now apply (perform_rowsStay mv id s Hinsert). }
  destruct (sameRun_dec mv) as [Hrun | Hrun].
  - destruct (perform_untouched mv id s) as [[Ha Ht] Hf]; try assumption.
    { now apply settled_skipped with e. }
    fold s' in Ha, Ht, Hf. repeat split; try assumption. now rewrite Ha.
  - destruct mv as [| | | | |loadWorld]; try (now destruct Hrun).
    subst s'. cbn [perform fst snd] in *.
    split; [right; now apply restart_forgets|].
    split; [constructor|]. split; [exact Hrows'|].
    destruct (restart_trace loadWorld (fst s)) as (done & Htrace).
    exists [EvHistoryLoad done]. split; [exact Htrace | now repeat constructor].
Qed.

Lemma performAll_settled (moves : list move) (id : string) (e : entry)
    (s : Machine * list flight) :
  Js.truthy (prop e "postMailSent") = true ->
  actions (fst s) !! id = Some e \/ actions (fst s) !! id = None ->
  elsewhere id (snd s) ->
  durablyFinal id (fst s) ->
  Forall (writesOther extractActionIdFromXml id) moves ->
  Forall (insertsOther StringToNumber extractActionIdFromXml id) moves ->
  let s' := performAll StringToNumber JSONstringify JSONparse
              extractActionIdFromXml sqlEq ownKeys moves s in
  (actions (fst s') !! id = Some e \/ actions (fst s') !! id = None) /\
  elsewhere id (snd s') /\
  emits (fun ev => concerns id ev = false) (fst s) (fst s').
Proof.
  intros Hsent He Hflights Hrows Hother. revert s He Hflights Hrows.
  induction Hother as [|mv moves Hmv _ IH]; intros s He Hflights Hrows Hinsert.
  - repeat split; try assumption. apply emits_refl.
  - apply Forall_cons in Hinsert as [Hfirst Hrest].
    destruct (perform_settled mv id e s) as (He' & Hf' & Hr' & Ht');
      try assumption.
    destruct (IH (perform StringToNumber JSONstringify JSONparse
                    extractActionIdFromXml sqlEq ownKeys s mv)
                He' Hf' Hr' Hrest) as (He'' & Hf'' & Ht'').
    unfold performAll. cbn [foldl]. repeat split; try assumption.
    eapply emits_trans; eassumption.
Qed.

(** C1. A record whose postMailSent flag is set, and at which no tick is
    in flight, is left alone by everything that happens to the process as
    long as no trigger request is answered with its identifier: ticks that
    start, ticks in flight that go on (they may overlap), cleanup runs,
    requests to the pilot routes and to [POST /api/actions]. No tick asks
    for its status, fetches its results, sends its notification or marks it
    again, and the record stays in memory as it is, with the flag set. The
    same holds when the process is started again in between, provided the
    mark has reached the table and no request inserts a row under the
    identifier: the recovery load then does not bring the record back, and
    nothing is sent for it. *)
Theorem finalized_record_stays_finalized
    (moves : list move) (m : Machine) (flights : list flight) (id : string)
    (e : entry) :
  actions m !! id = Some e ->
  Js.truthy (prop e "postMailSent") = true ->
  elsewhere id flights ->
  Forall (writesOther extractActionIdFromXml id) moves ->
  Forall sameRun moves \/
    (durablyFinal id m /\
     Forall (insertsOther StringToNumber extractActionIdFromXml id) moves) ->
  let after := performAll StringToNumber JSONstringify JSONparse
                 extractActionIdFromXml sqlEq ownKeys moves (m, flights) in
  (Forall sameRun moves -> actions (fst after) !! id = Some e) /\
  (actions (fst after) !! id = Some e \/ actions (fst after) !! id = None) /\
  (exists t, trace (fst after) = trace m ++ t /\
             Forall (fun ev => concerns id ev = false) t) /\
  elsewhere id (snd after).
Proof.
  intros He Hsent Hflights Hother Hcase after.
  assert (Forall sameRun moves ->
          untouched id m (fst after) /\ elsewhere id (snd after)) as Hrun.
  { intros Hrun.
    now apply (performAll_untouched moves id e (m, flights)). }
  split.
  { intros Hsame. destruct (Hrun Hsame) as [[-> _] _]. exact He. }
  destruct Hcase as [Hsame | [Hrows Hinsert]].
  - destruct (Hrun Hsame) as [[Ha Ht] Hf].
    split; [left; now rewrite Ha|]. split; [exact Ht | exact Hf].
  - destruct (performAll_settled moves id e (m, flights)) as (Ha & Hf & Ht);
      try assumption; [now left|].
    split; [exact Ha|]. split; [exact Ht | exact Hf].
Qed.

End InterleavingFacts.

Lemma durablyFinal_check (id : string) (m : Machine) :
  forallb (fun r => negb (pendingRow r)
                    || negb (String.eqb (JsString.of_Z (ActionID r)) id))
          (ActionHistory m) = true ->
  durablyFinal id m.
Proof.
  unfold durablyFinal. rewrite List.forallb_forall, List.Forall_forall.
  intros H r Hr Hpending Hkey. specialize (H r Hr).
  rewrite Hpending in H. simpl in H.
  apply negb_true_iff, String.eqb_neq in H. contradiction.
Qed.

Lemma finalized_record_stays_finalized_witness :
  let after := performAll readDecimal writeJson readJson readActionId String.eqb
                 keysOf laterMoves (finalizedMachine, []) in
  (actions (fst after) !! "77" = Some finalizedEntry \/
   actions (fst after) !! "77" = None) /\
  exists t, trace (fst after) = trace finalizedMachine ++ t /\
            Forall (fun ev => concerns "77" ev = false) t.
Proof.
  assert (Js.truthy (prop finalizedEntry "postMailSent") = true) as Hsent.
  { vm_compute. reflexivity. }
  assert (durablyFinal "77" finalizedMachine) as Hrows.
  { apply durablyFinal_check. vm_compute. reflexivity. }
  assert (Forall (writesOther readActionId "77") laterMoves) as Hother.
  { unfold laterMoves.
    repeat (apply List.Forall_cons); try apply List.Forall_nil.
    all: vm_compute; first [exact I | intros H; discriminate H]. }
  assert (Forall (insertsOther readDecimal readActionId "77") laterMoves)
    as Hinsert.
  { unfold laterMoves.
    repeat (apply List.Forall_cons); try apply List.Forall_nil.
    all: unfold insertsOther; cbn [submission laterWorld submitAnswer];
      try exact I.
    all: intros actionId k Hid Hk;
      vm_compute in Hid; injection Hid as <-;
      vm_compute in Hk; injection Hk as <-;
      vm_compute; intros H; discriminate H. }
  destruct (finalized_record_stays_finalized readDecimal writeJson readJson
              readActionId String.eqb keysOf laterMoves finalizedMachine []
              "77" finalizedEntry finalizedEntry_lookup Hsent
              (List.Forall_nil _) Hother
              (or_intror (conj Hrows Hinsert)))
    as (_ & Hrecord & Htrace & _).
  split; [exact Hrecord | exact Htrace].
Defined.

(** C1, as stated, fails: the flag set does not always keep the
    notification from being sent again. Record 77 is finalized and has been
    notified once. When a later
    request is answered with 77 again, the route stores a new record under
    77 with the flag false, and the next tick sends. When the UPDATE of the
    mark fails, the failure is swallowed; after the process is started again
    the recovery load brings the record back with the flag false, and the
    next tick sends. When two ticks overlap at the record, the first sets
    the flag and the second, which has passed the guard already, sends. *)
Lemma finalized_record_is_notified_again :
  (flagOf "77" finalizedMachine = true /\
   mailsFor "77" finalizedMachine = 1%nat /\
   flagOf "77" reissued = false /\
   mailsFor "77" (process [Run (JobTick switchOn expiredWorld)] reissued) = 2%nat) /\
  (flagOf "77" markedInMemory = true /\
   mailsFor "77" markedInMemory = 1%nat /\
   flagOf "77" restarted = false /\
   mailsFor "77" (process [Run (JobTick switchOn expiredWorld)] restarted) = 2%nat) /\
  (flagOf "77" firstTickDone = true /\
   mailsFor "77" firstTickDone = 1%nat /\
   mailsFor "77" bothTicksDone = 2%nat).
Proof. vm_compute. repeat split. Qed.
